(** * Group call signalling of hydrogen-web: [Member] and [GroupCall]

    A shallow embedding of [src/matrix/calls/group/Member.ts] and of the
    [GroupCall] class, with the properties the specification states about
    initiator selection, retries, routing and buffering of to-device
    messages, membership reconciliation, leaving, the joined state and the
    ownership of the local media.

    Objects the classes only call into ([PeerCall], [LocalMedia], the
    homeserver API, log items) are not embedded: every call into them is
    recorded, in program order, in the list of effects an operation returns. *)

From Stdlib Require Import String Ascii List Bool Arith Lia.
Import ListNotations.
Local Open Scope string_scope.
Local Open Scope list_scope.

(** ** JavaScript values *)

(** [a > b] on two JavaScript strings: lexicographic on code units, a proper
    prefix being the smaller one. Strings are Stdlib strings, so code units
    range over 0..255. *)
Definition js_gt (a b : string) : bool := String.ltb b a.

(** The strict order behind [js_gt], as a proposition. *)
Definition str_lt (a b : string) : Prop := String.compare a b = Lt.

(** Lexicographic order on [(user_id, device_id)] pairs, as the specification
    words it. *)
Definition key_lt (a b : string * string) : Prop :=
  str_lt (fst a) (fst b) \/ (fst a = fst b /\ str_lt (snd a) (snd b)).

(** A [LocalMedia] object, named by its reference. *)
Definition LocalMedia := nat.

(** A call id: either the [n]-th id drawn from [makeId("c")], or the
    [call_id] an incoming message carries. *)
Inductive CallId : Type :=
| MadeId (n : nat)
| WireId (call_id : string).

(** Modelled from the spec: [callEventTypes.ts] is not among the sources.
    The six codes [Member.ts] names, and the other members of the enum. All
    members are non-empty strings, hence truthy. *)
Inductive CallErrorCode : Type :=
| UserHangup
| AnsweredElsewhere
| Replaced
| UserBusy
| Transfered
| NewSession
| OtherCallErrorCode (name : string).

Definition CallErrorCode_eq_dec (a b : CallErrorCode) : {a = b} + {a <> b}.
Proof. decide equality. apply string_dec. Defined.

(** Modelled from the spec: the signalling message types of section 4.A. *)
Inductive EventType : Type :=
| Invite | Answer | Candidates | Hangup | Reject | Negotiate
| SDPStreamMetadataChanged.

Definition EventType_eq_dec (a b : EventType) : {a = b} + {a <> b}.
Proof. decide equality. Defined.

(** Modelled from the spec: the states of a [PeerCall] (section 3). *)
Inductive CallState : Type :=
| CallFledgling | CreateOffer | InviteSent | CreateAnswer | Ringing
| Connecting | Connected | Ended.

(** [SignallingMessage<MGroupCallBase>]: the fields the two classes read.
    [msg_ref] is the identity of the message object: a JavaScript [Set]
    holds objects by reference. *)
Record SignallingMessage : Type := mkMessage {
  msg_ref : nat;
  msg_type : EventType;
  call_id : string;
  sender_session_id : string;
  dest_session_id : string
}.

Definition SignallingMessage_eq_dec (a b : SignallingMessage) : {a = b} + {a <> b}.
Proof.
  decide equality; try apply string_dec.
  - apply EventType_eq_dec.
  - apply Nat.eq_dec.
Defined.

(** [CallDeviceMembership]: one entry of [m.devices]. *)
Record CallDeviceMembership : Type := mkDevice {
  device_id : string;
  session_id : string
}.

(** What [emitUpdate] reads of the [PeerCall] it is handed. *)
Record PeerCall : Type := mkPeerCall {
  callId : CallId;
  state : CallState;
  hangupReason : option CallErrorCode
}.

(** ** Member.ts *)

Module Member.

(** The part of [Options] the class reads. *)
Record Options : Type := mkOptions {
  confId : string;
  ownUserId : string;
  ownDeviceId : string;
  sessionId : string
}.

Record Member : Type := mkMember {
  userId : string;                              (* this.member.userId *)
  callDeviceMembership : CallDeviceMembership;
  options : Options;
  peerCall : option CallId;                     (* the PeerCall it holds *)
  localMedia : option LocalMedia;
  retryCount : nat
}.

(** Calls into other objects, in program order. *)
Inductive Effect : Type :=
| Log_wrap (label : string)                                 (* logItem.wrap(label, ...) *)
| Log_wrongSessionId (destSessionId : string) (type : EventType)
| SyncLog_refDetached
| PeerCall_new (c : CallId)
| PeerCall_call (c : CallId) (media : option LocalMedia)
| PeerCall_answer (c : CallId) (media : option LocalMedia)
| PeerCall_hangup (c : CallId) (reason : CallErrorCode)
| PeerCall_close (c : CallId)
| PeerCall_dispose (c : CallId)
| PeerCall_setMedia (c : CallId) (media : LocalMedia)
| PeerCall_handleIncomingSignallingMessage (c : CallId) (message : SignallingMessage) (deviceId : string)
| LocalMedia_dispose (media : LocalMedia)
| Options_emitUpdate (userId deviceId : string).

Definition deviceId (m : Member) : string := device_id (callDeviceMembership m).

Definition set_peerCall (m : Member) (p : option CallId) : Member :=
  mkMember (userId m) (callDeviceMembership m) (options m) p (localMedia m) (retryCount m).

Definition set_localMedia (m : Member) (l : option LocalMedia) : Member :=
  mkMember (userId m) (callDeviceMembership m) (options m) (peerCall m) l (retryCount m).

Definition set_retryCount (m : Member) (n : nat) : Member :=
  mkMember (userId m) (callDeviceMembership m) (options m) (peerCall m) (localMedia m) n.

(** The constructor: no PeerCall, no local media, [retryCount = 0]. *)
Definition new (userId : string) (device : CallDeviceMembership) (opts : Options) : Member :=
  mkMember userId device opts None None 0.

Definition errorCodesWithoutRetry : list CallErrorCode :=
  [UserHangup; AnsweredElsewhere; Replaced; UserBusy; Transfered; NewSession].

(** [Array.prototype.includes]. *)
Definition includes (l : list CallErrorCode) (x : CallErrorCode) : bool :=
  existsb (fun y => if CallErrorCode_eq_dec x y then true else false) l.

(** The value of [shouldInitiateCall] in [connect]. *)
Definition shouldInitiateCall (m : Member) : bool :=
  if String.eqb (userId m) (ownUserId (options m))
  then js_gt (deviceId m) (ownDeviceId (options m))
  else js_gt (userId m) (ownUserId (options m)).

(** [connect(localMedia)]; [newCallId] is what [makeId("c")] returns. The
    argument is an option because [emitUpdate] passes [this.localMedia!]. *)
Definition connect (m : Member) (media : option LocalMedia) (newCallId : CallId)
  : Member * list Effect :=
  let m1 := set_localMedia m media in
  if shouldInitiateCall m1
  then (set_peerCall m1 (Some newCallId),
        [Log_wrap "connect"; PeerCall_new newCallId; PeerCall_call newCallId media])
  else (m1, [Log_wrap "connect"]).

(** [disconnect(hangup)]. *)
Definition disconnect (m : Member) (hangup : bool) : Member * list Effect :=
  let onCall :=
    match peerCall m with
    | Some c => [if hangup then PeerCall_hangup c UserHangup else PeerCall_close c;
                 PeerCall_dispose c]
    | None => []
    end in
  let onMedia :=
    match localMedia m with
    | Some l => [LocalMedia_dispose l]
    | None => []
    end in
  (set_localMedia (set_peerCall m None) None, Log_wrap "disconnect" :: onCall ++ onMedia).

(** [updateCallInfo(callDeviceMembership)]. *)
Definition updateCallInfo (m : Member) (device : CallDeviceMembership) : Member :=
  mkMember (userId m) device (options m) (peerCall m) (localMedia m) (retryCount m).

(** The retry branch of [emitUpdate], taken when the PeerCall has ended. *)
Definition retryAfterEnded (m : Member) (reason : option CallErrorCode) (newCallId : CallId)
  : Member * list Effect :=
  match reason with
  | Some r =>
      if negb (includes errorCodesWithoutRetry r) then
        let m1 := set_retryCount m (retryCount m + 1) in
        if (retryCount m1 <=? 3)%nat then connect m1 (localMedia m1) newCallId else (m1, [])
      else (m, [])
  | None => (m, [])
  end.

(** [emitUpdate(peerCall, params)]. *)
Definition emitUpdate (m : Member) (pc : PeerCall) (newCallId : CallId)
  : Member * list Effect :=
  let '(m', effs) :=
    match state pc with
    | Ringing => (m, [PeerCall_answer (callId pc) (localMedia m)])
    | Ended =>
        let '(m2, effs) := retryAfterEnded (set_peerCall m None) (hangupReason pc) newCallId in
        (m2, PeerCall_dispose (callId pc) :: effs)
    | _ => (m, [])
    end in
  (m', effs ++ [Options_emitUpdate (userId m') (deviceId m')]).

(** [handleDeviceMessage(message, deviceId, syncLog)]. *)
Definition handleDeviceMessage (m : Member) (message : SignallingMessage) (device : string)
  : Member * list Effect :=
  if negb (String.eqb (dest_session_id message) (sessionId (options m))) then
    (m, [SyncLog_refDetached; Log_wrongSessionId (dest_session_id message) (msg_type message)])
  else
    let '(m1, created) :=
      match msg_type message, peerCall m with
      | Invite, None =>
          (set_peerCall m (Some (WireId (call_id message))),
           [PeerCall_new (WireId (call_id message))])
      | _, _ => (m, [])
      end in
    match peerCall m1 with
    | Some c =>
        (m1, SyncLog_refDetached :: created ++ [PeerCall_handleIncomingSignallingMessage c message device])
    | None => (m1, SyncLog_refDetached :: created)
    end.

(** [setMedia(localMedia)] up to its [await]: the old reference is read, the
    new one stored, and the PeerCall told. *)
Definition setMedia_start (m : Member) (media : LocalMedia)
  : Member * option LocalMedia * list Effect :=
  (set_localMedia m (Some media), localMedia m,
   match peerCall m with
   | Some c => [PeerCall_setMedia c media]
   | None => []
   end).

(** [setMedia] after the [await]: [oldMedia?.dispose()]. *)
Definition setMedia_finish (oldMedia : option LocalMedia) : list Effect :=
  match oldMedia with
  | Some l => [LocalMedia_dispose l]
  | None => []
  end.

Definition setMedia (m : Member) (media : LocalMedia) : Member * list Effect :=
  let '(m1, oldMedia, effs) := setMedia_start m media in
  (m1, effs ++ setMedia_finish oldMedia).

End Member.

(** ** JavaScript [Map] and [Set]

    Both iterate in insertion order. A map is a list of bindings with one
    binding per key, a set a list without repetition. *)

Module JsMap.
Section Defs.
Context {K V : Type} (eqb : K -> K -> bool).

Fixpoint get (m : list (K * V)) (k : K) : option V :=
  match m with
  | [] => None
  | (k', v) :: rest => if eqb k k' then Some v else get rest k
  end.

Definition has (m : list (K * V)) (k : K) : bool :=
  match get m k with Some _ => true | None => false end.

(** [Map.prototype.set]: a present key keeps its place. *)
Fixpoint set (m : list (K * V)) (k : K) (v : V) : list (K * V) :=
  match m with
  | [] => [(k, v)]
  | (k', v') :: rest =>
      if eqb k k' then (k', v) :: rest else (k', v') :: set rest k v
  end.

Definition delete (m : list (K * V)) (k : K) : list (K * V) :=
  filter (fun kv => negb (eqb k (fst kv))) m.

Definition size (m : list (K * V)) : nat := length m.
Definition keys (m : list (K * V)) : list K := map fst m.
Definition values (m : list (K * V)) : list V := map snd m.
End Defs.
End JsMap.

Module JsSet.
Section Defs.
Context {A : Type} (eq_dec : forall a b : A, {a = b} + {a <> b}).

Definition has (s : list A) (x : A) : bool :=
  if in_dec eq_dec x s then true else false.

(** [Set.prototype.add]: an element already present stays where it is. *)
Definition add (s : list A) (x : A) : list A :=
  if has s x then s else s ++ [x].
End Defs.
End JsSet.

(** ** GroupCall.ts

    [GroupCall] is written against a revision of [Member] whose methods take
    more arguments than those of [Member.ts]
    ([connect(localMedia, localMuteSettings, turnServer, logItem)],
    [handleDeviceMessage(message, log)], [setMedia(localMedia, oldMedia)],
    [new Member(roomMember, device, deviceIndex, eventTimestamp, options)])
    and which has a [sessionId] getter. Each call is embedded as the method
    of [Member.ts] of that name on the arguments the two revisions share;
    [sessionId] reads [callDeviceMembership.session_id], and the device id
    [Member.handleDeviceMessage] forwards is the member's own. *)

Module GroupCall.

Inductive GroupCallState : Type :=
| Fledgling | Creating | Created | Joining | Joined.

Definition GroupCallState_eqb (a b : GroupCallState) : bool :=
  match a, b with
  | Fledgling, Fledgling | Creating, Creating | Created, Created
  | Joining, Joining | Joined, Joined => true
  | _, _ => false
  end.

(** Modelled from the spec: [CallIntent] of [callEventTypes.ts]
    ([intent] in section 3). *)
Inductive CallIntent : Type := Ring | Prompt | Room.

(** The content of the [m.call] state event. [m_terminated] holds when the
    field is present and [true]. *)
Record CallContent : Type := mkCallContent {
  m_intent : option CallIntent;
  m_type : option string;
  m_name : option string;
  m_terminated : bool
}.

(** One entry of [m.calls] in the content of an [m.call.member] event. *)
Record CallInfo : Type := mkCallInfo {
  m_call_id : string;
  m_devices : list CallDeviceMembership
}.

(** The member key. The source encodes the pair as the string
    [JSON.stringify(userId) + "," + JSON.stringify(deviceId)], which is
    injective; the embedding keeps the pair, on which
    [key.startsWith(JSON.stringify(userId) + ",")] tests the first component
    and [JSON.parse("[" + key + "]")[1]] is the second. *)
Definition MemberKey : Type := string * string.

Definition getMemberKey (userId deviceId : string) : MemberKey := (userId, deviceId).

Definition memberKeyIsForUser (key : MemberKey) (userId : string) : bool :=
  String.eqb (fst key) userId.

Definition getDeviceFromMemberKey (key : MemberKey) : string := snd key.

Definition MemberKey_eqb (a b : MemberKey) : bool :=
  String.eqb (fst a) (fst b) && String.eqb (snd a) (snd b).

(** The part of [Options] the class reads. *)
Record Options : Type := mkOptions {
  ownUserId : string;
  ownDeviceId : string;
  sessionId : string
}.

(** [JoinedData]: the local media; mute settings, TURN settings and the log
    items play no part in what follows. *)
Record JoinedData : Type := mkJoinedData {
  jd_localMedia : LocalMedia
}.

Record GroupCall : Type := mkGroupCall {
  id : string;
  callContent : CallContent;
  roomId : string;
  options : Options;
  _members : list (MemberKey * Member.Member);                        (* ObservableMap *)
  _state : GroupCallState;
  bufferedDeviceMessages : list (MemberKey * list SignallingMessage); (* Map<string, Set> *)
  joinedData : option JoinedData;
  _deviceIndex : option nat;
  _eventTimestamp : option nat;
  connects : nat             (* how many ids [makeId("c")] has been asked for *)
}.

(** A method of a member, as [GroupCall] invokes it. *)
Inductive MemberCall : Type :=
| Call_new (device : CallDeviceMembership)
| Call_connect (media : LocalMedia)
| Call_disconnect (hangup : bool)
| Call_updateCallInfo (device : CallDeviceMembership)
| Call_handleDeviceMessage (message : SignallingMessage)
| Call_setMedia (media : LocalMedia)
| Resume_setMedia.                    (* [setMedia] resumed after its await *)

Inductive StateEvent : Type :=
| GroupCallMemberEvent (stateKey : string) (calls : list CallInfo)   (* m.call.member *)
| GroupCallEvent (stateKey : string) (content : CallContent).        (* m.call *)

(** What an operation does besides changing the [GroupCall], in program
    order. [OnMember key call effects]: the member under [key] ran [call],
    which had [effects]. *)
Inductive Effect : Type :=
| OnMember (key : MemberKey) (call : MemberCall) (effects : list Member.Effect)
| Members_add (key : MemberKey)
| Members_remove (key : MemberKey)
| EmitChange
| HsApi_sendState (roomId : string) (event : StateEvent)
| Log_buffering (userId deviceId sessionId : string) (type : EventType)
| LocalMedia_dispose (media : LocalMedia)
| LogItem_finish.

(** *** Field updates *)

Definition set_members (g : GroupCall) (ms : list (MemberKey * Member.Member)) : GroupCall :=
  mkGroupCall (id g) (callContent g) (roomId g) (options g) ms (_state g)
    (bufferedDeviceMessages g) (joinedData g) (_deviceIndex g) (_eventTimestamp g) (connects g).

Definition set_state (g : GroupCall) (s : GroupCallState) : GroupCall :=
  mkGroupCall (id g) (callContent g) (roomId g) (options g) (_members g) s
    (bufferedDeviceMessages g) (joinedData g) (_deviceIndex g) (_eventTimestamp g) (connects g).

Definition set_buffered (g : GroupCall) (b : list (MemberKey * list SignallingMessage)) : GroupCall :=
  mkGroupCall (id g) (callContent g) (roomId g) (options g) (_members g) (_state g)
    b (joinedData g) (_deviceIndex g) (_eventTimestamp g) (connects g).

Definition set_joinedData (g : GroupCall) (j : option JoinedData) : GroupCall :=
  mkGroupCall (id g) (callContent g) (roomId g) (options g) (_members g) (_state g)
    (bufferedDeviceMessages g) j (_deviceIndex g) (_eventTimestamp g) (connects g).

Definition set_callContent (g : GroupCall) (c : CallContent) : GroupCall :=
  mkGroupCall (id g) c (roomId g) (options g) (_members g) (_state g)
    (bufferedDeviceMessages g) (joinedData g) (_deviceIndex g) (_eventTimestamp g) (connects g).

Definition set_ownEntry (g : GroupCall) (deviceIndex eventTimestamp : nat) : GroupCall :=
  mkGroupCall (id g) (callContent g) (roomId g) (options g) (_members g) (_state g)
    (bufferedDeviceMessages g) (joinedData g) (Some deviceIndex) (Some eventTimestamp) (connects g).

Definition set_connects (g : GroupCall) (n : nat) : GroupCall :=
  mkGroupCall (id g) (callContent g) (roomId g) (options g) (_members g) (_state g)
    (bufferedDeviceMessages g) (joinedData g) (_deviceIndex g) (_eventTimestamp g) n.

(** *** Constructor and getters *)

Definition new (id : string) (newCall : bool) (callContent : CallContent)
    (roomId : string) (options : Options) : GroupCall :=
  mkGroupCall id callContent roomId options []
    (if newCall then Fledgling else Created) [] None None None 0.

(** [_memberOptions]. *)
Definition memberOptions (g : GroupCall) : Member.Options :=
  Member.mkOptions (id g) (ownUserId (options g)) (ownDeviceId (options g))
    (sessionId (options g)).

Definition localMedia (g : GroupCall) : option LocalMedia :=
  option_map jd_localMedia (joinedData g).

Definition isTerminated (g : GroupCall) : bool := m_terminated (callContent g).

Definition intent (g : GroupCall) : option CallIntent := m_intent (callContent g).

Definition hasJoined (g : GroupCall) : bool :=
  GroupCallState_eqb (_state g) Joining || GroupCallState_eqb (_state g) Joined.

(** [member.sessionId]. *)
Definition member_sessionId (m : Member.Member) : string :=
  session_id (Member.callDeviceMembership m).

Definition getMember (g : GroupCall) (key : MemberKey) : option Member.Member :=
  JsMap.get MemberKey_eqb (_members g) key.

(** The set buffered under [key], empty when the map has no such key. *)
Definition buffered (g : GroupCall) (key : MemberKey) : list SignallingMessage :=
  match JsMap.get MemberKey_eqb (bufferedDeviceMessages g) key with
  | Some messages => messages
  | None => []
  end.

(** A mutation of the member object held under [key]. *)
Definition storeMember (g : GroupCall) (key : MemberKey) (m : Member.Member) : GroupCall :=
  set_members g (JsMap.set MemberKey_eqb (_members g) key m).

(** Modelled from the spec: [ObservableMap] is not among the sources;
    [members: Map<MemberKey -> Member>] with unique keys. [add] binds a key
    that is not bound yet. *)
Definition members_add (g : GroupCall) (key : MemberKey) (m : Member.Member) : GroupCall :=
  if JsMap.has MemberKey_eqb (_members g) key then g
  else set_members g (_members g ++ [(key, m)]).

Definition members_remove (g : GroupCall) (key : MemberKey) : GroupCall :=
  set_members g (JsMap.delete MemberKey_eqb (_members g) key).

(** The key a member answers to: [getMemberKey(member.userId, member.deviceId)]. *)
Definition keyOf (m : Member.Member) : MemberKey :=
  getMemberKey (Member.userId m) (Member.deviceId m).

(** *** Operations *)

(** [connectToMember(member, joinedData, log)]. *)
Definition connectToMember (g : GroupCall) (member : Member.Member) (jd : JoinedData)
  : GroupCall * Member.Member * list Effect :=
  let media := jd_localMedia jd in
  let '(member', effs) := Member.connect member (Some media) (MadeId (connects g)) in
  (set_connects g (S (connects g)), member',
   [OnMember (keyOf member) (Call_connect media) effs]).

(** The loop of [flushPendingIncomingDeviceMessages] over the set: a message
    of the member's session is handed to the member and deleted from the
    set, the others stay. *)
Fixpoint flushMessages (member : Member.Member) (pending : list SignallingMessage)
  : Member.Member * list SignallingMessage * list Effect :=
  match pending with
  | [] => (member, [], [])
  | message :: rest =>
      if String.eqb (sender_session_id message) (member_sessionId member) then
        let '(member1, effs) :=
          Member.handleDeviceMessage member message (Member.deviceId member) in
        let '(member2, kept, effs') := flushMessages member1 rest in
        (member2, kept,
         OnMember (keyOf member) (Call_handleDeviceMessage message) effs :: effs')
      else
        let '(member2, kept, effs') := flushMessages member rest in
        (member2, message :: kept, effs')
  end.

(** [flushPendingIncomingDeviceMessages(member, log)]. *)
Definition flushPendingIncomingDeviceMessages (g : GroupCall) (member : Member.Member)
  : GroupCall * Member.Member * list Effect :=
  let memberKey := keyOf member in
  match JsMap.get MemberKey_eqb (bufferedDeviceMessages g) memberKey with
  | Some bufferedMessages =>
      let '(member', kept, effs) := flushMessages member bufferedMessages in
      let b :=
        match kept with
        | [] => JsMap.delete MemberKey_eqb (bufferedDeviceMessages g) memberKey
        | _ :: _ => JsMap.set MemberKey_eqb (bufferedDeviceMessages g) memberKey kept
        end in
      (set_buffered g b, member', effs)
  | None => (g, member, [])
  end.

(** [getDeviceIdsForUserId(userId)]. *)
Definition getDeviceIdsForUserId (g : GroupCall) (userId : string) : list string :=
  map getDeviceFromMemberKey
    (filter (fun key => memberKeyIsForUser key userId)
       (JsMap.keys (_members g))).

(** [isMember(userId)]. *)
Definition isMember (g : GroupCall) (userId : string) : bool :=
  existsb (fun key => memberKeyIsForUser key userId) (JsMap.keys (_members g)).

Definition isRinging (g : GroupCall) : bool :=
  GroupCallState_eqb (_state g) Created
  && match intent g with Some Ring => true | _ => false end
  && negb (isMember g (ownUserId (options g))).

(** The loop of [disconnect] over the members: each is disconnected with a
    hangup and stays in the map. *)
Definition disconnectMembers (members : list (MemberKey * Member.Member))
  : list (MemberKey * Member.Member) * list Effect :=
  (map (fun km => (fst km, fst (Member.disconnect (snd km) true))) members,
   map (fun km => OnMember (keyOf (snd km)) (Call_disconnect true)
                    (snd (Member.disconnect (snd km) true))) members).

(** [JoinedData.dispose()]. *)
Definition JoinedData_dispose (jd : JoinedData) : list Effect :=
  [LocalMedia_dispose (jd_localMedia jd); LogItem_finish].

(** [disconnect(log)]. *)
Definition disconnect (g : GroupCall) : GroupCall * list Effect :=
  let '(g1, effs1) :=
    if GroupCallState_eqb (_state g) Joined then
      let '(members, effs) := disconnectMembers (_members g) in
      (set_state (set_members g members) Created, effs)
    else (g, []) in
  let effs2 :=
    match joinedData g1 with
    | Some jd => JoinedData_dispose jd
    | None => []
    end in
  (set_joinedData g1 None, effs1 ++ effs2 ++ [EmitChange]).

(** [removeOwnDevice(log)]. *)
Definition removeOwnDevice (g : GroupCall) : GroupCall * list Effect := disconnect g.

(** [removeMemberDevice(userId, deviceId, log)]. *)
Definition removeMemberDevice (g : GroupCall) (userId deviceId : string)
  : GroupCall * list Effect :=
  let memberKey := getMemberKey userId deviceId in
  match getMember g memberKey with
  | Some member =>
      (members_remove g memberKey,
       [Members_remove memberKey;
        OnMember (keyOf member) (Call_disconnect false) (snd (Member.disconnect member false));
        EmitChange])
  | None => (g, [EmitChange])
  end.

(** The tail of the [else] branch of [updateMembership]: a new member is
    made, added under [memberKey] and, when [joinedData] is set, connected. *)
Definition addMember (g : GroupCall) (memberKey : MemberKey) (roomMemberUserId : string)
    (device : CallDeviceMembership) : GroupCall * Member.Member * list Effect :=
  let member := Member.new roomMemberUserId device (memberOptions g) in
  let g1 := members_add g memberKey member in
  let added := [OnMember (keyOf member) (Call_new device) []; Members_add memberKey] in
  match joinedData g1 with
  | Some jd =>
      let '(g2, member', effs) := connectToMember g1 member jd in
      (storeMember g2 memberKey member', member', added ++ effs)
  | None => (g1, member, added)
  end.

(** The [else] branch of the loop body of [updateMembership]: the member
    for [device], which is the one under [memberKey] with its call info
    updated when the session id is the same, and a new one otherwise, made
    after the one under [memberKey], if any, was disconnected and removed. *)
Definition memberForDevice (g : GroupCall) (memberKey : MemberKey) (roomMemberUserId : string)
    (device : CallDeviceMembership) : GroupCall * Member.Member * list Effect :=
  match getMember g memberKey with
  | Some member =>
      if String.eqb (member_sessionId member) (session_id device) then
        let member' := Member.updateCallInfo member device in
        (storeMember g memberKey member', member',
         [OnMember (keyOf member) (Call_updateCallInfo device) []])
      else
        let removed :=
          [OnMember (keyOf member) (Call_disconnect false)
             (snd (Member.disconnect member false));
           Members_remove memberKey] in
        let '(g1, member', effs) :=
          addMember (members_remove g memberKey) memberKey roomMemberUserId device in
        (g1, member', removed ++ effs)
  | None => addMember g memberKey roomMemberUserId device
  end.

(** The body of the loop of [updateMembership] over [m.devices], for the
    entry [device] at [deviceIndex]. [roomMemberUserId] is
    [roomMember.userId]. *)
Definition updateDeviceMembership (g : GroupCall) (userId roomMemberUserId : string)
    (device : CallDeviceMembership) (deviceIndex eventTimestamp : nat)
  : GroupCall * list Effect :=
  let deviceId := device_id device in
  let memberKey := getMemberKey userId deviceId in
  if String.eqb userId (ownUserId (options g)) && String.eqb deviceId (ownDeviceId (options g))
  then
    let g1 := set_ownEntry g deviceIndex eventTimestamp in
    if GroupCallState_eqb (_state g1) Joining
    then (set_state g1 Joined, [EmitChange])
    else (g1, [])
  else
    let '(g2, member, effs) := memberForDevice g memberKey roomMemberUserId device in
    let '(g3, member', flushed) := flushPendingIncomingDeviceMessages g2 member in
    (storeMember g3 memberKey member', effs ++ flushed).

Fixpoint updateDevices (g : GroupCall) (userId roomMemberUserId : string)
    (devices : list CallDeviceMembership) (deviceIndex eventTimestamp : nat)
  : GroupCall * list Effect :=
  match devices with
  | [] => (g, [])
  | device :: rest =>
      let '(g1, effs1) :=
        updateDeviceMembership g userId roomMemberUserId device deviceIndex eventTimestamp in
      let '(g2, effs2) :=
        updateDevices g1 userId roomMemberUserId rest (S deviceIndex) eventTimestamp in
      (g2, effs1 ++ effs2)
  end.

Fixpoint removeMemberDevices (g : GroupCall) (userId : string) (deviceIds : list string)
  : GroupCall * list Effect :=
  match deviceIds with
  | [] => (g, [])
  | deviceId :: rest =>
      let '(g1, effs1) := removeMemberDevice g userId deviceId in
      let '(g2, effs2) := removeMemberDevices g1 userId rest in
      (g2, effs1 ++ effs2)
  end.

Definition hasDevice (deviceIds : list string) (deviceId : string) : bool :=
  existsb (String.eqb deviceId) deviceIds.

(** [updateMembership(userId, roomMember, callMembership, eventTimestamp, syncLog)]. *)
Definition updateMembership (g : GroupCall) (userId roomMemberUserId : string)
    (devices : list CallDeviceMembership) (eventTimestamp : nat)
  : GroupCall * list Effect :=
  let previousDeviceIds := getDeviceIdsForUserId g userId in
  let '(g1, effs1) := updateDevices g userId roomMemberUserId devices 0 eventTimestamp in
  let newDeviceIds := map device_id devices in
  let '(g2, effs2) :=
    removeMemberDevices g1 userId
      (filter (fun previousDeviceId => negb (hasDevice newDeviceIds previousDeviceId))
         previousDeviceIds) in
  let '(g3, effs3) :=
    if String.eqb userId (ownUserId (options g2))
       && negb (hasDevice newDeviceIds (ownDeviceId (options g2)))
    then removeOwnDevice g2
    else (g2, []) in
  (g3, effs1 ++ effs2 ++ effs3).

(** [removeMembership(userId, syncLog)]. *)
Definition removeMembership (g : GroupCall) (userId : string) : GroupCall * list Effect :=
  let deviceIds := getDeviceIdsForUserId g userId in
  let '(g1, effs1) := removeMemberDevices g userId deviceIds in
  let '(g2, effs2) :=
    if String.eqb userId (ownUserId (options g1)) then removeOwnDevice g1 else (g1, []) in
  (g2, effs1 ++ effs2).

(** [handleDeviceMessage(message, userId, deviceId, syncLog)]. *)
Definition handleDeviceMessage (g : GroupCall) (message : SignallingMessage)
    (userId deviceId : string) : GroupCall * list Effect :=
  let key := getMemberKey userId deviceId in
  let deliver :=
    match getMember g key with
    | Some member =>
        if String.eqb (sender_session_id message) (member_sessionId member)
        then Some member else None
    | None => None
    end in
  match deliver with
  | Some member =>
      let '(member', effs) :=
        Member.handleDeviceMessage member message (Member.deviceId member) in
      (storeMember g key member',
       [OnMember (keyOf member) (Call_handleDeviceMessage message) effs])
  | None =>
      let messages := buffered g key in
      (set_buffered g
         (JsMap.set MemberKey_eqb (bufferedDeviceMessages g) key
            (JsSet.add SignallingMessage_eq_dec messages message)),
       [Log_buffering userId deviceId (sender_session_id message) (msg_type message)])
  end.

(** [setMedia(localMedia)]. [Promise.all] over the mapped members runs every
    member's [setMedia] up to its await before any of them resumes; the
    resumptions are taken in map order. *)
Definition setMedia (g : GroupCall) (media : LocalMedia) : GroupCall * list Effect :=
  match hasJoined g, joinedData g with
  | true, Some jd =>
      let oldMedia := jd_localMedia jd in
      let g1 := set_joinedData g (Some (mkJoinedData media)) in
      let members :=
        map (fun km => (fst km, fst (fst (Member.setMedia_start (snd km) media))))
          (_members g1) in
      let started :=
        map (fun km => OnMember (keyOf (snd km)) (Call_setMedia media)
                         (snd (Member.setMedia_start (snd km) media)))
          (_members g1) in
      let resumed :=
        map (fun km => OnMember (keyOf (snd km)) Resume_setMedia
                         (Member.setMedia_finish (snd (fst (Member.setMedia_start (snd km) media)))))
          (_members g1) in
      (set_members g1 members,
       EmitChange :: started ++ resumed ++ [LocalMedia_dispose oldMedia])
  | _, _ => (g, [])
  end.

(** *** The own [m.call.member] state event *)

Definition findCall (id : string) (calls : list CallInfo) : option CallInfo :=
  find (fun c => String.eqb (m_call_id c) id) calls.

(** An in-place change of the devices of the entry [findCall] returns. *)
Fixpoint onFoundCall (id : string)
    (f : list CallDeviceMembership -> list CallDeviceMembership)
    (calls : list CallInfo) : list CallInfo :=
  match calls with
  | [] => []
  | c :: rest =>
      if String.eqb (m_call_id c) id
      then mkCallInfo (m_call_id c) (f (m_devices c)) :: rest
      else c :: onFoundCall id f rest
  end.

(** [Array.prototype.findIndex], [None] for [-1]. *)
Fixpoint findIndex {A : Type} (p : A -> bool) (l : list A) : option nat :=
  match l with
  | [] => None
  | x :: rest => if p x then Some 0 else option_map S (findIndex p rest)
  end.

(** [l.splice(i, 1)]: what is left in [l]. *)
Definition splice1 {A : Type} (i : nat) (l : list A) : list A :=
  firstn i l ++ skipn (S i) l.

Definition isOwnDevice (g : GroupCall) (d : CallDeviceMembership) : bool :=
  String.eqb (device_id d) (ownDeviceId (options g)).

Definition ownDeviceEntry (g : GroupCall) : CallDeviceMembership :=
  mkDevice (ownDeviceId (options g)) (sessionId (options g)).

(** [_createJoinPayload()] on the stored content of the own member event:
    the content to send and the new [_deviceIndex]. *)
Definition _createJoinPayload (g : GroupCall) (stored : option (list CallInfo))
  : list CallInfo * nat :=
  let callsInfo := match stored with Some calls => calls | None => [] end in
  let callsInfo1 :=
    match findCall (id g) callsInfo with
    | Some _ => callsInfo
    | None => callsInfo ++ [mkCallInfo (id g) []]
    end in
  let content :=
    onFoundCall (id g)
      (fun devices => filter (fun d => negb (isOwnDevice g d)) devices ++ [ownDeviceEntry g])
      callsInfo1 in
  (content,
   match findCall (id g) content with
   | Some callInfo => length (m_devices callInfo)
   | None => 0
   end).

(** [_leaveCallMemberContent()] on the stored content of the own member
    event, [None] when the function returns [undefined]. *)
Definition _leaveCallMemberContent (g : GroupCall) (stored : option (list CallInfo))
  : option (list CallInfo) :=
  match stored with
  | Some content =>
      match findCall (id g) content with
      | Some callInfo =>
          match findIndex (isOwnDevice g) (m_devices callInfo) with
          | Some deviceIndex => Some (onFoundCall (id g) (splice1 deviceIndex) content)
          | None => None
          end
      | None => None
      end
  | None => None
  end.

(** *** Lifecycle *)

(** [create(type)] up to the await of the request. *)
Definition create_start (g : GroupCall) (type : string) : GroupCall * list Effect :=
  if GroupCallState_eqb (_state g) Fledgling then
    let c := callContent g in
    let content :=
      mkCallContent (m_intent c)
        (match m_type c with Some t => Some t | None => Some type end)
        (m_name c) (m_terminated c) in
    (set_callContent (set_state g Creating) content,
     [EmitChange; HsApi_sendState (roomId g) (GroupCallEvent (id g) content)])
  else (g, []).

(** [create(type)] once the request has answered. *)
Definition create_finish (g : GroupCall) : GroupCall * list Effect :=
  (set_state g Created, [EmitChange]).

(** [updateCallEvent(callContent, syncLog)]. *)
Definition updateCallEvent (g : GroupCall) (content : CallContent) : GroupCall * list Effect :=
  let g1 := set_callContent g content in
  (if GroupCallState_eqb (_state g1) Creating then set_state g1 Created else g1,
   [EmitChange]).

(** [terminate(log)]: the state event it sends. *)
Definition terminate (g : GroupCall) : list Effect :=
  if GroupCallState_eqb (_state g) Fledgling then []
  else
    let c := callContent g in
    [HsApi_sendState (roomId g)
       (GroupCallEvent (id g) (mkCallContent (m_intent c) (m_type c) (m_name c) true))].

(** The guard of [join(localMedia)]. *)
Definition join_canStart (g : GroupCall) : bool :=
  GroupCallState_eqb (_state g) Created
  && match joinedData g with Some _ => false | None => true end.

(** [join], from the answer of the TURN settings to the read of the stored
    member event: [joinedData] is set and the state is [Joining]. *)
Definition join_install (g : GroupCall) (media : LocalMedia) : GroupCall * list Effect :=
  (set_state (set_joinedData g (Some (mkJoinedData media))) Joining, [EmitChange]).

(** [join], from the stored member event to the request that sends the own
    one; [now] is [Date.now()]. *)
Definition join_sendState (g : GroupCall) (stored : option (list CallInfo)) (now : nat)
  : GroupCall * list Effect :=
  let '(content, deviceIndex) := _createJoinPayload g stored in
  (set_ownEntry g deviceIndex now,
   [HsApi_sendState (roomId g) (GroupCallMemberEvent (ownUserId (options g)) content)]).

Fixpoint connectToMembers (g : GroupCall) (members : list (MemberKey * Member.Member))
    (jd : JoinedData) : GroupCall * list Effect :=
  match members with
  | [] => (g, [])
  | km :: rest =>
      let '(g1, member', effs) := connectToMember g (snd km) jd in
      let '(g2, effs') := connectToMembers (storeMember g1 (fst km) member') rest jd in
      (g2, effs ++ effs')
  end.

(** [join], once the request has answered: every member is connected with
    the [joinedData] the call of [join] made. *)
Definition join_connect (g : GroupCall) (jd : JoinedData) : GroupCall * list Effect :=
  let '(g1, effs) := connectToMembers g (_members g) jd in
  (g1, EmitChange :: effs).

(** [join(localMedia)] with nothing else running during its awaits. *)
Definition join (g : GroupCall) (media : LocalMedia) (stored : option (list CallInfo))
    (now : nat) : GroupCall * list Effect :=
  if join_canStart g then
    let '(g1, effs1) := join_install g media in
    let '(g2, effs2) := join_sendState g1 stored now in
    let '(g3, effs3) := join_connect g2 (mkJoinedData media) in
    (g3, effs1 ++ effs2 ++ effs3)
  else (g, []).

(** [leave()] with nothing else running during its awaits; [stored] is the
    content of the own member event in storage, if there is one. *)
Definition leave (g : GroupCall) (stored : option (list CallInfo)) : GroupCall * list Effect :=
  match joinedData g with
  | None => (g, [])
  | Some _ =>
      let sent :=
        match _leaveCallMemberContent g stored with
        | Some memberContent =>
            HsApi_sendState (roomId g)
              (GroupCallMemberEvent (ownUserId (options g)) memberContent)
            :: (if match intent g with Some Ring => true | _ => false end
                   && (JsMap.size (_members g) =? 0)%nat
                then terminate g else [])
        | None => []
        end in
      let '(g', effs) := disconnect g in
      (g', sent ++ effs)
  end.

(** *** Runs

    The code is single-threaded and an operation gives way only at an
    [await]. [Step] lists the pieces that run without giving way. A piece
    that follows an [await] may run in whatever state the other operations
    have left by then, so no piece has a condition on the state here; the
    states [Reachable] holds of include every state the code can be in.
    [updateMembership] is run with the room member of its [userId]. The
    PeerCall of a member may call the member's [emitUpdate] between any two
    pieces. *)
Inductive Step : GroupCall -> GroupCall -> Prop :=
| Step_create_start g type : Step g (fst (create_start g type))
| Step_create_finish g : Step g (fst (create_finish g))
| Step_updateCallEvent g content : Step g (fst (updateCallEvent g content))
| Step_join_install g media : Step g (fst (join_install g media))
| Step_join_sendState g stored now : Step g (fst (join_sendState g stored now))
| Step_join_connect g jd : Step g (fst (join_connect g jd))
| Step_setMedia g media : Step g (fst (setMedia g media))
| Step_disconnect g : Step g (fst (disconnect g))
| Step_updateMembership g userId devices eventTimestamp :
    Step g (fst (updateMembership g userId userId devices eventTimestamp))
| Step_removeMembership g userId : Step g (fst (removeMembership g userId))
| Step_handleDeviceMessage g message userId deviceId :
    Step g (fst (handleDeviceMessage g message userId deviceId))
| Step_member_emitUpdate g key member peerCall newCallId :
    getMember g key = Some member ->
    Step g (storeMember g key (fst (Member.emitUpdate member peerCall newCallId))).

Inductive Reachable : GroupCall -> Prop :=
| Reachable_new id newCall callContent roomId options :
    Reachable (new id newCall callContent roomId options)
| Reachable_step g g' : Reachable g -> Step g g' -> Reachable g'.

End GroupCall.

(** ** What a list of effects shows *)

(** Whether [message] was sent in the session [session]. *)
Definition forSession (session : string) (message : SignallingMessage) : bool :=
  String.eqb (sender_session_id message) session.

(** A member is bound under [key] and [message] was sent in its session. *)
Definition knownSender (g : GroupCall.GroupCall) (message : SignallingMessage)
    (key : GroupCall.MemberKey) : Prop :=
  exists member,
    GroupCall.getMember g key = Some member
    /\ sender_session_id message = GroupCall.member_sessionId member.

(** Every member is bound under the key it answers to. *)
Definition membersKeyed (g : GroupCall.GroupCall) : Prop :=
  Forall (fun km => GroupCall.keyOf (snd km) = fst km) (GroupCall._members g).

(** The messages [GroupCall] handed to the member answering to [key], in
    the order of the calls. *)
Fixpoint deliveries (key : GroupCall.MemberKey) (effs : list GroupCall.Effect)
  : list SignallingMessage :=
  match effs with
  | [] => []
  | GroupCall.OnMember k (GroupCall.Call_handleDeviceMessage message) _ :: rest =>
      if GroupCall.MemberKey_eqb k key
      then message :: deliveries key rest
      else deliveries key rest
  | _ :: rest => deliveries key rest
  end.

(** Whether [connect] was called on the member answering to [key]. *)
Definition connects_member (key : GroupCall.MemberKey) (effs : list GroupCall.Effect) : bool :=
  existsb (fun e =>
             match e with
             | GroupCall.OnMember k (GroupCall.Call_connect _) _ => GroupCall.MemberKey_eqb k key
             | _ => false
             end) effs.

(** The state events sent, in order. *)
Fixpoint sentStateEvents (effs : list GroupCall.Effect) : list GroupCall.StateEvent :=
  match effs with
  | [] => []
  | GroupCall.HsApi_sendState _ event :: rest => event :: sentStateEvents rest
  | _ :: rest => sentStateEvents rest
  end.

(** Whether a conference state event with [m.terminated = true] was sent. *)
Definition sendsTerminated (effs : list GroupCall.Effect) : bool :=
  existsb (fun event =>
             match event with
             | GroupCall.GroupCallEvent _ content => GroupCall.m_terminated content
             | GroupCall.GroupCallMemberEvent _ _ => false
             end) (sentStateEvents effs).

(** The media objects a member disposed of. *)
Fixpoint memberDisposals (effs : list Member.Effect) : list LocalMedia :=
  match effs with
  | [] => []
  | Member.LocalMedia_dispose media :: rest => media :: memberDisposals rest
  | _ :: rest => memberDisposals rest
  end.

(** The media objects disposed of from within a method of a member. *)
Fixpoint disposalsByMembers (effs : list GroupCall.Effect) : list LocalMedia :=
  match effs with
  | [] => []
  | GroupCall.OnMember _ _ inner :: rest => memberDisposals inner ++ disposalsByMembers rest
  | _ :: rest => disposalsByMembers rest
  end.

(** Each buffered set is without repetition, as a JavaScript [Set] is. *)
Definition buffersAreSets (g : GroupCall.GroupCall) : Prop :=
  forall key, NoDup (GroupCall.buffered g key).


(** Invariant 5 of the specification: the local media is there exactly
    when [hasJoined] holds. *)
Definition mediaIffJoined (g : GroupCall.GroupCall) : Prop :=
  GroupCall.localMedia g <> None <-> GroupCall.hasJoined g = true.

(** The media objects [GroupCall] disposed of itself, in order. *)
Fixpoint disposalsByGroupCall (effs : list GroupCall.Effect) : list LocalMedia :=
  match effs with
  | [] => []
  | GroupCall.LocalMedia_dispose media :: rest => media :: disposalsByGroupCall rest
  | _ :: rest => disposalsByGroupCall rest
  end.

(** ** Sample inputs *)

Definition remote_D1_seen_from_D2 : Member.Member :=
  Member.new "@a" (mkDevice "D1" "S1") (Member.mkOptions "conf" "@a" "D2" "S2").

Definition remote_D2_seen_from_D1 : Member.Member :=
  Member.new "@a" (mkDevice "D2" "S2") (Member.mkOptions "conf" "@a" "D1" "S1").


(** A member of another user, seen by ("@b", "B1"): "@a" is less than "@b",
    so this side waits for an invite. *)
Definition alice_seen_from_bob : Member.Member :=
  Member.new "@a" (mkDevice "A1" "SA") (Member.mkOptions "conf" "@b" "B1" "SB").

(** The member for "@c", seen by ("@b", "B1"), connected on media 7 and
    holding the PeerCall this side made. *)
Definition carol_connected : Member.Member :=
  Member.mkMember "@c" (mkDevice "C1" "SC") (Member.mkOptions "conf" "@b" "B1" "SB")
    (Some (MadeId 0)) (Some 7) 0.

Definition ended_ice_failed : PeerCall :=
  mkPeerCall (MadeId 0) Ended (Some (OtherCallErrorCode "ice_failed")).

Definition ringing_call : PeerCall := mkPeerCall (WireId "c1") Ringing None.

Definition candidates_for_bob : SignallingMessage :=
  mkMessage 1 Candidates "c5" "SA" "SB".

Definition invite_for_bob : SignallingMessage :=
  mkMessage 2 Invite "c5" "SA" "SB".

(** An invite addressed to an earlier session "SB0" of ("@b", "B1"). *)
Definition stale_invite : SignallingMessage :=
  mkMessage 4 Invite "c3" "SA" "SB0".

Definition bob_options : GroupCall.Options := GroupCall.mkOptions "@b" "B1" "SB".

Definition ring_content : GroupCall.CallContent :=
  GroupCall.mkCallContent (Some GroupCall.Ring) (Some "m.video") None false.

(** A call announced by someone else, as ("@b", "B1") holds it before
    joining: no member yet. *)
Definition call_created : GroupCall.GroupCall :=
  GroupCall.new "conf" false ring_content "!room" bob_options.

(** The same call after candidates and an invite of ("@a", "A1") in session
    "SA", and candidates of an older session "S0", came in before the
    membership of that device. *)
Definition stale_candidates : SignallingMessage := mkMessage 3 Candidates "c4" "S0" "SB".

Definition call_with_early_messages : GroupCall.GroupCall :=
  fst (GroupCall.handleDeviceMessage
         (fst (GroupCall.handleDeviceMessage
                 (fst (GroupCall.handleDeviceMessage call_created candidates_for_bob "@a" "A1"))
                 stale_candidates "@a" "A1"))
         invite_for_bob "@a" "A1").

(** The [n]-th of a run of distinct candidates messages of ("@a", "A1"). *)
Definition early_message (n : nat) : SignallingMessage :=
  mkMessage n Candidates "c5" "SA" "SB".

(** [call_created] after the first [n] of them came in. *)
Fixpoint flooded (n : nat) : GroupCall.GroupCall :=
  match n with
  | 0 => call_created
  | S k => fst (GroupCall.handleDeviceMessage (flooded k) (early_message k) "@a" "A1")
  end.

(** [call_created] once ("@b", "B1") has joined it with media 7, nobody else
    being there. *)
Definition call_joining : GroupCall.GroupCall :=
  fst (GroupCall.join call_created 7 None 50).

(** Then the membership of ("@a", "A1") came with session "S1". *)
Definition call_with_alice : GroupCall.GroupCall :=
  fst (GroupCall.updateDeviceMembership call_joining "@a" "@a" (mkDevice "A1" "S1") 0 60).

(** The member made for ("@a", "A1"): connected on media 7 and waiting for
    the invite of the other side. *)
Definition alice_S1 : Member.Member :=
  Member.mkMember "@a" (mkDevice "A1" "S1") (Member.mkOptions "conf" "@b" "B1" "SB")
    None (Some 7) 0.

(** The content of the own member event that [join] sent for
    [call_joining]. *)
Definition join_payload : list GroupCall.CallInfo :=
  fst (GroupCall._createJoinPayload call_created None).

(** ** The life of a member

    The methods of [Member.ts] that change a member, as one type of
    operations, and runs of them: whatever order [GroupCall] and the
    PeerCalls call them in. *)

Module MemberRun.

Inductive Op : Type :=
| Connect (media : option LocalMedia) (newCallId : CallId)
| Disconnect (hangup : bool)
| UpdateCallInfo (device : CallDeviceMembership)
| EmitUpdate (peerCall : PeerCall) (newCallId : CallId)
| HandleDeviceMessage (message : SignallingMessage) (device : string)
| SetMedia (media : LocalMedia).

Definition apply (m : Member.Member) (op : Op) : Member.Member * list Member.Effect :=
  match op with
  | Connect media newCallId => Member.connect m media newCallId
  | Disconnect hangup => Member.disconnect m hangup
  | UpdateCallInfo device => (Member.updateCallInfo m device, [])
  | EmitUpdate peerCall newCallId => Member.emitUpdate m peerCall newCallId
  | HandleDeviceMessage message device => Member.handleDeviceMessage m message device
  | SetMedia media => Member.setMedia m media
  end.

(** The member after the run, and each operation with its effects. *)
Fixpoint run (m : Member.Member) (ops : list Op)
  : Member.Member * list (Op * list Member.Effect) :=
  match ops with
  | [] => (m, [])
  | op :: rest =>
      let '(m1, effs) := apply m op in
      let '(m2, trace) := run m1 rest in
      (m2, (op, effs) :: trace)
  end.

Definition isConnectLog (e : Member.Effect) : bool :=
  match e with
  | Member.Log_wrap label => String.eqb label "connect"
  | _ => false
  end.

(** An [emitUpdate] that ran [connect] again. *)
Definition isRetry (step : Op * list Member.Effect) : bool :=
  match fst step with
  | EmitUpdate _ _ => existsb isConnectLog (snd step)
  | _ => false
  end.

Definition retries (trace : list (Op * list Member.Effect)) : nat :=
  length (filter isRetry trace).

(** Whether an effect is a call into the PeerCall [c] that ends it. *)
Definition endsCall (c : CallId) (e : Member.Effect) : bool :=
  match e with
  | Member.PeerCall_hangup c' _ | Member.PeerCall_close c' | Member.PeerCall_dispose c' =>
      match c, c' with
      | MadeId n, MadeId n' => Nat.eqb n n'
      | WireId s, WireId s' => String.eqb s s'
      | _, _ => false
      end
  | _ => false
  end.

End MemberRun.

(** ** Outgoing signalling messages *)

Module Signalling.

(** The fields of [MGroupCallBase] that [sendSignallingMessage] writes into
    the content beside the two session ids. *)
Record GroupFields : Type := mkGroupFields {
  conf_id : string;
  content_device_id : string;
  party_id : string
}.

(** The call [hsApi.sendToDevice(message.type, payload, txnId)], whose
    payload is [{messages: {[userId]: {[deviceId]: content}}}]. *)
Record ToDeviceRequest : Type := mkRequest {
  request_type : EventType;
  to_userId : string;
  to_deviceId : string;
  content : SignallingMessage;
  group_fields : GroupFields
}.

(** [sendSignallingMessage(message, log)]: the request it makes. *)
Definition sendSignallingMessage (m : Member.Member) (message : SignallingMessage)
  : ToDeviceRequest :=
  let o := Member.options m in
  mkRequest (msg_type message) (Member.userId m) (Member.deviceId m)
    (mkMessage (msg_ref message) (msg_type message) (call_id message)
       (Member.sessionId o) (session_id (Member.callDeviceMembership m)))
    (mkGroupFields (Member.confId o) (Member.ownDeviceId o) (Member.ownDeviceId o)).

End Signalling.

(** ** Observations on the members of a call *)

(** Every member was made with the options of the call. *)
Definition membersOfCall (g : GroupCall.GroupCall) : Prop :=
  Forall (fun km => Member.options (snd km) = GroupCall.memberOptions g)
    (GroupCall._members g).

(** The part of a call that no operation writes: its id, its room and the
    own user, device and session. *)
Definition sameCall (g g' : GroupCall.GroupCall) : Prop :=
  GroupCall.id g' = GroupCall.id g
  /\ GroupCall.roomId g' = GroupCall.roomId g
  /\ GroupCall.options g' = GroupCall.options g.

(** The own device of the call. *)
Definition ownKey (g : GroupCall.GroupCall) : GroupCall.MemberKey :=
  GroupCall.getMemberKey (GroupCall.ownUserId (GroupCall.options g))
    (GroupCall.ownDeviceId (GroupCall.options g)).

(** Runs of the pieces of [GroupCall.Step]. *)
Inductive Steps : GroupCall.GroupCall -> GroupCall.GroupCall -> Prop :=
| Steps_refl g : Steps g g
| Steps_step g g1 g2 : Steps g g1 -> GroupCall.Step g1 g2 -> Steps g g2.

(** The member ("@a", "A1") in session "S1" holds for ("@b", "B1"), whose
    session it knows to be "SB". *)
Definition bob_seen_from_alice : Member.Member :=
  Member.new "@b" (mkDevice "B1" "SB") (Member.mkOptions "conf" "@a" "A1" "S1").

Definition answer_c0 : SignallingMessage := mkMessage 11 Answer "c0" "" "".

(** The messages a member handed to a PeerCall, in order. *)
Fixpoint memberForwarded (effs : list Member.Effect) : list SignallingMessage :=
  match effs with
  | [] => []
  | Member.PeerCall_handleIncomingSignallingMessage _ message _ :: rest =>
      message :: memberForwarded rest
  | _ :: rest => memberForwarded rest
  end.

(** The same, over the members of a call. *)
Fixpoint forwarded (effs : list GroupCall.Effect) : list SignallingMessage :=
  match effs with
  | [] => []
  | GroupCall.OnMember _ _ inner :: rest => memberForwarded inner ++ forwarded rest
  | _ :: rest => forwarded rest
  end.

(** The messages from the first Invite on. *)
Fixpoint fromFirstInvite (messages : list SignallingMessage) : list SignallingMessage :=
  match messages with
  | [] => []
  | message :: rest =>
      match msg_type message with
      | Invite => messages
      | _ => fromFirstInvite rest
      end
  end.

(** Whether a member of session [session] at a device whose own session is
    [ownSession] takes the message: it was sent in the member's session and
    is addressed to the own one. *)
Definition takenBy (session ownSession : string) (message : SignallingMessage) : bool :=
  forSession session message && String.eqb (dest_session_id message) ownSession.

Definition isJoinedData (g : GroupCall.GroupCall) : bool :=
  match GroupCall.joinedData g with Some _ => true | None => false end.

(** The lifecycle state and the joined data are the same. *)
Definition sameStage (g g' : GroupCall.GroupCall) : Prop :=
  GroupCall._state g' = GroupCall._state g
  /\ GroupCall.joinedData g' = GroupCall.joinedData g.

(** A call made here, before [create]. *)
Definition call_fledgling : GroupCall.GroupCall :=
  GroupCall.new "conf" true ring_content "!room" bob_options.

(** [call_with_alice] once the own member event came back from sync. *)
Definition call_joined : GroupCall.GroupCall :=
  fst (GroupCall.updateMembership call_with_alice "@b" "@b" [mkDevice "B1" "SB"] 70).

(** ** The member key as the string the source builds

    [GroupCall.MemberKey] above keeps the pair. Here is the string itself,
    with [JSON.stringify] and [JSON.parse] on strings as ECMAScript defines
    them, for strings of code units below 256. *)

Module JSON.
Local Open Scope nat_scope.

Definition quote : ascii := ascii_of_nat 34.
Definition backslash : ascii := ascii_of_nat 92.

Definition hexDigit (n : nat) : ascii :=
  if n <? 10 then ascii_of_nat (48 + n) else ascii_of_nat (87 + n).

(** [UnicodeEscape]: a backslash, [u] and four lowercase hexadecimal digits. *)
Definition unicodeEscape (n : nat) : string :=
  String backslash
    (String "u"
       (String (hexDigit (n / 4096))
          (String (hexDigit ((n / 256) mod 16))
             (String (hexDigit ((n / 16) mod 16))
                (String (hexDigit (n mod 16)) EmptyString))))).

(** One code unit in [QuoteJSONString]. *)
Definition quoteChar (c : ascii) : string :=
  let n := nat_of_ascii c in
  if n =? 8 then String backslash "b"
  else if n =? 9 then String backslash "t"
  else if n =? 10 then String backslash "n"
  else if n =? 12 then String backslash "f"
  else if n =? 13 then String backslash "r"
  else if n =? 34 then String backslash (String quote EmptyString)
  else if n =? 92 then String backslash (String backslash EmptyString)
  else if n <? 32 then unicodeEscape n
  else String c EmptyString.

Fixpoint quoteChars (s : string) : string :=
  match s with
  | EmptyString => EmptyString
  | String c rest => quoteChar c ++ quoteChars rest
  end.

(** [JSON.stringify] on a string. *)
Definition stringify (s : string) : string :=
  String quote (quoteChars s ++ String quote EmptyString).

Definition hexValue (c : ascii) : option nat :=
  let n := nat_of_ascii c in
  if (48 <=? n) && (n <=? 57) then Some (n - 48)
  else if (97 <=? n) && (n <=? 102) then Some (n - 87)
  else if (65 <=? n) && (n <=? 70) then Some (n - 55)
  else None.

(** The character a one-letter escape of [JSONEscapeSequence] stands for. *)
Definition unescape (c : ascii) : option ascii :=
  let n := nat_of_ascii c in
  if n =? 34 then Some quote
  else if n =? 47 then Some c
  else if n =? 92 then Some backslash
  else if n =? 98 then Some (ascii_of_nat 8)
  else if n =? 102 then Some (ascii_of_nat 12)
  else if n =? 110 then Some (ascii_of_nat 10)
  else if n =? 114 then Some (ascii_of_nat 13)
  else if n =? 116 then Some (ascii_of_nat 9)
  else None.

Definition consResult (c : ascii) (r : option (string * string)) : option (string * string) :=
  match r with
  | Some (value, rest) => Some (String c value, rest)
  | None => None
  end.

(** The characters of a [JSONString] after its opening quote: the value and
    what follows the closing quote; [None] for a syntax error or a code
    unit above 255. *)
Fixpoint parseChars (s : string) : option (string * string) :=
  match s with
  | EmptyString => None
  | String c rest =>
      let n := nat_of_ascii c in
      if n =? 34 then Some (EmptyString, rest)
      else if n =? 92 then
        match rest with
        | String e rest1 =>
            if nat_of_ascii e =? 117 then
              match rest1 with
              | String h1 (String h2 (String h3 (String h4 rest2))) =>
                  match hexValue h1, hexValue h2, hexValue h3, hexValue h4 with
                  | Some d1, Some d2, Some d3, Some d4 =>
                      let v := ((d1 * 16 + d2) * 16 + d3) * 16 + d4 in
                      if v <? 256 then consResult (ascii_of_nat v) (parseChars rest2)
                      else None
                  | _, _, _, _ => None
                  end
              | _ => None
              end
            else
              match unescape e with
              | Some c' => consResult c' (parseChars rest1)
              | None => None
              end
        | EmptyString => None
        end
      else if n <? 32 then None
      else consResult c (parseChars rest)
  end.

Definition isWhitespace (c : ascii) : bool :=
  let n := nat_of_ascii c in
  (n =? 32) || (n =? 9) || (n =? 10) || (n =? 13).

Fixpoint skipWhitespace (s : string) : string :=
  match s with
  | EmptyString => EmptyString
  | String c rest => if isWhitespace c then skipWhitespace rest else s
  end.

(** The elements of an array of strings after [[] or a comma; every element
    takes two characters at least, so the length of the text is fuel
    enough. *)
Fixpoint parseElements (fuel : nat) (s : string) : option (list string) :=
  match fuel with
  | 0 => None
  | S fuel' =>
      match skipWhitespace s with
      | String c rest =>
          if nat_of_ascii c =? 34 then
            match parseChars rest with
            | Some (value, rest1) =>
                match skipWhitespace rest1 with
                | String d rest2 =>
                    if nat_of_ascii d =? 44 then
                      option_map (cons value) (parseElements fuel' rest2)
                    else if nat_of_ascii d =? 93 then
                      match skipWhitespace rest2 with
                      | EmptyString => Some [value]
                      | String _ _ => None
                      end
                    else None
                | EmptyString => None
                end
            | None => None
            end
          else None
      | EmptyString => None
      end
  end.

(** [JSON.parse] on the text of an array of strings; [None] when
    [JSON.parse] throws, and for any other JSON value. *)
Definition parseStringArray (s : string) : option (list string) :=
  match skipWhitespace s with
  | String c rest =>
      if nat_of_ascii c =? 91 then
        match skipWhitespace rest with
        | String d rest1 =>
            if nat_of_ascii d =? 93 then
              match skipWhitespace rest1 with
              | EmptyString => Some []
              | String _ _ => None
              end
            else parseElements (String.length rest) rest
        | EmptyString => None
        end
      else None
  | EmptyString => None
  end.

End JSON.

Module MemberKeyString.

Definition getMemberKey (userId deviceId : string) : string :=
  JSON.stringify userId ++ "," ++ JSON.stringify deviceId.

(** [key.startsWith(JSON.stringify(userId) + ",")]. *)
Definition memberKeyIsForUser (key userId : string) : bool :=
  String.prefix (JSON.stringify userId ++ ",") key.

(** [JSON.parse(`[${key}]`)[1]], [None] when it throws or is [undefined]. *)
Definition getDeviceFromMemberKey (key : string) : option string :=
  match JSON.parseStringArray ("[" ++ key ++ "]") with
  | Some elements => nth_error elements 1
  | None => None
  end.

End MemberKeyString.

(** [carol_connected] after [connect] ran once more on it, which put the
    PeerCall 1 in place of 0 without ending 0. *)
Definition carol_reconnected : Member.Member :=
  fst (Member.connect carol_connected (Some 7) (MadeId 1)).

(** ** Runs of a call, piece by piece

    The pieces of [GroupCall.Step] as a type of operations, so that a run
    can be written down and tell which pieces it is made of. *)

Module GroupCallRun.

Inductive Op : Type :=
| Create_start (type : string)
| Create_finish
| UpdateCallEvent (content : GroupCall.CallContent)
| Join_install (media : LocalMedia)
| Join_sendState (stored : option (list GroupCall.CallInfo)) (now : nat)
| Join_connect (joinedData : GroupCall.JoinedData)
| SetMedia (media : LocalMedia)
| Disconnect
| UpdateMembership (userId : string) (devices : list CallDeviceMembership)
    (eventTimestamp : nat)
| RemoveMembership (userId : string)
| HandleDeviceMessage (message : SignallingMessage) (userId deviceId : string)
| Member_emitUpdate (key : GroupCall.MemberKey) (peerCall : PeerCall) (newCallId : CallId).

(** The call after the piece and what the call did. [Member_emitUpdate] is
    the PeerCall of the member under [key] calling that member's
    [emitUpdate]: the call itself does nothing then. *)
Definition apply (g : GroupCall.GroupCall) (op : Op)
  : GroupCall.GroupCall * list GroupCall.Effect :=
  match op with
  | Create_start type => GroupCall.create_start g type
  | Create_finish => GroupCall.create_finish g
  | UpdateCallEvent content => GroupCall.updateCallEvent g content
  | Join_install media => GroupCall.join_install g media
  | Join_sendState stored now => GroupCall.join_sendState g stored now
  | Join_connect joinedData => GroupCall.join_connect g joinedData
  | SetMedia media => GroupCall.setMedia g media
  | Disconnect => GroupCall.disconnect g
  | UpdateMembership userId devices eventTimestamp =>
      GroupCall.updateMembership g userId userId devices eventTimestamp
  | RemoveMembership userId => GroupCall.removeMembership g userId
  | HandleDeviceMessage message userId deviceId =>
      GroupCall.handleDeviceMessage g message userId deviceId
  | Member_emitUpdate key peerCall newCallId =>
      match GroupCall.getMember g key with
      | Some member =>
          (GroupCall.storeMember g key (fst (Member.emitUpdate member peerCall newCallId)),
           [])
      | None => (g, [])
      end
  end.

Fixpoint run (g : GroupCall.GroupCall) (ops : list Op)
  : GroupCall.GroupCall * list GroupCall.Effect :=
  match ops with
  | [] => (g, [])
  | op :: rest =>
      let '(g1, effs1) := apply g op in
      let '(g2, effs2) := run g1 rest in
      (g2, effs1 ++ effs2)
  end.



End GroupCallRun.





(** [call_with_alice] after [leave()] was called before the own member
    event came back from sync: the state is still Joining and the joined
    data is gone. *)
Definition call_left_while_joining : GroupCall.GroupCall :=
  fst (GroupCall.leave call_with_alice None).

(** [call_left_while_joining] once the own member event, sent by [join],
    has come back from sync: the state is Joined and there is no joined
    data. *)
Definition call_joined_without_data : GroupCall.GroupCall :=
  fst (GroupCall.updateMembership call_left_while_joining "@b" "@b"
         [mkDevice "B1" "SB"] 90).

(** The pieces of two calls of [join], the second made before the TURN
    settings of the first have come: both have passed the guard, and each
    piece of the first runs before the same piece of the second. *)
Definition joinedTwice (first second : LocalMedia)
    (stored stored' : option (list GroupCall.CallInfo)) (now now' : nat)
  : list GroupCallRun.Op :=
  [GroupCallRun.Join_install first;
   GroupCallRun.Join_install second;
   GroupCallRun.Join_sendState stored now;
   GroupCallRun.Join_sendState stored' now';
   GroupCallRun.Join_connect (GroupCall.mkJoinedData first);
   GroupCallRun.Join_connect (GroupCall.mkJoinedData second)].
(** ** Strings *)

Lemma ltb_str_lt (a b : string) : String.ltb a b = true <-> str_lt a b.
Proof.
  unfold String.ltb, str_lt.
  destruct (String.compare a b); split; intro H; try reflexivity; discriminate H.
Qed.

Lemma str_lt_irrefl (a : string) : ~ str_lt a a.
Proof.
  unfold str_lt. intro H.
  pose proof (String.compare_antisym a a) as A.
  rewrite H in A. discriminate A.
Qed.

(** ** Member: initiator selection *)

Lemma shouldInitiateCall_same_user (m : Member.Member) :
  Member.userId m = Member.ownUserId (Member.options m) ->
  (Member.shouldInitiateCall m = true
   <-> str_lt (Member.ownDeviceId (Member.options m)) (Member.deviceId m)).
Proof.
  intro E. unfold Member.shouldInitiateCall, js_gt.
  apply String.eqb_eq in E. rewrite E. apply ltb_str_lt.
Qed.

Lemma shouldInitiateCall_other_user (m : Member.Member) :
  Member.userId m <> Member.ownUserId (Member.options m) ->
  (Member.shouldInitiateCall m = true
   <-> str_lt (Member.ownUserId (Member.options m)) (Member.userId m)).
Proof.
  intro N. unfold Member.shouldInitiateCall, js_gt.
  apply String.eqb_neq in N. rewrite N. apply ltb_str_lt.
Qed.

Lemma shouldInitiateCall_key_lt (m : Member.Member) :
  Member.shouldInitiateCall m = true
  <-> key_lt (Member.ownUserId (Member.options m), Member.ownDeviceId (Member.options m))
             (Member.userId m, Member.deviceId m).
Proof.
  unfold key_lt; simpl.
  destruct (string_dec (Member.userId m) (Member.ownUserId (Member.options m))) as [E | N].
  - rewrite (shouldInitiateCall_same_user m E). split.
    + intro H. right. split; [symmetry; exact E | exact H].
    + intros [H | [_ H]]; [| exact H].
      rewrite E in H. exfalso. exact (str_lt_irrefl _ H).
  - rewrite (shouldInitiateCall_other_user m N). split.
    + intro H. left. exact H.
    + intros [H | [E _]]; [exact H |]. exfalso. apply N. symmetry. exact E.
Qed.

(** C1, as the code has it: [connect] makes this side the initiator exactly
    when our own [(user_id, device_id)] is lexicographically less than the
    remote one: for the same user when our [device_id] is less than the
    remote [device_id], otherwise when our [user_id] is less than the remote
    [user_id]. The initiating side creates a PeerCall with a fresh id and
    calls it with the media; the other side creates no PeerCall and keeps
    the one it may hold. *)
Theorem connect_initiator_is_lesser_side
    (m : Member.Member) (media : option LocalMedia) (newCallId : CallId) :
  let own := (Member.ownUserId (Member.options m), Member.ownDeviceId (Member.options m)) in
  let remote := (Member.userId m, Member.deviceId m) in
  let after := Member.connect m media newCallId in
  (Member.shouldInitiateCall m = true <-> key_lt own remote)
  /\ (fst remote = fst own ->
      (Member.shouldInitiateCall m = true <-> str_lt (snd own) (snd remote)))
  /\ (fst remote <> fst own ->
      (Member.shouldInitiateCall m = true <-> str_lt (fst own) (fst remote)))
  /\ (Member.shouldInitiateCall m = true ->
      Member.peerCall (fst after) = Some newCallId
      /\ snd after = [Member.Log_wrap "connect"; Member.PeerCall_new newCallId;
                      Member.PeerCall_call newCallId media])
  /\ (Member.shouldInitiateCall m = false ->
      Member.peerCall (fst after) = Member.peerCall m
      /\ snd after = [Member.Log_wrap "connect"]).
Proof.
  cbv zeta. simpl fst. simpl snd.
  split; [apply shouldInitiateCall_key_lt |].
  split; [apply shouldInitiateCall_same_user |].
  split; [apply shouldInitiateCall_other_user |].
  unfold Member.connect.
  change (Member.shouldInitiateCall (Member.set_localMedia m media))
    with (Member.shouldInitiateCall m).
  split; intro H; rewrite H; split; reflexivity.
Qed.

(** C1, witness: seen from device D1 of "@a", the member for device D2 of
    the same user is called by this side. *)
Lemma connect_initiator_is_lesser_side_witness :
  Member.peerCall (fst (Member.connect remote_D2_seen_from_D1 (Some 7) (MadeId 0)))
    = Some (MadeId 0)
  /\ snd (Member.connect remote_D2_seen_from_D1 (Some 7) (MadeId 0))
     = [Member.Log_wrap "connect"; Member.PeerCall_new (MadeId 0);
        Member.PeerCall_call (MadeId 0) (Some 7)].
Proof.
  apply (connect_initiator_is_lesser_side remote_D2_seen_from_D1 (Some 7) (MadeId 0)).
  reflexivity.
Defined.

(** C1, as stated, fails: with own ("@a", "D2") and remote ("@a", "D1") the
    remote pair is the lesser one, and this side does not initiate. *)
Lemma connect_initiator_greater_side_fails :
  ~ (forall m : Member.Member,
       Member.shouldInitiateCall m = true
       <-> key_lt (Member.userId m, Member.deviceId m)
                  (Member.ownUserId (Member.options m), Member.ownDeviceId (Member.options m))).
Proof.
  intro H.
  destruct (H remote_D1_seen_from_D2) as [_ H'].
  assert (F : Member.shouldInitiateCall remote_D1_seen_from_D2 = true).
  { apply H'. right. split; reflexivity. }
  vm_compute in F. discriminate F.
Qed.

(** ** Member: retries *)

Lemma includes_In (l : list CallErrorCode) (x : CallErrorCode) :
  Member.includes l x = true <-> In x l.
Proof.
  unfold Member.includes. rewrite existsb_exists. split.
  - intros [y [Hy E]].
    destruct (CallErrorCode_eq_dec x y) as [-> | _]; [exact Hy | discriminate E].
  - intro H. exists x. split; [exact H |].
    destruct (CallErrorCode_eq_dec x x) as [_ | N]; [reflexivity | contradiction].
Qed.

Lemma connect_logs (m : Member.Member) (media : option LocalMedia) (c : CallId) :
  In (Member.Log_wrap "connect") (snd (Member.connect m media c)).
Proof.
  unfold Member.connect.
  destruct (Member.shouldInitiateCall _); simpl; left; reflexivity.
Qed.

Lemma connect_keeps_identity (m : Member.Member) (media : option LocalMedia) (c : CallId) :
  Member.userId (fst (Member.connect m media c)) = Member.userId m
  /\ Member.callDeviceMembership (fst (Member.connect m media c)) = Member.callDeviceMembership m
  /\ Member.options (fst (Member.connect m media c)) = Member.options m
  /\ Member.retryCount (fst (Member.connect m media c)) = Member.retryCount m
  /\ Member.localMedia (fst (Member.connect m media c)) = media.
Proof.
  unfold Member.connect.
  destruct (Member.shouldInitiateCall _); simpl; repeat split; reflexivity.
Qed.

(** C2: when the PeerCall handed to [emitUpdate] has ended with a hangup
    reason, [connect] is run again exactly when the reason is not one of
    UserHangup, AnsweredElsewhere, Replaced, UserBusy, Transfered, NewSession
    and the retry count, incremented first, is at most 3. It then runs on
    the member with the incremented count and no PeerCall. For a reason of
    that list nothing is counted and nothing is connected; past 3 the count
    still goes up and nothing is connected. *)
Theorem emitUpdate_retries_retryable_hangup
    (m : Member.Member) (pc : PeerCall) (reason : CallErrorCode) (newCallId : CallId) :
  state pc = Ended ->
  hangupReason pc = Some reason ->
  let after := Member.emitUpdate m pc newCallId in
  let counted :=
    Member.set_retryCount (Member.set_peerCall m None) (Member.retryCount m + 1) in
  let reported := Member.Options_emitUpdate (Member.userId m) (Member.deviceId m) in
  (In (Member.Log_wrap "connect") (snd after)
   <-> ~ In reason Member.errorCodesWithoutRetry /\ Member.retryCount m + 1 <= 3)
  /\ (~ In reason Member.errorCodesWithoutRetry -> Member.retryCount m + 1 <= 3 ->
      fst after = fst (Member.connect counted (Member.localMedia m) newCallId)
      /\ snd after = Member.PeerCall_dispose (callId pc)
                     :: snd (Member.connect counted (Member.localMedia m) newCallId)
                     ++ [reported])
  /\ (~ In reason Member.errorCodesWithoutRetry -> 3 < Member.retryCount m + 1 ->
      fst after = counted
      /\ snd after = [Member.PeerCall_dispose (callId pc); reported])
  /\ (In reason Member.errorCodesWithoutRetry ->
      fst after = Member.set_peerCall m None
      /\ snd after = [Member.PeerCall_dispose (callId pc); reported]).
Proof.
  intros Hs Hr. cbv zeta.
  unfold Member.emitUpdate, Member.retryAfterEnded. rewrite Hs, Hr.
  destruct (Member.includes Member.errorCodesWithoutRetry reason) eqn:Inc.
  - (* a reason without retry *)
    apply includes_In in Inc. simpl.
    split; [| split; [| split]].
    + split.
      * intros [F | [F | []]]; discriminate F.
      * intros [N _]. contradiction.
    + intros N. contradiction.
    + intros N. contradiction.
    + intros _. split; reflexivity.
  - assert (N : ~ In reason Member.errorCodesWithoutRetry).
    { intro H. apply includes_In in H. rewrite H in Inc. discriminate Inc. }
    cbn [negb].
    change (Member.retryCount
              (Member.set_retryCount (Member.set_peerCall m None)
                 (Member.retryCount (Member.set_peerCall m None) + 1)))
      with (Member.retryCount m + 1).
    change (Member.retryCount (Member.set_peerCall m None)) with (Member.retryCount m).
    change (Member.localMedia
              (Member.set_retryCount (Member.set_peerCall m None) (Member.retryCount m + 1)))
      with (Member.localMedia m).
    destruct (Nat.leb_spec (Member.retryCount m + 1) 3) as [Le | Gt].
    + (* retried *)
      set (counted := Member.set_retryCount (Member.set_peerCall m None)
                        (Member.retryCount m + 1)).
      pose proof (connect_keeps_identity counted (Member.localMedia m) newCallId)
        as (Eu & Ed & _).
      pose proof (connect_logs counted (Member.localMedia m) newCallId) as Lg.
      destruct (Member.connect counted (Member.localMedia m) newCallId) as [m' effs].
      simpl in *. unfold Member.deviceId. rewrite Eu, Ed.
      split; [| split; [| split]].
      * split; [intros _; split; assumption |].
        intros _. right. apply in_or_app. left. exact Lg.
      * intros _ _. split; reflexivity.
      * intros _ Gt. lia.
      * intro H. contradiction.
    + (* retries used up *)
      simpl.
      split; [| split; [| split]].
      * split.
        -- intros [F | [F | []]]; discriminate F.
        -- intros [_ Le]. lia.
      * intros _ Le. lia.
      * intros _ _. split; reflexivity.
      * intro H. contradiction.
Qed.

(** C2, witness: a member with no retry so far whose call ended with
    "ice_failed" counts one retry and runs [connect] again. *)
Lemma emitUpdate_retries_retryable_hangup_witness :
  In (Member.Log_wrap "connect")
     (snd (Member.emitUpdate carol_connected ended_ice_failed (MadeId 1)))
  <-> ~ In (OtherCallErrorCode "ice_failed") Member.errorCodesWithoutRetry
      /\ Member.retryCount carol_connected + 1 <= 3.
Proof.
  apply (emitUpdate_retries_retryable_hangup carol_connected ended_ice_failed
           (OtherCallErrorCode "ice_failed") (MadeId 1)); reflexivity.
Defined.

(** ** Member: answering and incoming messages *)

(** C9: an update of a PeerCall in state Ringing makes the member call
    [answer] on it with the local media the member holds at that moment,
    and nothing else but report the update; the member is unchanged. No
    argument of [emitUpdate] stands for a decision of the user. An Invite
    for a member without PeerCall creates the PeerCall and hands it the
    Invite, so the Ringing update that PeerCall emits is answered. *)
Theorem emitUpdate_answers_ringing
    (m : Member.Member) (pc : PeerCall) (newCallId : CallId) :
  state pc = Ringing ->
  Member.emitUpdate m pc newCallId
  = (m, [Member.PeerCall_answer (callId pc) (Member.localMedia m);
         Member.Options_emitUpdate (Member.userId m) (Member.deviceId m)])
  /\ forall invite device,
       msg_type invite = Invite ->
       dest_session_id invite = Member.sessionId (Member.options m) ->
       Member.peerCall m = None ->
       callId pc = WireId (call_id invite) ->
       let '(m1, effs1) := Member.handleDeviceMessage m invite device in
       effs1 = [Member.SyncLog_refDetached;
                Member.PeerCall_new (callId pc);
                Member.PeerCall_handleIncomingSignallingMessage (callId pc) invite device]
       /\ Member.peerCall m1 = Some (callId pc)
       /\ snd (Member.emitUpdate m1 pc newCallId)
          = [Member.PeerCall_answer (callId pc) (Member.localMedia m);
             Member.Options_emitUpdate (Member.userId m) (Member.deviceId m)].
Proof.
  intro Hs. split.
  - unfold Member.emitUpdate. rewrite Hs. reflexivity.
  - intros invite device Ht Hd Hp Hc.
    unfold Member.handleDeviceMessage.
    apply String.eqb_eq in Hd. rewrite Hd, Ht, Hp. cbn.
    unfold Member.emitUpdate. rewrite Hs, Hc. cbn.
    repeat split.
Qed.

(** C9, witness: a ringing call of a connected member is answered with the
    member's media 7. *)
Lemma emitUpdate_answers_ringing_witness :
  Member.emitUpdate carol_connected ringing_call (MadeId 1)
  = (carol_connected,
     [Member.PeerCall_answer (WireId "c1") (Some 7); Member.Options_emitUpdate "@c" "C1"]).
Proof.
  apply (emitUpdate_answers_ringing carol_connected ringing_call (MadeId 1)).
  reflexivity.
Defined.

Lemma handleDeviceMessage_creates_only_on_invite
    (m : Member.Member) (message : SignallingMessage) (device : string) :
  Member.peerCall m = None ->
  Member.peerCall (fst (Member.handleDeviceMessage m message device)) <> None ->
  msg_type message = Invite.
Proof.
  intros Hp. unfold Member.handleDeviceMessage.
  destruct (negb _); [simpl; intro H; contradiction |].
  rewrite Hp.
  destruct (msg_type message); simpl; rewrite ?Hp; simpl; intro H;
    try reflexivity; contradiction.
Qed.

(** C10: a message for our session that is not an Invite, handed to a
    member without PeerCall, changes nothing and reaches no PeerCall: the
    member is as before (it has no buffer), so whatever follows runs as if
    the message had never come. In particular an Invite that comes later
    creates the PeerCall and hands it the Invite alone. A message handed to
    a member without PeerCall leaves it with one only if it is an Invite. *)
Theorem handleDeviceMessage_drops_before_invite
    (m : Member.Member) (message : SignallingMessage) (device : string) :
  dest_session_id message = Member.sessionId (Member.options m) ->
  Member.peerCall m = None ->
  msg_type message <> Invite ->
  Member.handleDeviceMessage m message device = (m, [Member.SyncLog_refDetached])
  /\ (forall invite device',
        msg_type invite = Invite ->
        dest_session_id invite = Member.sessionId (Member.options m) ->
        let m1 := fst (Member.handleDeviceMessage m message device) in
        Member.handleDeviceMessage m1 invite device'
        = (Member.set_peerCall m (Some (WireId (call_id invite))),
           [Member.SyncLog_refDetached;
            Member.PeerCall_new (WireId (call_id invite));
            Member.PeerCall_handleIncomingSignallingMessage
              (WireId (call_id invite)) invite device']))
  /\ (forall other device',
        Member.peerCall (fst (Member.handleDeviceMessage m other device')) <> None ->
        msg_type other = Invite).
Proof.
  intros Hd Hp Ht.
  assert (E : Member.handleDeviceMessage m message device
              = (m, [Member.SyncLog_refDetached])).
  { unfold Member.handleDeviceMessage.
    apply String.eqb_eq in Hd. rewrite Hd, Hp. cbn.
    destruct (msg_type message); try (cbn; rewrite Hp; reflexivity).
    exfalso. apply Ht. reflexivity. }
  split; [exact E |]. split.
  - intros invite device' Hi Hdi. rewrite E. cbn.
    unfold Member.handleDeviceMessage.
    apply String.eqb_eq in Hdi. rewrite Hdi, Hi, Hp. reflexivity.
  - intros other device'. apply handleDeviceMessage_creates_only_on_invite. exact Hp.
Qed.

(** C10, witness: candidates that reach a member without PeerCall before
    the invite are dropped. *)
Lemma handleDeviceMessage_drops_before_invite_witness :
  Member.handleDeviceMessage alice_seen_from_bob candidates_for_bob "A1"
  = (alice_seen_from_bob, [Member.SyncLog_refDetached]).
Proof.
  apply (handleDeviceMessage_drops_before_invite alice_seen_from_bob candidates_for_bob "A1").
  - reflexivity.
  - reflexivity.
  - discriminate.
Defined.

Lemma ltb_negb (a b : string) : a <> b -> String.ltb a b = negb (String.ltb b a).
Proof.
  intro N. unfold String.ltb. rewrite (String.compare_antisym b a).
  destruct (String.compare a b) eqn:C; try reflexivity.
  apply String.compare_eq_iff in C. contradiction.
Qed.

(** Seen from the two ends of a leg, exactly one side computes itself the
    initiator, whatever the two distinct [(user_id, device_id)] pairs. *)
Theorem exactly_one_side_initiates (conf u1 d1 s1 u2 d2 s2 : string) :
  (u1, d1) <> (u2, d2) ->
  Member.shouldInitiateCall
    (Member.new u2 (mkDevice d2 s2) (Member.mkOptions conf u1 d1 s1))
  = negb (Member.shouldInitiateCall
            (Member.new u1 (mkDevice d1 s1) (Member.mkOptions conf u2 d2 s2))).
Proof.
  intro N. unfold Member.shouldInitiateCall, js_gt, Member.deviceId. simpl.
  rewrite (String.eqb_sym u1 u2).
  destruct (String.eqb u2 u1) eqn:E.
  - apply String.eqb_eq in E. subst u2.
    apply ltb_negb. intro H. apply N. rewrite H. reflexivity.
  - apply String.eqb_neq in E. apply ltb_negb. intro H. apply E. symmetry. exact H.
Qed.

(** Devices D1 and D2 of "@a": the side of D1 initiates, that of D2 does
    not. *)
Lemma exactly_one_side_initiates_witness :
  Member.shouldInitiateCall remote_D2_seen_from_D1
  = negb (Member.shouldInitiateCall remote_D1_seen_from_D2).
Proof.
  apply (exactly_one_side_initiates "conf" "@a" "D1" "S1" "@a" "D2" "S2").
  discriminate.
Defined.

(** A message whose [dest_session_id] is not our session id is not handed
    to any PeerCall and leaves the member as it is; that it is ignored is
    logged. *)
Theorem handleDeviceMessage_ignores_other_session
    (m : Member.Member) (message : SignallingMessage) (device : string) :
  dest_session_id message <> Member.sessionId (Member.options m) ->
  Member.handleDeviceMessage m message device
  = (m, [Member.SyncLog_refDetached;
         Member.Log_wrongSessionId (dest_session_id message) (msg_type message)]).
Proof.
  intro N. unfold Member.handleDeviceMessage.
  apply String.eqb_neq in N. rewrite N. reflexivity.
Qed.

(** An invite for the earlier session "SB0" is ignored by a member whose
    options carry the session "SB". *)
Lemma handleDeviceMessage_ignores_other_session_witness :
  Member.handleDeviceMessage alice_seen_from_bob stale_invite "A1"
  = (alice_seen_from_bob,
     [Member.SyncLog_refDetached; Member.Log_wrongSessionId "SB0" Invite]).
Proof.
  apply (handleDeviceMessage_ignores_other_session alice_seen_from_bob stale_invite "A1").
  discriminate.
Defined.

(** ** Maps and sets *)

Section JsMapFacts.
Context {K V : Type} (eqb : K -> K -> bool).
Hypothesis eqb_eq : forall a b, eqb a b = true <-> a = b.

Lemma JsMap_eqb_refl (k : K) : eqb k k = true.
Proof. apply eqb_eq. reflexivity. Qed.

Lemma JsMap_eqb_neq (a b : K) : a <> b -> eqb a b = false.
Proof.
  intro N. destruct (eqb a b) eqn:E; [| reflexivity].
  apply eqb_eq in E. contradiction.
Qed.

Lemma JsMap_get_set_same (m : list (K * V)) (k : K) (v : V) :
  JsMap.get eqb (JsMap.set eqb m k v) k = Some v.
Proof.
  induction m as [| [k' v'] rest IH]; simpl.
  - rewrite JsMap_eqb_refl. reflexivity.
  - destruct (eqb k k') eqn:E; simpl; rewrite E; [reflexivity | exact IH].
Qed.

Lemma JsMap_get_set_other (m : list (K * V)) (k k' : K) (v : V) :
  k' <> k -> JsMap.get eqb (JsMap.set eqb m k v) k' = JsMap.get eqb m k'.
Proof.
  intro N. induction m as [| [k0 v0] rest IH]; simpl.
  - rewrite (JsMap_eqb_neq _ _ N). reflexivity.
  - destruct (eqb k k0) eqn:E; simpl.
    + apply eqb_eq in E. subst k0. rewrite (JsMap_eqb_neq _ _ N). reflexivity.
    + rewrite IH. reflexivity.
Qed.

Lemma JsMap_get_delete_same (m : list (K * V)) (k : K) :
  JsMap.get eqb (JsMap.delete eqb m k) k = None.
Proof.
  induction m as [| [k' v'] rest IH]; simpl; [reflexivity |].
  destruct (eqb k k') eqn:E; simpl; [exact IH |].
  rewrite E. exact IH.
Qed.

Lemma JsMap_get_delete_other (m : list (K * V)) (k k' : K) :
  k' <> k -> JsMap.get eqb (JsMap.delete eqb m k) k' = JsMap.get eqb m k'.
Proof.
  intro N. induction m as [| [k0 v0] rest IH]; simpl; [reflexivity |].
  destruct (eqb k k0) eqn:E; simpl.
  - apply eqb_eq in E. subst k0. rewrite (JsMap_eqb_neq _ _ N). exact IH.
  - rewrite IH. reflexivity.
Qed.

Lemma JsMap_get_app_absent (m : list (K * V)) (k : K) (v : V) :
  JsMap.get eqb m k = None -> JsMap.get eqb (m ++ [(k, v)]) k = Some v.
Proof.
  induction m as [| [k' v'] rest IH]; simpl; intro H.
  - rewrite JsMap_eqb_refl. reflexivity.
  - destruct (eqb k k'); [discriminate H | exact (IH H)].
Qed.

End JsMapFacts.

Lemma MemberKey_eqb_eq (a b : GroupCall.MemberKey) :
  GroupCall.MemberKey_eqb a b = true <-> a = b.
Proof.
  destruct a as [u d], b as [u' d']. unfold GroupCall.MemberKey_eqb. simpl.
  rewrite andb_true_iff, !String.eqb_eq. split.
  - intros [-> ->]. reflexivity.
  - intro E. inversion E. split; reflexivity.
Qed.

Lemma JsSet_add_keeps {A : Type} (eq_dec : forall a b : A, {a = b} + {a <> b})
    (s : list A) (x : A) :
  exists tail, JsSet.add eq_dec s x = s ++ tail
               /\ (tail = [] \/ tail = [x]).
Proof.
  unfold JsSet.add, JsSet.has. destruct (in_dec eq_dec x s).
  - exists []. rewrite app_nil_r. split; [reflexivity | left; reflexivity].
  - exists [x]. split; [reflexivity | right; reflexivity].
Qed.

Lemma JsSet_add_fresh {A : Type} (eq_dec : forall a b : A, {a = b} + {a <> b})
    (s : list A) (x : A) :
  ~ In x s -> JsSet.add eq_dec s x = s ++ [x].
Proof.
  intro N. unfold JsSet.add, JsSet.has.
  destruct (in_dec eq_dec x s); [contradiction | reflexivity].
Qed.

Lemma JsSet_add_NoDup {A : Type} (eq_dec : forall a b : A, {a = b} + {a <> b})
    (s : list A) (x : A) :
  NoDup s -> NoDup (JsSet.add eq_dec s x).
Proof.
  intro H. unfold JsSet.add, JsSet.has.
  destruct (in_dec eq_dec x s) as [I | N]; [exact H |].
  apply NoDup_app; [exact H | constructor; [intros [] | constructor] |].
  intros a Ha [<- | []]. contradiction.
Qed.

(** ** GroupCall: flushing the buffer *)

Lemma handleDeviceMessage_keeps_identity
    (m : Member.Member) (message : SignallingMessage) (device : string) :
  let m' := fst (Member.handleDeviceMessage m message device) in
  Member.userId m' = Member.userId m
  /\ Member.callDeviceMembership m' = Member.callDeviceMembership m
  /\ Member.options m' = Member.options m
  /\ Member.retryCount m' = Member.retryCount m
  /\ Member.localMedia m' = Member.localMedia m.
Proof.
  cbv zeta. unfold Member.handleDeviceMessage.
  destruct (negb _); [simpl; repeat split |].
  destruct (msg_type message), (Member.peerCall m) eqn:P;
    simpl; rewrite ?P; simpl; repeat split.
Qed.

Lemma handleDeviceMessage_disposes_nothing
    (m : Member.Member) (message : SignallingMessage) (device : string) :
  memberDisposals (snd (Member.handleDeviceMessage m message device)) = [].
Proof.
  unfold Member.handleDeviceMessage.
  destruct (negb _); [reflexivity |].
  destruct (msg_type message), (Member.peerCall m) eqn:P;
    simpl; rewrite ?P; reflexivity.
Qed.

Lemma deliveries_app (key : GroupCall.MemberKey) (a b : list GroupCall.Effect) :
  deliveries key (a ++ b) = deliveries key a ++ deliveries key b.
Proof.
  induction a as [| e a IH]; simpl; [reflexivity |].
  destruct e as [k c inner | | | | | | |]; try exact IH.
  destruct c; try exact IH.
  destruct (GroupCall.MemberKey_eqb k key); simpl; rewrite IH; reflexivity.
Qed.

Lemma connects_member_app (key : GroupCall.MemberKey) (a b : list GroupCall.Effect) :
  connects_member key (a ++ b) = connects_member key a || connects_member key b.
Proof. unfold connects_member. apply existsb_app. Qed.

Lemma disposalsByMembers_app (a b : list GroupCall.Effect) :
  disposalsByMembers (a ++ b) = disposalsByMembers a ++ disposalsByMembers b.
Proof.
  induction a as [| e a IH]; simpl; [reflexivity |].
  destruct e; try exact IH. rewrite IH. apply app_assoc.
Qed.

(** What the loop over the buffered set does: the messages of the member's
    session go to the member, in the order of the set, the others stay. *)
Lemma flushMessages_spec (pending : list SignallingMessage) :
  forall (member member' : Member.Member) (kept : list SignallingMessage)
         (effs : list GroupCall.Effect),
    GroupCall.flushMessages member pending = (member', kept, effs) ->
    deliveries (GroupCall.keyOf member) effs
    = filter (forSession (GroupCall.member_sessionId member)) pending
    /\ kept = filter (fun x => negb (forSession (GroupCall.member_sessionId member) x)) pending
    /\ Member.userId member' = Member.userId member
    /\ Member.callDeviceMembership member' = Member.callDeviceMembership member
    /\ Member.retryCount member' = Member.retryCount member
    /\ (forall k, connects_member k effs = false)
    /\ disposalsByMembers effs = [].
Proof.
  induction pending as [| message rest IH]; intros member member' kept effs E; simpl in E.
  - inversion E; subst. simpl. repeat split; reflexivity.
  - destruct (String.eqb (sender_session_id message) (GroupCall.member_sessionId member)) eqn:S.
    + assert (S' : forSession (GroupCall.member_sessionId member) message = true) by exact S.
      pose proof (handleDeviceMessage_keeps_identity member message (Member.deviceId member))
        as (Eu & Ed & _ & Er & _).
      pose proof (handleDeviceMessage_disposes_nothing member message (Member.deviceId member))
        as Dn.
      destruct (Member.handleDeviceMessage member message (Member.deviceId member))
        as [member1 inner].
      simpl in Eu, Ed, Er, Dn.
      destruct (GroupCall.flushMessages member1 rest) as [[member2 kept2] effs2] eqn:F.
      inversion E; subst; clear E.
      destruct (IH _ _ _ _ F) as (Hd & Hk & Hu & Hc & Hr & Hn & Hx).
      assert (Ek : GroupCall.keyOf member1 = GroupCall.keyOf member).
      { unfold GroupCall.keyOf, Member.deviceId. rewrite Eu, Ed. reflexivity. }
      assert (Es : GroupCall.member_sessionId member1 = GroupCall.member_sessionId member).
      { unfold GroupCall.member_sessionId. rewrite Ed. reflexivity. }
      rewrite Ek, Es in Hd. rewrite Es in Hk.
      simpl. rewrite (proj2 (MemberKey_eqb_eq _ _) eq_refl), S'. simpl.
      rewrite Hd, Dn, Hx.
      repeat split; congruence.
    + assert (S' : forSession (GroupCall.member_sessionId member) message = false) by exact S.
      destruct (GroupCall.flushMessages member rest) as [[member2 kept2] effs2] eqn:F.
      inversion E; subst; clear E.
      destruct (IH _ _ _ _ F) as (Hd & Hk & Hu & Hc & Hr & Hn & Hx).
      simpl. rewrite S'. simpl.
      repeat split; try assumption. rewrite Hk. reflexivity.
Qed.

Lemma flushPending_spec (g g' : GroupCall.GroupCall) (member member' : Member.Member)
    (effs : list GroupCall.Effect) :
  GroupCall.flushPendingIncomingDeviceMessages g member = (g', member', effs) ->
  let key := GroupCall.keyOf member in
  let s := GroupCall.member_sessionId member in
  deliveries key effs = filter (forSession s) (GroupCall.buffered g key)
  /\ GroupCall.buffered g' key
     = filter (fun x => negb (forSession s x)) (GroupCall.buffered g key)
  /\ (forall k, k <> key -> GroupCall.buffered g' k = GroupCall.buffered g k)
  /\ GroupCall._members g' = GroupCall._members g
  /\ GroupCall.joinedData g' = GroupCall.joinedData g
  /\ GroupCall._state g' = GroupCall._state g
  /\ Member.userId member' = Member.userId member
  /\ Member.callDeviceMembership member' = Member.callDeviceMembership member
  /\ Member.retryCount member' = Member.retryCount member
  /\ (forall k, connects_member k effs = false)
  /\ disposalsByMembers effs = [].
Proof.
  intro E. cbv zeta. unfold GroupCall.flushPendingIncomingDeviceMessages in E.
  unfold GroupCall.buffered.
  destruct (JsMap.get GroupCall.MemberKey_eqb (GroupCall.bufferedDeviceMessages g)
              (GroupCall.keyOf member)) as [pending |] eqn:G.
  - destruct (GroupCall.flushMessages member pending) as [[m1 kept] effs1] eqn:F.
    inversion E; subst; clear E.
    destruct (flushMessages_spec _ _ _ _ _ F) as (Hd & Hk & Hu & Hc & Hr & Hn & Hx).
    split; [exact Hd |].
    split.
    { destruct kept as [| x kept]; simpl.
      - rewrite JsMap_get_delete_same. exact Hk.
      - rewrite (JsMap_get_set_same _ MemberKey_eqb_eq). exact Hk. }
    split.
    { intros k N. destruct kept as [| x kept]; simpl.
      - rewrite (JsMap_get_delete_other _ MemberKey_eqb_eq _ _ _ N). reflexivity.
      - rewrite (JsMap_get_set_other _ MemberKey_eqb_eq _ _ _ _ N). reflexivity. }
    repeat split; assumption.
  - inversion E; subst; clear E. simpl. rewrite G. repeat split; reflexivity.
Qed.

(** The invariant on the members map and the map operations. *)
Lemma membersKeyed_get (g : GroupCall.GroupCall) (key : GroupCall.MemberKey)
    (m : Member.Member) :
  membersKeyed g -> GroupCall.getMember g key = Some m -> GroupCall.keyOf m = key.
Proof.
  unfold membersKeyed, GroupCall.getMember.
  induction (GroupCall._members g) as [| [k v] rest IH]; simpl; intros F H;
    [discriminate H |].
  inversion F as [| ? ? Fk Fr]; subst. simpl in Fk.
  destruct (GroupCall.MemberKey_eqb key k) eqn:E.
  - apply MemberKey_eqb_eq in E. subst key. injection H as <-. exact Fk.
  - exact (IH Fr H).
Qed.

Lemma keyed_set (l : list (GroupCall.MemberKey * Member.Member))
    (k : GroupCall.MemberKey) (v : Member.Member) :
  Forall (fun km => GroupCall.keyOf (snd km) = fst km) l ->
  GroupCall.keyOf v = k ->
  Forall (fun km => GroupCall.keyOf (snd km) = fst km)
    (JsMap.set GroupCall.MemberKey_eqb l k v).
Proof.
  intros F Kv. induction l as [| [k' v'] rest IH]; simpl.
  - constructor; [exact Kv | constructor].
  - inversion_clear F as [| ? ? Fk Fr].
    destruct (GroupCall.MemberKey_eqb k k') eqn:E.
    + apply MemberKey_eqb_eq in E. subst k'. constructor; [exact Kv | exact Fr].
    + constructor; [exact Fk | exact (IH Fr)].
Qed.

Lemma keyed_delete (l : list (GroupCall.MemberKey * Member.Member))
    (k : GroupCall.MemberKey) :
  Forall (fun km => GroupCall.keyOf (snd km) = fst km) l ->
  Forall (fun km => GroupCall.keyOf (snd km) = fst km)
    (JsMap.delete GroupCall.MemberKey_eqb l k).
Proof.
  intro F. unfold JsMap.delete. rewrite Forall_forall in *.
  intros km Hin. apply filter_In in Hin. apply F. exact (proj1 Hin).
Qed.

Lemma keyed_map (f : Member.Member -> Member.Member)
    (l : list (GroupCall.MemberKey * Member.Member)) :
  (forall m, GroupCall.keyOf (f m) = GroupCall.keyOf m) ->
  Forall (fun km => GroupCall.keyOf (snd km) = fst km) l ->
  Forall (fun km => GroupCall.keyOf (snd km) = fst km)
    (map (fun km => (fst km, f (snd km))) l).
Proof.
  intros Kf F. induction F as [| km rest Fk Fr IH]; simpl; constructor.
  - simpl. rewrite Kf. exact Fk.
  - exact IH.
Qed.

(** What making a member under a free key does. *)
Lemma addMember_spec (g g' : GroupCall.GroupCall) (key : GroupCall.MemberKey)
    (roomMemberUserId : string) (device : CallDeviceMembership)
    (member : Member.Member) (effs : list GroupCall.Effect) :
  GroupCall.getMember g key = None ->
  GroupCall.addMember g key roomMemberUserId device = (g', member, effs) ->
  let made := Member.new roomMemberUserId device (GroupCall.memberOptions g) in
  GroupCall.bufferedDeviceMessages g' = GroupCall.bufferedDeviceMessages g
  /\ GroupCall.joinedData g' = GroupCall.joinedData g
  /\ GroupCall._state g' = GroupCall._state g
  /\ GroupCall.getMember g' key = Some member
  /\ (forall k, k <> key -> GroupCall.getMember g' k = GroupCall.getMember g k)
  /\ Member.userId member = roomMemberUserId
  /\ Member.callDeviceMembership member = device
  /\ Member.retryCount member = 0
  /\ effs = [GroupCall.OnMember (GroupCall.keyOf made) (GroupCall.Call_new device) [];
             GroupCall.Members_add key]
            ++ match GroupCall.joinedData g with
               | Some jd =>
                   [GroupCall.OnMember (GroupCall.keyOf made)
                      (GroupCall.Call_connect (GroupCall.jd_localMedia jd))
                      (snd (Member.connect made (Some (GroupCall.jd_localMedia jd))
                              (MadeId (GroupCall.connects g))))]
               | None => []
               end
  /\ (membersKeyed g -> key = GroupCall.getMemberKey roomMemberUserId (device_id device) ->
      membersKeyed g').
Proof.
  intros Hfree E. cbv zeta.
  unfold GroupCall.addMember, GroupCall.members_add, JsMap.has in E.
  unfold GroupCall.getMember in Hfree. rewrite Hfree in E.
  cbn [GroupCall.joinedData GroupCall.set_members] in E.
  assert (Other : forall (k : GroupCall.MemberKey) (v : Member.Member),
             k <> key ->
             JsMap.get GroupCall.MemberKey_eqb (GroupCall._members g ++ [(key, v)]) k
             = JsMap.get GroupCall.MemberKey_eqb (GroupCall._members g) k).
  { intros k v N. clear E Hfree.
    induction (GroupCall._members g) as [| [k0 v0] rest IH]; simpl.
    - rewrite (JsMap_eqb_neq _ MemberKey_eqb_eq _ _ N). reflexivity.
    - destruct (GroupCall.MemberKey_eqb k k0); [reflexivity | exact IH]. }
  assert (Added : forall v : Member.Member,
             membersKeyed g -> GroupCall.keyOf v = key ->
             Forall (fun km => GroupCall.keyOf (snd km) = fst km)
               (GroupCall._members g ++ [(key, v)])).
  { intros v F Kv. apply Forall_app. split; [exact F |].
    constructor; [exact Kv | constructor]. }
  destruct (GroupCall.joinedData g) as [jd |] eqn:J.
  - unfold GroupCall.connectToMember in E.
    cbn [GroupCall.connects GroupCall.set_members] in E.
    pose proof (connect_keeps_identity
                  (Member.new roomMemberUserId device (GroupCall.memberOptions g))
                  (Some (GroupCall.jd_localMedia jd)) (MadeId (GroupCall.connects g)))
      as (Eu & Ed & _ & Er & _).
    destruct (Member.connect _ _ _) as [m1 inner].
    simpl in Eu, Ed, Er.
    injection E as Eg Em Ee. subst g' member effs.
    unfold GroupCall.getMember, membersKeyed. simpl.
    split; [reflexivity |]. split; [exact J |]. split; [reflexivity |].
    split; [apply (JsMap_get_set_same _ MemberKey_eqb_eq) |].
    split.
    { intros k N. rewrite (JsMap_get_set_other _ MemberKey_eqb_eq _ _ _ _ N).
      apply Other. exact N. }
    split; [exact Eu |]. split; [exact Ed |]. split; [exact Er |].
    split; [reflexivity |].
    intros F Ek. apply keyed_set.
    + apply Added; [exact F |]. rewrite Ek. reflexivity.
    + rewrite Ek. unfold GroupCall.keyOf, Member.deviceId. rewrite Eu, Ed. reflexivity.
  - injection E as Eg Em Ee. subst g' member effs.
    unfold GroupCall.getMember, membersKeyed. simpl.
    split; [reflexivity |]. split; [exact J |]. split; [reflexivity |].
    split; [apply (JsMap_get_app_absent _ MemberKey_eqb_eq); exact Hfree |].
    split; [intros k N; apply Other; exact N |].
    split; [reflexivity |]. split; [reflexivity |]. split; [reflexivity |].
    split; [reflexivity |].
    intros F Ek. apply Added; [exact F |]. rewrite Ek. reflexivity.
Qed.

(** What the choice of the member for a device entry does, before the
    flush. *)
Lemma memberForDevice_spec (g g2 : GroupCall.GroupCall) (userId : string)
    (device : CallDeviceMembership) (member : Member.Member)
    (effs : list GroupCall.Effect) :
  membersKeyed g ->
  let key := GroupCall.getMemberKey userId (device_id device) in
  GroupCall.memberForDevice g key userId device = (g2, member, effs) ->
  GroupCall.keyOf member = key
  /\ GroupCall.member_sessionId member = session_id device
  /\ GroupCall.bufferedDeviceMessages g2 = GroupCall.bufferedDeviceMessages g
  /\ GroupCall.getMember g2 key = Some member
  /\ (forall k, deliveries k effs = [])
  /\ (forall k, k <> key -> GroupCall.getMember g2 k = GroupCall.getMember g k)
  /\ membersKeyed g2.
Proof.
  intros Keyed key E. unfold GroupCall.memberForDevice in E.
  destruct (GroupCall.getMember g key) as [old |] eqn:G.
  - destruct (String.eqb (GroupCall.member_sessionId old) (session_id device)) eqn:S.
    + injection E as Eg Em Ee. subst g2 member effs.
      pose proof (membersKeyed_get _ _ _ Keyed G) as K.
      assert (Kn : GroupCall.keyOf (Member.updateCallInfo old device) = key).
      { unfold GroupCall.keyOf, GroupCall.getMemberKey in K.
        unfold key, GroupCall.getMemberKey in *. injection K as Ku Kd.
        unfold GroupCall.keyOf, GroupCall.getMemberKey, Member.deviceId. simpl.
        rewrite Ku. reflexivity. }
      split; [exact Kn |].
      split; [reflexivity |]. split; [reflexivity |].
      split.
      { unfold GroupCall.getMember, GroupCall.storeMember. simpl.
        apply (JsMap_get_set_same _ MemberKey_eqb_eq). }
      split; [intro k; reflexivity |].
      split.
      { intros k N. unfold GroupCall.getMember, GroupCall.storeMember. simpl.
        apply (JsMap_get_set_other _ MemberKey_eqb_eq). exact N. }
      unfold membersKeyed, GroupCall.storeMember. simpl.
      apply keyed_set; [exact Keyed | exact Kn].
    + destruct (GroupCall.addMember (GroupCall.members_remove g key) key userId device)
        as [[g1 m1] effs1] eqn:A.
      injection E as Eg Em Ee. subst g2 member effs.
      assert (Free : GroupCall.getMember (GroupCall.members_remove g key) key = None).
      { unfold GroupCall.getMember, GroupCall.members_remove. simpl.
        apply JsMap_get_delete_same. }
      assert (KeyedRemoved : membersKeyed (GroupCall.members_remove g key)).
      { unfold membersKeyed, GroupCall.members_remove. simpl.
        apply keyed_delete. exact Keyed. }
      destruct (addMember_spec _ _ _ _ _ _ _ Free A)
        as (Hb & _ & _ & Hg & Ho & Hu & Hd & _ & He & Hk).
      split; [unfold GroupCall.keyOf, Member.deviceId; rewrite Hu, Hd; reflexivity |].
      split; [unfold GroupCall.member_sessionId; rewrite Hd; reflexivity |].
      split; [exact Hb |]. split; [exact Hg |].
      split.
      { intro k. rewrite He. simpl. destruct (GroupCall.joinedData g); reflexivity. }
      split.
      { intros k N. rewrite (Ho k N).
        unfold GroupCall.getMember, GroupCall.members_remove. simpl.
        apply (JsMap_get_delete_other _ MemberKey_eqb_eq). exact N. }
      apply Hk; [exact KeyedRemoved | reflexivity].
  - destruct (addMember_spec _ _ _ _ _ _ _ G E)
      as (Hb & _ & _ & Hg & Ho & Hu & Hd & _ & He & Hk).
    split; [unfold GroupCall.keyOf, Member.deviceId; rewrite Hu, Hd; reflexivity |].
    split; [unfold GroupCall.member_sessionId; rewrite Hd; reflexivity |].
    split; [exact Hb |]. split; [exact Hg |].
    split.
    { intro k. rewrite He. simpl. destruct (GroupCall.joinedData g); reflexivity. }
    split; [exact Ho |].
    apply Hk; [exact Keyed | reflexivity].
Qed.

(** What reconciling one device entry of another participant does to the
    buffer of its key. *)
Lemma updateDeviceMembership_flushes (g : GroupCall.GroupCall) (userId : string)
    (device : CallDeviceMembership) (deviceIndex eventTimestamp : nat) :
  membersKeyed g ->
  String.eqb userId (GroupCall.ownUserId (GroupCall.options g))
  && String.eqb (device_id device) (GroupCall.ownDeviceId (GroupCall.options g)) = false ->
  let key := GroupCall.getMemberKey userId (device_id device) in
  let updated :=
    GroupCall.updateDeviceMembership g userId userId device deviceIndex eventTimestamp in
  deliveries key (snd updated)
  = filter (forSession (session_id device)) (GroupCall.buffered g key)
  /\ GroupCall.buffered (fst updated) key
     = filter (fun x => negb (forSession (session_id device) x)) (GroupCall.buffered g key)
  /\ (forall k, k <> key -> GroupCall.buffered (fst updated) k = GroupCall.buffered g k)
  /\ (exists member,
        GroupCall.getMember (fst updated) key = Some member
        /\ GroupCall.keyOf member = key
        /\ GroupCall.member_sessionId member = session_id device)
  /\ (forall k, k <> key ->
        GroupCall.getMember (fst updated) k = GroupCall.getMember g k)
  /\ membersKeyed (fst updated).
Proof.
  intros Keyed Own key updated. subst updated.
  unfold GroupCall.updateDeviceMembership. rewrite Own. fold key.
  destruct (GroupCall.memberForDevice g key userId device) as [[g2 member] effs] eqn:M.
  destruct (memberForDevice_spec _ _ _ _ _ _ Keyed M)
    as (Hk & Hs & Hb & Hg & Hn & Ho & Hkeyed).
  destruct (GroupCall.flushPendingIncomingDeviceMessages g2 member)
    as [[g3 member'] flushed] eqn:F.
  destruct (flushPending_spec _ _ _ _ _ F)
    as (Fd & Fb & Fo & Fm & _ & _ & Fu & Fc & _).
  fold key in Hk. rewrite Hk, Hs in Fd, Fb. rewrite Hk in Fo.
  assert (B2 : forall k, GroupCall.buffered g2 k = GroupCall.buffered g k).
  { intro k. unfold GroupCall.buffered. rewrite Hb. reflexivity. }
  rewrite B2 in Fd, Fb.
  simpl fst. simpl snd.
  split; [rewrite deliveries_app, (Hn key); exact Fd |].
  split; [exact Fb |].
  split; [intros k N; rewrite <- B2; apply (Fo k N) |].
  split; [| split].
  - exists member'. split; [| split].
    + unfold GroupCall.getMember, GroupCall.storeMember. simpl.
      apply (JsMap_get_set_same _ MemberKey_eqb_eq).
    + unfold GroupCall.keyOf, Member.deviceId. rewrite Fu, Fc. exact Hk.
    + unfold GroupCall.member_sessionId. rewrite Fc. exact Hs.
  - intros k N. unfold GroupCall.getMember, GroupCall.storeMember. simpl.
    rewrite (JsMap_get_set_other _ MemberKey_eqb_eq _ _ _ _ N), Fm.
    apply (Ho k N).
  - unfold membersKeyed, GroupCall.storeMember. simpl. rewrite Fm.
    apply keyed_set; [exact Hkeyed |].
    unfold GroupCall.keyOf, Member.deviceId. rewrite Fu, Fc. exact Hk.
Qed.

(** ** GroupCall: routing of to-device messages *)

Lemma keyOf_eq (m m' : Member.Member) :
  Member.userId m' = Member.userId m ->
  Member.callDeviceMembership m' = Member.callDeviceMembership m ->
  GroupCall.keyOf m' = GroupCall.keyOf m.
Proof.
  intros Eu Ed. unfold GroupCall.keyOf, Member.deviceId. rewrite Eu, Ed. reflexivity.
Qed.

Lemma handleDeviceMessage_known (g : GroupCall.GroupCall) (message : SignallingMessage)
    (userId deviceId : string) (member : Member.Member) :
  GroupCall.getMember g (GroupCall.getMemberKey userId deviceId) = Some member ->
  sender_session_id message = GroupCall.member_sessionId member ->
  GroupCall.handleDeviceMessage g message userId deviceId
  = (GroupCall.storeMember g (GroupCall.getMemberKey userId deviceId)
       (fst (Member.handleDeviceMessage member message (Member.deviceId member))),
     [GroupCall.OnMember (GroupCall.keyOf member) (GroupCall.Call_handleDeviceMessage message)
        (snd (Member.handleDeviceMessage member message (Member.deviceId member)))]).
Proof.
  intros G S. unfold GroupCall.handleDeviceMessage. rewrite G.
  apply String.eqb_eq in S. rewrite S.
  destruct (Member.handleDeviceMessage member message (Member.deviceId member)).
  reflexivity.
Qed.

Lemma handleDeviceMessage_unknown (g : GroupCall.GroupCall) (message : SignallingMessage)
    (userId deviceId : string) :
  ~ knownSender g message (GroupCall.getMemberKey userId deviceId) ->
  GroupCall.handleDeviceMessage g message userId deviceId
  = (GroupCall.set_buffered g
       (JsMap.set GroupCall.MemberKey_eqb (GroupCall.bufferedDeviceMessages g)
          (GroupCall.getMemberKey userId deviceId)
          (JsSet.add SignallingMessage_eq_dec
             (GroupCall.buffered g (GroupCall.getMemberKey userId deviceId)) message)),
     [GroupCall.Log_buffering userId deviceId (sender_session_id message) (msg_type message)]).
Proof.
  intro N. unfold GroupCall.handleDeviceMessage.
  destruct (GroupCall.getMember g (GroupCall.getMemberKey userId deviceId))
    as [member |] eqn:G; [| reflexivity].
  destruct (String.eqb (sender_session_id message) (GroupCall.member_sessionId member)) eqn:S;
    [| reflexivity].
  exfalso. apply N. exists member. split; [exact G | apply String.eqb_eq; exact S].
Qed.

Lemma knownSender_dec (g : GroupCall.GroupCall) (message : SignallingMessage)
    (key : GroupCall.MemberKey) :
  knownSender g message key \/ ~ knownSender g message key.
Proof.
  unfold knownSender.
  destruct (GroupCall.getMember g key) as [member |].
  - destruct (string_dec (sender_session_id message) (GroupCall.member_sessionId member))
      as [E | N].
    + left. exists member. split; [reflexivity | exact E].
    + right. intros [m [Hm Hs]]. inversion Hm; subst. contradiction.
  - right. intros [m [Hm _]]. discriminate Hm.
Qed.

(** The two invariants hold of a new call and are kept by routing. *)
Lemma new_invariants (id : string) (newCall : bool) (content : GroupCall.CallContent)
    (roomId : string) (options : GroupCall.Options) :
  membersKeyed (GroupCall.new id newCall content roomId options)
  /\ buffersAreSets (GroupCall.new id newCall content roomId options).
Proof.
  split.
  - constructor.
  - intro key. constructor.
Qed.

Lemma handleDeviceMessage_invariants (g : GroupCall.GroupCall) (message : SignallingMessage)
    (userId deviceId : string) :
  membersKeyed g -> buffersAreSets g ->
  membersKeyed (fst (GroupCall.handleDeviceMessage g message userId deviceId))
  /\ buffersAreSets (fst (GroupCall.handleDeviceMessage g message userId deviceId)).
Proof.
  intros Keyed Sets.
  set (key := GroupCall.getMemberKey userId deviceId).
  destruct (knownSender_dec g message key) as [[member [G S]] | N].
  - rewrite (handleDeviceMessage_known _ _ _ _ _ G S). simpl. split.
    + unfold membersKeyed, GroupCall.storeMember. simpl.
      apply keyed_set; [exact Keyed |].
      pose proof (handleDeviceMessage_keeps_identity member message (Member.deviceId member))
        as (Eu & Ed & _).
      simpl in Eu, Ed. rewrite (keyOf_eq _ _ Eu Ed).
      apply (membersKeyed_get _ _ _ Keyed G).
    + intro k. apply Sets.
  - rewrite (handleDeviceMessage_unknown _ _ _ _ N). simpl. split.
    + exact Keyed.
    + intro k. unfold GroupCall.buffered. simpl. fold key.
      destruct (GroupCall.MemberKey_eqb k key) eqn:E.
      * apply MemberKey_eqb_eq in E. subst k.
        rewrite (JsMap_get_set_same _ MemberKey_eqb_eq).
        apply JsSet_add_NoDup. apply Sets.
      * assert (Nk : k <> key).
        { intro H. subst k. rewrite (JsMap_eqb_refl _ MemberKey_eqb_eq) in E. discriminate E. }
        rewrite (JsMap_get_set_other _ MemberKey_eqb_eq _ _ _ _ Nk).
        apply (Sets k).
Qed.

Lemma updateDeviceMembership_invariants (g : GroupCall.GroupCall) (userId : string)
    (device : CallDeviceMembership) (deviceIndex eventTimestamp : nat) :
  membersKeyed g -> buffersAreSets g ->
  membersKeyed
    (fst (GroupCall.updateDeviceMembership g userId userId device deviceIndex eventTimestamp))
  /\ buffersAreSets
       (fst (GroupCall.updateDeviceMembership g userId userId device deviceIndex eventTimestamp)).
Proof.
  intros Keyed Sets.
  destruct (String.eqb userId (GroupCall.ownUserId (GroupCall.options g))
            && String.eqb (device_id device) (GroupCall.ownDeviceId (GroupCall.options g)))
    eqn:Own.
  - unfold GroupCall.updateDeviceMembership. rewrite Own.
    destruct (GroupCall.GroupCallState_eqb _ GroupCall.Joining); split; assumption.
  - destruct (updateDeviceMembership_flushes g userId device deviceIndex eventTimestamp
                Keyed Own) as (_ & Fb & Fo & _ & _ & Hkeyed).
    set (key := GroupCall.getMemberKey userId (device_id device)) in *.
    split; [exact Hkeyed |].
    intro k. destruct (GroupCall.MemberKey_eqb k key) eqn:E.
    + apply MemberKey_eqb_eq in E. subst k. rewrite Fb.
      apply NoDup_filter. apply Sets.
    + assert (Nk : k <> key).
      { intro H. subst k. rewrite (JsMap_eqb_refl _ MemberKey_eqb_eq) in E. discriminate E. }
      rewrite (Fo k Nk). apply Sets.
Qed.

Lemma buffersAreSets_same (g g' : GroupCall.GroupCall) :
  GroupCall.bufferedDeviceMessages g' = GroupCall.bufferedDeviceMessages g ->
  buffersAreSets g -> buffersAreSets g'.
Proof.
  intros E Sets key. unfold GroupCall.buffered. rewrite E. apply Sets.
Qed.

Lemma disconnect_invariants (g : GroupCall.GroupCall) :
  membersKeyed g -> buffersAreSets g ->
  membersKeyed (fst (GroupCall.disconnect g)) /\ buffersAreSets (fst (GroupCall.disconnect g)).
Proof.
  intros Keyed Sets. unfold GroupCall.disconnect, GroupCall.disconnectMembers.
  destruct (GroupCall.GroupCallState_eqb (GroupCall._state g) GroupCall.Joined); cbn.
  - split.
    + unfold membersKeyed. cbn.
      apply (keyed_map (fun m => fst (Member.disconnect m true))); [| exact Keyed].
      intro m. reflexivity.
    + apply (buffersAreSets_same g); [reflexivity | exact Sets].
  - split; [exact Keyed |]. apply (buffersAreSets_same g); [reflexivity | exact Sets].
Qed.

Lemma setMedia_invariants (g : GroupCall.GroupCall) (media : LocalMedia) :
  membersKeyed g -> buffersAreSets g ->
  membersKeyed (fst (GroupCall.setMedia g media))
  /\ buffersAreSets (fst (GroupCall.setMedia g media)).
Proof.
  intros Keyed Sets. unfold GroupCall.setMedia.
  destruct (GroupCall.hasJoined g); [| split; assumption].
  destruct (GroupCall.joinedData g); [| split; assumption].
  cbn. split.
  - unfold membersKeyed. cbn.
    apply (keyed_map (fun m => fst (fst (Member.setMedia_start m media)))); [| exact Keyed].
    intro m. reflexivity.
  - apply (buffersAreSets_same g); [reflexivity | exact Sets].
Qed.

Lemma connectToMembers_invariants (members : list (GroupCall.MemberKey * Member.Member))
    (jd : GroupCall.JoinedData) :
  Forall (fun km => GroupCall.keyOf (snd km) = fst km) members ->
  forall g,
    membersKeyed g -> buffersAreSets g ->
    membersKeyed (fst (GroupCall.connectToMembers g members jd))
    /\ buffersAreSets (fst (GroupCall.connectToMembers g members jd)).
Proof.
  induction 1 as [| km rest Fk Fr IH]; intros g Keyed Sets; simpl.
  - split; assumption.
  - unfold GroupCall.connectToMember.
    pose proof (connect_keeps_identity (snd km) (Some (GroupCall.jd_localMedia jd))
                  (MadeId (GroupCall.connects g))) as (Eu & Ed & _).
    destruct (Member.connect (snd km) (Some (GroupCall.jd_localMedia jd))
                (MadeId (GroupCall.connects g))) as [member' effs].
    simpl in Eu, Ed.
    set (g1 := GroupCall.storeMember (GroupCall.set_connects g (S (GroupCall.connects g)))
                 (fst km) member').
    assert (K1 : membersKeyed g1).
    { unfold membersKeyed, g1, GroupCall.storeMember. cbn.
      apply keyed_set; [exact Keyed |]. rewrite (keyOf_eq _ _ Eu Ed). exact Fk. }
    assert (S1 : buffersAreSets g1).
    { apply (buffersAreSets_same g); [reflexivity | exact Sets]. }
    destruct (IH g1 K1 S1) as [K2 S2].
    destruct (GroupCall.connectToMembers g1 rest jd) as [g2 effs2].
    split; assumption.
Qed.

Lemma removeMemberDevices_invariants (userId : string) (deviceIds : list string) :
  forall g,
    membersKeyed g -> buffersAreSets g ->
    membersKeyed (fst (GroupCall.removeMemberDevices g userId deviceIds))
    /\ buffersAreSets (fst (GroupCall.removeMemberDevices g userId deviceIds)).
Proof.
  induction deviceIds as [| deviceId rest IH]; intros g Keyed Sets; simpl.
  - split; assumption.
  - assert (R : membersKeyed (fst (GroupCall.removeMemberDevice g userId deviceId))
                /\ buffersAreSets (fst (GroupCall.removeMemberDevice g userId deviceId))).
    { unfold GroupCall.removeMemberDevice.
      destruct (GroupCall.getMember g (GroupCall.getMemberKey userId deviceId));
        [| split; assumption].
      cbn. split.
      - unfold membersKeyed. cbn. apply keyed_delete. exact Keyed.
      - apply (buffersAreSets_same g); [reflexivity | exact Sets]. }
    destruct (GroupCall.removeMemberDevice g userId deviceId) as [g1 effs1].
    destruct R as [K1 S1]. cbn in K1, S1.
    destruct (IH g1 K1 S1) as [K2 S2].
    destruct (GroupCall.removeMemberDevices g1 userId rest) as [g2 effs2].
    split; assumption.
Qed.

Lemma updateDevices_invariants (userId : string) (devices : list CallDeviceMembership)
    (eventTimestamp : nat) :
  forall g deviceIndex,
    membersKeyed g -> buffersAreSets g ->
    membersKeyed (fst (GroupCall.updateDevices g userId userId devices deviceIndex eventTimestamp))
    /\ buffersAreSets
         (fst (GroupCall.updateDevices g userId userId devices deviceIndex eventTimestamp)).
Proof.
  induction devices as [| device rest IH]; intros g deviceIndex Keyed Sets; simpl.
  - split; assumption.
  - destruct (updateDeviceMembership_invariants g userId device deviceIndex eventTimestamp
                Keyed Sets) as [K1 S1].
    destruct (GroupCall.updateDeviceMembership g userId userId device deviceIndex eventTimestamp)
      as [g1 effs1].
    cbn in K1, S1.
    destruct (IH g1 (S deviceIndex) K1 S1) as [K2 S2].
    destruct (GroupCall.updateDevices g1 userId userId rest (S deviceIndex) eventTimestamp)
      as [g2 effs2].
    split; assumption.
Qed.

Lemma emitUpdate_keeps_key (m : Member.Member) (pc : PeerCall) (c : CallId) :
  GroupCall.keyOf (fst (Member.emitUpdate m pc c)) = GroupCall.keyOf m.
Proof.
  unfold Member.emitUpdate, Member.retryAfterEnded.
  destruct (state pc); try reflexivity.
  destruct (hangupReason pc) as [r |]; [| reflexivity].
  destruct (negb _); [| reflexivity].
  destruct (Nat.leb _ 3); [| reflexivity].
  set (counted := Member.set_retryCount _ _).
  pose proof (connect_keeps_identity counted (Member.localMedia counted) c) as (Eu & Ed & _).
  destruct (Member.connect counted (Member.localMedia counted) c) as [m' effs].
  cbn [fst snd] in *. apply (keyOf_eq _ _ Eu Ed).
Qed.

Lemma step_invariants (g g' : GroupCall.GroupCall) :
  GroupCall.Step g g' ->
  membersKeyed g -> buffersAreSets g -> membersKeyed g' /\ buffersAreSets g'.
Proof.
  intros St Keyed Sets. destruct St.
  - unfold GroupCall.create_start. destruct (GroupCall.GroupCallState_eqb _ _); cbn.
    + split; [exact Keyed | apply (buffersAreSets_same g); [reflexivity | exact Sets]].
    + split; assumption.
  - cbn. split; [exact Keyed | apply (buffersAreSets_same g); [reflexivity | exact Sets]].
  - unfold GroupCall.updateCallEvent. cbn.
    destruct (GroupCall.GroupCallState_eqb _ _); cbn;
      (split; [exact Keyed | apply (buffersAreSets_same g); [reflexivity | exact Sets]]).
  - cbn. split; [exact Keyed | apply (buffersAreSets_same g); [reflexivity | exact Sets]].
  - unfold GroupCall.join_sendState.
    destruct (GroupCall._createJoinPayload g stored) as [content deviceIndex]. cbn.
    split; [exact Keyed | apply (buffersAreSets_same g); [reflexivity | exact Sets]].
  - unfold GroupCall.join_connect.
    destruct (connectToMembers_invariants (GroupCall._members g) jd Keyed g Keyed Sets)
      as [K1 S1].
    destruct (GroupCall.connectToMembers g (GroupCall._members g) jd) as [g1 effs].
    split; assumption.
  - apply setMedia_invariants; assumption.
  - apply disconnect_invariants; assumption.
  - unfold GroupCall.updateMembership.
    destruct (updateDevices_invariants userId devices eventTimestamp g 0 Keyed Sets)
      as [K1 S1].
    destruct (GroupCall.updateDevices g userId userId devices 0 eventTimestamp) as [g1 effs1].
    cbn in K1, S1.
    set (gone := filter _ (GroupCall.getDeviceIdsForUserId g userId)).
    destruct (removeMemberDevices_invariants userId gone g1 K1 S1) as [K2 S2].
    destruct (GroupCall.removeMemberDevices g1 userId gone) as [g2 effs2].
    cbn in K2, S2.
    destruct (_ && _).
    + destruct (disconnect_invariants g2 K2 S2) as [K3 S3].
      unfold GroupCall.removeOwnDevice.
      destruct (GroupCall.disconnect g2) as [g3 effs3]. split; assumption.
    + split; assumption.
  - unfold GroupCall.removeMembership.
    destruct (removeMemberDevices_invariants userId
                (GroupCall.getDeviceIdsForUserId g userId) g Keyed Sets) as [K1 S1].
    destruct (GroupCall.removeMemberDevices g userId (GroupCall.getDeviceIdsForUserId g userId))
      as [g1 effs1].
    cbn in K1, S1.
    destruct (String.eqb userId _).
    + destruct (disconnect_invariants g1 K1 S1) as [K2 S2].
      unfold GroupCall.removeOwnDevice.
      destruct (GroupCall.disconnect g1) as [g2 effs2]. split; assumption.
    + split; assumption.
  - apply handleDeviceMessage_invariants; assumption.
  - split.
    + unfold membersKeyed, GroupCall.storeMember. cbn.
      apply keyed_set; [exact Keyed |]. rewrite emitUpdate_keeps_key.
      apply (membersKeyed_get _ _ _ Keyed H).
    + apply (buffersAreSets_same g); [reflexivity | exact Sets].
Qed.

(** In every state the code can be in, every member is bound under the key
    it answers to and every buffered set is without repetition. *)
Lemma reachable_invariants (g : GroupCall.GroupCall) :
  GroupCall.Reachable g -> membersKeyed g /\ buffersAreSets g.
Proof.
  induction 1 as [id newCall content roomId options | g g' _ [Keyed Sets] St].
  - apply new_invariants.
  - exact (step_invariants g g' St Keyed Sets).
Qed.


(** ** GroupCall: the size of the buffer *)

Lemma flooded_spec (n : nat) :
  GroupCall.getMember (flooded n) ("@a", "A1") = None
  /\ GroupCall.buffered (flooded n) ("@a", "A1") = map early_message (seq 0 n).
Proof.
  induction n as [| n [Hm Hb]].
  - split; reflexivity.
  - assert (N : ~ knownSender (flooded n) (early_message n) (GroupCall.getMemberKey "@a" "A1")).
    { intros [m [G _]]. unfold GroupCall.getMemberKey in G. rewrite Hm in G. discriminate G. }
    simpl flooded. rewrite (handleDeviceMessage_unknown _ _ _ _ N).
    unfold GroupCall.getMemberKey. split.
    + exact Hm.
    + unfold GroupCall.buffered at 1.
      cbn [fst GroupCall.bufferedDeviceMessages GroupCall.set_buffered].
      rewrite (JsMap_get_set_same _ MemberKey_eqb_eq), Hb.
      rewrite JsSet_add_fresh.
      * rewrite seq_S, map_app. reflexivity.
      * intro H. apply in_map_iff in H. destruct H as [k [E Hk]].
        apply in_seq in Hk. inversion E. lia.
Qed.

(** C4, as the code has it: the buffer of a key has no cap. Routing a
    message drops no buffered entry of any key: every buffered set is as
    before, with at most the message added at its end. A message from a
    sender that has no member of its session, and that is not buffered yet,
    makes the set of its key one longer, and all the code logs is that it
    buffers. After [n] distinct messages of such a sender the set holds [n]
    entries, for every [n]. *)
Theorem handleDeviceMessage_buffer_is_unbounded
    (g : GroupCall.GroupCall) (message : SignallingMessage) (userId deviceId : string) :
  let key := GroupCall.getMemberKey userId deviceId in
  let routed := GroupCall.handleDeviceMessage g message userId deviceId in
  (forall k, exists tail, GroupCall.buffered (fst routed) k = GroupCall.buffered g k ++ tail)
  /\ (~ knownSender g message key ->
      ~ In message (GroupCall.buffered g key) ->
      GroupCall.buffered (fst routed) key = GroupCall.buffered g key ++ [message]
      /\ snd routed = [GroupCall.Log_buffering userId deviceId
                         (sender_session_id message) (msg_type message)])
  /\ (forall n, length (GroupCall.buffered (flooded n) ("@a", "A1")) = n).
Proof.
  intros key routed. subst routed.
  split; [| split].
  - intro k. destruct (knownSender_dec g message key) as [[member [G S]] | N].
    + rewrite (handleDeviceMessage_known _ _ _ _ _ G S).
      exists []. rewrite app_nil_r. reflexivity.
    + rewrite (handleDeviceMessage_unknown _ _ _ _ N). simpl.
      unfold GroupCall.buffered at 1. simpl. fold key.
      destruct (GroupCall.MemberKey_eqb k key) eqn:E.
      * apply MemberKey_eqb_eq in E. subst k.
        rewrite (JsMap_get_set_same _ MemberKey_eqb_eq).
        destruct (JsSet_add_keeps SignallingMessage_eq_dec (GroupCall.buffered g key) message)
          as [tail [Ht _]].
        exists tail. exact Ht.
      * assert (Nk : k <> key).
        { intro H. subst k. rewrite (JsMap_eqb_refl _ MemberKey_eqb_eq) in E. discriminate E. }
        rewrite (JsMap_get_set_other _ MemberKey_eqb_eq _ _ _ _ Nk).
        exists []. rewrite app_nil_r. reflexivity.
  - intros N Fresh. rewrite (handleDeviceMessage_unknown _ _ _ _ N). simpl.
    split; [| reflexivity].
    unfold GroupCall.buffered at 1. simpl. fold key.
    rewrite (JsMap_get_set_same _ MemberKey_eqb_eq).
    apply JsSet_add_fresh. exact Fresh.
  - intro n. rewrite (proj2 (flooded_spec n)), length_map, length_seq. reflexivity.
Qed.

(** C4, witness: the first message of an unknown sender starts the set of
    its key. *)
Lemma handleDeviceMessage_buffer_is_unbounded_witness :
  GroupCall.buffered (fst (GroupCall.handleDeviceMessage call_created candidates_for_bob "@a" "A1"))
    ("@a", "A1")
  = GroupCall.buffered call_created ("@a", "A1") ++ [candidates_for_bob].
Proof.
  apply (handleDeviceMessage_buffer_is_unbounded call_created candidates_for_bob "@a" "A1").
  - intros [m [G _]]. discriminate G.
  - intros [].
Defined.

(** C4, as stated, fails: after 65 messages of a sender without member the
    set of its key holds 65 entries, more than the cap of 64, and the oldest
    of them is still the first. *)
Lemma buffer_exceeds_cap :
  length (GroupCall.buffered (flooded 65) ("@a", "A1")) = 65
  /\ 64 < length (GroupCall.buffered (flooded 65) ("@a", "A1"))
  /\ hd_error (GroupCall.buffered (flooded 65) ("@a", "A1")) = Some (early_message 0).
Proof. vm_compute. repeat split. apply Nat.leb_le. reflexivity. Qed.

(** ** GroupCall: a member whose session id changed *)

(** How a change of session is handled: when a device entry of another
    participant carries a session id
    other than that of the member bound under its key, the old member is
    disconnected (without hangup) and removed from the map, then a new
    member is made for the entry and added under the key, and it is
    connected exactly when [joinedData] is set, which is how the code tests
    that the call is joined. Only buffered messages are handed over after
    that. The member bound under the key afterwards has the session id of
    the entry and a retry count of 0. *)
Lemma updateDeviceMembership_replaces_member_of_old_session
    (g : GroupCall.GroupCall) (userId roomMemberUserId : string)
    (device : CallDeviceMembership) (deviceIndex eventTimestamp : nat)
    (old : Member.Member) :
  String.eqb userId (GroupCall.ownUserId (GroupCall.options g))
  && String.eqb (device_id device) (GroupCall.ownDeviceId (GroupCall.options g)) = false ->
  GroupCall.getMember g (GroupCall.getMemberKey userId (device_id device)) = Some old ->
  GroupCall.member_sessionId old <> session_id device ->
  let key := GroupCall.getMemberKey userId (device_id device) in
  let updated :=
    GroupCall.updateDeviceMembership g userId roomMemberUserId device
      deviceIndex eventTimestamp in
  let made := Member.new roomMemberUserId device (GroupCall.memberOptions g) in
  let connected :=
    match GroupCall.joinedData g with
    | Some jd =>
        [GroupCall.OnMember (GroupCall.keyOf made)
           (GroupCall.Call_connect (GroupCall.jd_localMedia jd))
           (snd (Member.connect made (Some (GroupCall.jd_localMedia jd))
                   (MadeId (GroupCall.connects g))))]
    | None => []
    end in
  (exists flushed,
     snd updated
     = [GroupCall.OnMember (GroupCall.keyOf old) (GroupCall.Call_disconnect false)
          (snd (Member.disconnect old false));
        GroupCall.Members_remove key;
        GroupCall.OnMember (GroupCall.keyOf made) (GroupCall.Call_new device) [];
        GroupCall.Members_add key]
       ++ connected ++ flushed
     /\ forall k, connects_member k flushed = false)
  /\ (connects_member (GroupCall.keyOf made) (snd updated) = true
      <-> GroupCall.joinedData g <> None)
  /\ ((GroupCall.joinedData g <> None <-> GroupCall.hasJoined g = true) ->
      (connects_member (GroupCall.keyOf made) (snd updated) = true
       <-> GroupCall.hasJoined g = true))
  /\ (exists member,
        GroupCall.getMember (fst updated) key = Some member
        /\ GroupCall.member_sessionId member = session_id device
        /\ Member.retryCount member = 0).
Proof.
  intros Own G Changed key updated made connected.
  assert (S : String.eqb (GroupCall.member_sessionId old) (session_id device) = false).
  { apply String.eqb_neq. exact Changed. }
  assert (Shape :
    exists g3 member' flushed,
      updated
      = (GroupCall.storeMember g3 key member',
         [GroupCall.OnMember (GroupCall.keyOf old) (GroupCall.Call_disconnect false)
            (snd (Member.disconnect old false));
          GroupCall.Members_remove key;
          GroupCall.OnMember (GroupCall.keyOf made) (GroupCall.Call_new device) [];
          GroupCall.Members_add key]
         ++ connected ++ flushed)
      /\ (forall k, connects_member k flushed = false)
      /\ GroupCall.member_sessionId member' = session_id device
      /\ Member.retryCount member' = 0).
  { subst updated. unfold GroupCall.updateDeviceMembership. rewrite Own.
    unfold GroupCall.memberForDevice. rewrite G, S. fold key.
    destruct (GroupCall.addMember (GroupCall.members_remove g key) key roomMemberUserId device)
      as [[g1 m1] effs1] eqn:A.
    assert (Free : GroupCall.getMember (GroupCall.members_remove g key) key = None).
    { unfold GroupCall.getMember, GroupCall.members_remove. simpl.
      apply JsMap_get_delete_same. }
    destruct (addMember_spec _ _ _ _ _ _ _ Free A)
      as (_ & _ & _ & _ & _ & _ & Hd & Hr & He & _).
    destruct (GroupCall.flushPendingIncomingDeviceMessages g1 m1)
      as [[g3 member'] flushed] eqn:F.
    destruct (flushPending_spec _ _ _ _ _ F)
      as (_ & _ & _ & _ & _ & _ & _ & Fc & Fr & Fn & _).
    exists g3, member', flushed. split; [| split; [| split]].
    - rewrite He. simpl. reflexivity.
    - exact Fn.
    - unfold GroupCall.member_sessionId. rewrite Fc, Hd. reflexivity.
    - rewrite Fr. exact Hr. }
  destruct Shape as (g3 & member' & flushed & E & Fn & Hs & Hr).
  assert (Conn : connects_member (GroupCall.keyOf made) (snd updated) = true
                 <-> GroupCall.joinedData g <> None).
  { rewrite E. cbn [snd]. rewrite !connects_member_app, (Fn _), orb_false_r.
    subst connected.
    destruct (GroupCall.joinedData g) as [jd |].
    - cbn. rewrite (JsMap_eqb_refl _ MemberKey_eqb_eq).
      split; [intros _; discriminate | reflexivity].
    - cbn. split; [intro H; discriminate H | intro H; contradiction]. }
  split; [| split; [exact Conn | split]].
  - exists flushed. rewrite E. split; [reflexivity | exact Fn].
  - intro J. rewrite Conn. exact J.
  - exists member'. rewrite E. simpl fst. split; [| split; assumption].
    unfold GroupCall.getMember, GroupCall.storeMember. simpl.
    apply (JsMap_get_set_same _ MemberKey_eqb_eq).
Qed.

(** For example: ("@a", "A1") is a member with session "S1" of a call we
    have joined; its membership comes again with session "S2". *)
Lemma updateDeviceMembership_replaces_member_of_old_session_witness :
  exists member,
    GroupCall.getMember
      (fst (GroupCall.updateDeviceMembership call_with_alice "@a" "@a"
              (mkDevice "A1" "S2") 0 70))
      ("@a", "A1") = Some member
    /\ GroupCall.member_sessionId member = "S2"
    /\ Member.retryCount member = 0.
Proof.
  apply (updateDeviceMembership_replaces_member_of_old_session
           call_with_alice "@a" "@a" (mkDevice "A1" "S2") 0 70 alice_S1).
  - reflexivity.
  - reflexivity.
  - discriminate.
Defined.

(** ** GroupCall: the own member event *)

Lemma findIndex_splice1 {A : Type} (p : A -> bool) (l : list A) (i : nat) :
  GroupCall.findIndex p l = Some i ->
  exists before x after,
    l = before ++ x :: after
    /\ p x = true
    /\ (forall y, In y before -> p y = false)
    /\ length before = i
    /\ GroupCall.splice1 i l = before ++ after.
Proof.
  revert i. induction l as [| a l IH]; intros i H; simpl in H; [discriminate H |].
  destruct (p a) eqn:Pa.
  - inversion H; subst. exists [], a, l. repeat split; try assumption.
    intros y [].
  - destruct (GroupCall.findIndex p l) as [j |] eqn:F; [| discriminate H].
    inversion H; subst.
    destruct (IH j eq_refl) as (before & x & after & El & Px & Hb & Hl & Hs).
    exists (a :: before), x, after. repeat split.
    + simpl. rewrite El. reflexivity.
    + exact Px.
    + intros y [<- | Hy]; [exact Pa | exact (Hb y Hy)].
    + simpl. rewrite Hl. reflexivity.
    + unfold GroupCall.splice1 in *.
      change (a :: (firstn j l ++ skipn (S j) l) = a :: (before ++ after)).
      rewrite Hs. reflexivity.
Qed.

Lemma findIndex_after_filter {A : Type} (p : A -> bool) (l : list A) (x : A) :
  p x = true ->
  GroupCall.findIndex p (filter (fun y => negb (p y)) l ++ [x])
  = Some (length (filter (fun y => negb (p y)) l)).
Proof.
  intro Px. induction l as [| a l IH]; simpl.
  - rewrite Px. reflexivity.
  - destruct (p a) eqn:Pa; simpl; [exact IH |].
    rewrite Pa, IH. reflexivity.
Qed.

Lemma splice1_last {A : Type} (l : list A) (x : A) :
  GroupCall.splice1 (length l) (l ++ [x]) = l.
Proof.
  unfold GroupCall.splice1. induction l as [| a l IH]; [reflexivity |].
  change (a :: (firstn (length l) (l ++ [x]) ++ skipn (S (length l)) (l ++ [x])) = a :: l).
  rewrite IH. reflexivity.
Qed.

Lemma findCall_onFoundCall (id : string)
    (f : list CallDeviceMembership -> list CallDeviceMembership)
    (calls : list GroupCall.CallInfo) (c : GroupCall.CallInfo) :
  GroupCall.findCall id calls = Some c ->
  GroupCall.findCall id (GroupCall.onFoundCall id f calls)
  = Some (GroupCall.mkCallInfo (GroupCall.m_call_id c) (f (GroupCall.m_devices c))).
Proof.
  unfold GroupCall.findCall.
  induction calls as [| a calls IH]; simpl; intro H; [discriminate H |].
  destruct (String.eqb (GroupCall.m_call_id a) id) eqn:E.
  - inversion H; subst. simpl. rewrite E. reflexivity.
  - simpl. rewrite E. exact (IH H).
Qed.

Lemma findCall_app_new (id : string) (calls : list GroupCall.CallInfo)
    (devices : list CallDeviceMembership) :
  GroupCall.findCall id calls = None ->
  GroupCall.findCall id (calls ++ [GroupCall.mkCallInfo id devices])
  = Some (GroupCall.mkCallInfo id devices).
Proof.
  unfold GroupCall.findCall.
  induction calls as [| a calls IH]; simpl; intro H.
  - rewrite String.eqb_refl. reflexivity.
  - destruct (String.eqb (GroupCall.m_call_id a) id); [discriminate H | exact (IH H)].
Qed.

(** The content [join] sends lists the own device last, and once, under
    this call. *)
Lemma createJoinPayload_lists_own_device (g : GroupCall.GroupCall)
    (stored : option (list GroupCall.CallInfo)) :
  exists name others,
    GroupCall.findCall (GroupCall.id g) (fst (GroupCall._createJoinPayload g stored))
    = Some (GroupCall.mkCallInfo name (others ++ [GroupCall.ownDeviceEntry g]))
    /\ others = filter (fun d => negb (GroupCall.isOwnDevice g d)) others.
Proof.
  unfold GroupCall._createJoinPayload. cbn [fst].
  set (calls := match stored with Some c => c | None => [] end).
  destruct (GroupCall.findCall (GroupCall.id g) calls) as [c |] eqn:F.
  - rewrite (findCall_onFoundCall _ _ _ _ F).
    eexists. eexists. split; [reflexivity |].
    induction (GroupCall.m_devices c) as [| d ds IH]; simpl; [reflexivity |].
    destruct (GroupCall.isOwnDevice g d) eqn:O; simpl; [exact IH |].
    rewrite O. simpl. rewrite <- IH. reflexivity.
  - rewrite (findCall_onFoundCall _ _ _ _ (findCall_app_new _ _ [] F)). simpl.
    exists (GroupCall.id g), []. split; reflexivity.
Qed.

(** What [_leaveCallMemberContent] returns, when it returns a content: the
    stored one, with the first entry of the own device taken out of the
    devices of this call. *)
Lemma leaveCallMemberContent_spec (g : GroupCall.GroupCall)
    (stored : option (list GroupCall.CallInfo)) (content : list GroupCall.CallInfo) :
  GroupCall._leaveCallMemberContent g stored = Some content ->
  exists calls callInfo before own after,
    stored = Some calls
    /\ GroupCall.findCall (GroupCall.id g) calls = Some callInfo
    /\ GroupCall.m_devices callInfo = before ++ own :: after
    /\ device_id own = GroupCall.ownDeviceId (GroupCall.options g)
    /\ (forall d, In d before -> GroupCall.isOwnDevice g d = false)
    /\ content = GroupCall.onFoundCall (GroupCall.id g) (fun _ => before ++ after) calls
    /\ GroupCall.findCall (GroupCall.id g) content
       = Some (GroupCall.mkCallInfo (GroupCall.m_call_id callInfo) (before ++ after)).
Proof.
  unfold GroupCall._leaveCallMemberContent. intro H.
  destruct stored as [calls |]; [| discriminate H].
  destruct (GroupCall.findCall (GroupCall.id g) calls) as [callInfo |] eqn:F; [| discriminate H].
  destruct (GroupCall.findIndex (GroupCall.isOwnDevice g) (GroupCall.m_devices callInfo)) as [i |] eqn:I;
    [| discriminate H].
  inversion H; subst; clear H.
  destruct (findIndex_splice1 _ _ _ I) as (before & own & after & El & Po & Hb & _ & Hs).
  exists calls, callInfo, before, own, after.
  assert (Same : GroupCall.onFoundCall (GroupCall.id g) (GroupCall.splice1 i) calls
                 = GroupCall.onFoundCall (GroupCall.id g) (fun _ => before ++ after) calls).
  { clear - F Hs. unfold GroupCall.findCall in F.
    induction calls as [| a calls IH]; simpl in *; [reflexivity |].
    destruct (String.eqb (GroupCall.m_call_id a) (GroupCall.id g)).
    - inversion F; subst. rewrite Hs. reflexivity.
    - rewrite (IH F). reflexivity. }
  repeat split; try assumption.
  - apply String.eqb_eq. exact Po.
  - rewrite Same. apply (findCall_onFoundCall _ (fun _ => before ++ after) _ _ F).
Qed.

(** ** GroupCall: leaving *)

Lemma sentStateEvents_app (a b : list GroupCall.Effect) :
  sentStateEvents (a ++ b) = sentStateEvents a ++ sentStateEvents b.
Proof.
  induction a as [| e a IH]; simpl; [reflexivity |].
  destruct e; simpl; rewrite ?IH; reflexivity.
Qed.

Lemma disconnect_spec (g : GroupCall.GroupCall) :
  sentStateEvents (snd (GroupCall.disconnect g)) = []
  /\ GroupCall.joinedData (fst (GroupCall.disconnect g)) = None
  /\ JsMap.keys (GroupCall._members (fst (GroupCall.disconnect g)))
     = JsMap.keys (GroupCall._members g)
  /\ GroupCall._state (fst (GroupCall.disconnect g))
     = (if GroupCall.GroupCallState_eqb (GroupCall._state g) GroupCall.Joined
        then GroupCall.Created else GroupCall._state g).
Proof.
  unfold GroupCall.disconnect, GroupCall.disconnectMembers.
  destruct (GroupCall.GroupCallState_eqb (GroupCall._state g) GroupCall.Joined); cbn.
  - repeat split.
    + rewrite sentStateEvents_app.
      assert (E : forall l : list (GroupCall.MemberKey * Member.Member),
                 sentStateEvents
                   (map (fun km => GroupCall.OnMember (GroupCall.keyOf (snd km))
                                     (GroupCall.Call_disconnect true)
                                     (snd (Member.disconnect (snd km) true))) l) = []).
      { induction l as [| a l IH]; [reflexivity | exact IH]. }
      rewrite E. destruct (GroupCall.joinedData g); reflexivity.
    + unfold JsMap.keys. rewrite map_map. reflexivity.
  - repeat split. destruct (GroupCall.joinedData g); reflexivity.
Qed.

(** A [join] and a [leave] with nobody else in a call of intent Ring, the
    storage holding at [leave] the member event [join] sent: the own device
    is taken out of the member event, the call is terminated and the
    members map is empty. *)
Lemma join_leave_cycle (g0 : GroupCall.GroupCall) (media : LocalMedia)
    (stored0 : option (list GroupCall.CallInfo)) (now : nat) :
  GroupCall.join_canStart g0 = true ->
  GroupCall._members g0 = [] ->
  GroupCall.intent g0 = Some GroupCall.Ring ->
  let joined := fst (GroupCall.join g0 media stored0 now) in
  let payload := fst (GroupCall._createJoinPayload g0 stored0) in
  let left := GroupCall.leave joined (Some payload) in
  sendsTerminated (snd left) = true
  /\ GroupCall._members (fst left) = []
  /\ exists name others,
       GroupCall.findCall (GroupCall.id g0) payload
       = Some (GroupCall.mkCallInfo name (others ++ [GroupCall.ownDeviceEntry g0]))
       /\ sentStateEvents (snd left)
          = [GroupCall.GroupCallMemberEvent (GroupCall.ownUserId (GroupCall.options g0))
               (GroupCall.onFoundCall (GroupCall.id g0) (fun _ => others) payload);
             GroupCall.GroupCallEvent (GroupCall.id g0)
               (GroupCall.mkCallContent (GroupCall.m_intent (GroupCall.callContent g0))
                  (GroupCall.m_type (GroupCall.callContent g0))
                  (GroupCall.m_name (GroupCall.callContent g0)) true)]
       /\ forall d, In d others -> GroupCall.isOwnDevice g0 d = false.
Proof.
  intros Can Empty Ring joined payload left.
  assert (Created : GroupCall._state g0 = GroupCall.Created
                    /\ GroupCall.joinedData g0 = None).
  { unfold GroupCall.join_canStart in Can. apply andb_true_iff in Can.
    destruct Can as [Cs Cj]. split.
    - destruct (GroupCall._state g0); try discriminate Cs; reflexivity.
    - destruct (GroupCall.joinedData g0); [discriminate Cj | reflexivity]. }
  destruct Created as [St Jd].
  destruct (createJoinPayload_lists_own_device g0 stored0) as (name & others & Fp & Fo).
  fold payload in Fp.
  assert (Ej : joined
               = GroupCall.set_ownEntry
                   (GroupCall.set_state
                      (GroupCall.set_joinedData g0 (Some (GroupCall.mkJoinedData media)))
                      GroupCall.Joining)
                   (snd (GroupCall._createJoinPayload g0 stored0)) now).
  { subst joined. unfold GroupCall.join. rewrite Can.
    unfold GroupCall.join_install, GroupCall.join_sendState, GroupCall.join_connect.
    change (GroupCall._createJoinPayload
              (GroupCall.set_state
                 (GroupCall.set_joinedData g0 (Some (GroupCall.mkJoinedData media)))
                 GroupCall.Joining) stored0)
      with (GroupCall._createJoinPayload g0 stored0).
    destruct (GroupCall._createJoinPayload g0 stored0) as [content deviceIndex].
    cbn [GroupCall._members GroupCall.set_ownEntry GroupCall.set_state
         GroupCall.set_joinedData].
    rewrite Empty. reflexivity. }
  clearbody joined. subst joined.
  set (joined := GroupCall.set_ownEntry
                   (GroupCall.set_state
                      (GroupCall.set_joinedData g0 (Some (GroupCall.mkJoinedData media)))
                      GroupCall.Joining)
                   (snd (GroupCall._createJoinPayload g0 stored0)) now) in *.
  assert (Own : GroupCall.isOwnDevice g0 (GroupCall.ownDeviceEntry g0) = true).
  { unfold GroupCall.isOwnDevice, GroupCall.ownDeviceEntry. simpl. apply String.eqb_refl. }
  assert (Lc : GroupCall._leaveCallMemberContent joined (Some payload)
               = Some (GroupCall.onFoundCall (GroupCall.id g0) (fun _ => others) payload)).
  { unfold GroupCall._leaveCallMemberContent.
    change (GroupCall.id joined) with (GroupCall.id g0).
    rewrite Fp. cbn [GroupCall.m_devices].
    change (GroupCall.isOwnDevice joined) with (GroupCall.isOwnDevice g0).
    rewrite Fo, (findIndex_after_filter _ _ _ Own), <- Fo.
    f_equal. clear - Fp. unfold GroupCall.findCall in Fp.
    induction payload as [| a rest IH]; simpl in *; [reflexivity |].
    destruct (String.eqb (GroupCall.m_call_id a) (GroupCall.id g0)).
    - injection Fp as ->. cbn [GroupCall.m_devices GroupCall.m_call_id].
      rewrite splice1_last. reflexivity.
    - rewrite (IH Fp). reflexivity. }
  assert (El : left
               = (fst (GroupCall.disconnect joined),
                  [GroupCall.HsApi_sendState (GroupCall.roomId g0)
                     (GroupCall.GroupCallMemberEvent (GroupCall.ownUserId (GroupCall.options g0))
                        (GroupCall.onFoundCall (GroupCall.id g0) (fun _ => others) payload));
                   GroupCall.HsApi_sendState (GroupCall.roomId g0)
                     (GroupCall.GroupCallEvent (GroupCall.id g0)
                        (GroupCall.mkCallContent (GroupCall.m_intent (GroupCall.callContent g0))
                           (GroupCall.m_type (GroupCall.callContent g0))
                           (GroupCall.m_name (GroupCall.callContent g0)) true))]
                  ++ snd (GroupCall.disconnect joined))).
  { subst left. unfold GroupCall.leave. rewrite Lc.
    change (GroupCall.joinedData joined) with (Some (GroupCall.mkJoinedData media)).
    change (GroupCall.intent joined) with (GroupCall.intent g0).
    change (GroupCall._members joined) with (GroupCall._members g0).
    rewrite Ring, Empty. unfold GroupCall.terminate.
    change (GroupCall._state joined) with GroupCall.Joining.
    destruct (GroupCall.disconnect joined). reflexivity. }
  destruct (disconnect_spec joined) as (Ds & _ & Dk & _).
  split; [| split].
  - rewrite El. cbn [snd]. unfold sendsTerminated.
    rewrite sentStateEvents_app, Ds. reflexivity.
  - rewrite El. cbn [fst].
    assert (K : JsMap.keys (GroupCall._members joined) = []).
    { change (GroupCall._members joined) with (GroupCall._members g0).
      rewrite Empty. reflexivity. }
    rewrite K in Dk. unfold JsMap.keys in Dk.
    destruct (GroupCall._members (fst (GroupCall.disconnect joined)));
      [reflexivity | discriminate Dk].
  - exists name, others. split; [exact Fp |]. split.
    + rewrite El. cbn [snd]. rewrite sentStateEvents_app, Ds. reflexivity.
    + intros d Hd. rewrite Fo in Hd. apply filter_In in Hd.
      destruct Hd as [_ Hd]. apply negb_true_iff in Hd. exact Hd.
Qed.

(** C6, as the code has it: [leave] on a call with [joinedData] reads the
    own member event from storage. When that event lists the own device
    under this call, [leave] sends it with the first entry of the own
    device taken out, and sends the conference event with
    [m.terminated = true] besides exactly when the intent is Ring and the
    members map is empty. When the stored event does not list the own
    device, [leave] sends no state event at all. Either way [joinedData]
    is cleared. In particular a [join] and a [leave] with nobody else in a
    call of intent Ring, the storage holding at [leave] the member event
    [join] sent, terminate the call and leave the members map empty. *)
Theorem leave_sends_member_event_and_terminates_ring
    (g : GroupCall.GroupCall) (stored : option (list GroupCall.CallInfo)) :
  GroupCall.joinedData g <> None ->
  GroupCall._state g <> GroupCall.Fledgling ->
  let left := GroupCall.leave g stored in
  let alone :=
    GroupCall.intent g = Some GroupCall.Ring /\ JsMap.size (GroupCall._members g) = 0 in
  let terminated :=
    GroupCall.GroupCallEvent (GroupCall.id g)
      (GroupCall.mkCallContent (GroupCall.m_intent (GroupCall.callContent g))
         (GroupCall.m_type (GroupCall.callContent g))
         (GroupCall.m_name (GroupCall.callContent g)) true) in
  (forall content,
     GroupCall._leaveCallMemberContent g stored = Some content ->
     (exists rest,
        sentStateEvents (snd left)
        = GroupCall.GroupCallMemberEvent (GroupCall.ownUserId (GroupCall.options g)) content
          :: rest
        /\ (alone -> rest = [terminated])
        /\ (~ alone -> rest = []))
     /\ (sendsTerminated (snd left) = true <-> alone)
     /\ (exists calls callInfo before own after,
           stored = Some calls
           /\ GroupCall.findCall (GroupCall.id g) calls = Some callInfo
           /\ GroupCall.m_devices callInfo = before ++ own :: after
           /\ device_id own = GroupCall.ownDeviceId (GroupCall.options g)
           /\ (forall d, In d before -> GroupCall.isOwnDevice g d = false)
           /\ GroupCall.findCall (GroupCall.id g) content
              = Some (GroupCall.mkCallInfo (GroupCall.m_call_id callInfo) (before ++ after))))
  /\ (GroupCall._leaveCallMemberContent g stored = None ->
      sentStateEvents (snd left) = [] /\ sendsTerminated (snd left) = false)
  /\ GroupCall.joinedData (fst left) = None
  /\ (forall g0 media stored0 now,
        GroupCall.join_canStart g0 = true ->
        GroupCall._members g0 = [] ->
        GroupCall.intent g0 = Some GroupCall.Ring ->
        let cycle :=
          GroupCall.leave (fst (GroupCall.join g0 media stored0 now))
            (Some (fst (GroupCall._createJoinPayload g0 stored0))) in
        sendsTerminated (snd cycle) = true /\ GroupCall._members (fst cycle) = []).
Proof.
  intros Joined NotFledgling left alone terminated.
  destruct (GroupCall.joinedData g) as [jd |] eqn:J; [clear Joined | contradiction].
  assert (Nf : GroupCall.GroupCallState_eqb (GroupCall._state g) GroupCall.Fledgling = false).
  { destruct (GroupCall._state g); try reflexivity. contradiction. }
  destruct (disconnect_spec g) as (Ds & Dj & _ & _).
  assert (Cond : (match GroupCall.intent g with Some GroupCall.Ring => true | _ => false end
                  && (JsMap.size (GroupCall._members g) =? 0)%nat) = true <-> alone).
  { subst alone. rewrite andb_true_iff, Nat.eqb_eq.
    destruct (GroupCall.intent g) as [[| |] |]; intuition; discriminate. }
  split; [| split; [| split]].
  - intros content Lc.
    assert (Sent : sentStateEvents (snd left)
                   = GroupCall.GroupCallMemberEvent (GroupCall.ownUserId (GroupCall.options g))
                       content
                     :: (if match GroupCall.intent g with
                            | Some GroupCall.Ring => true
                            | _ => false
                            end && (JsMap.size (GroupCall._members g) =? 0)%nat
                         then [terminated] else [])).
    { subst left. unfold GroupCall.leave. rewrite J, Lc.
      destruct (GroupCall.disconnect g) as [g' effs]. cbn [snd] in *.
      cbn [app sentStateEvents]. rewrite sentStateEvents_app, Ds, app_nil_r.
      unfold GroupCall.terminate. rewrite Nf.
      destruct (_ && _); reflexivity. }
    split; [| split].
    + eexists. split; [exact Sent |]. split.
      * intro A. apply Cond in A. rewrite A. reflexivity.
      * intro A. destruct (_ && _) eqn:C; [| reflexivity].
        exfalso. apply A. apply Cond. reflexivity.
    + unfold sendsTerminated. rewrite Sent. cbn [existsb orb].
      rewrite <- Cond. destruct (_ && _); cbn; split; intro H; try reflexivity; discriminate H.
    + destruct (leaveCallMemberContent_spec _ _ _ Lc)
        as (calls & callInfo & before & own & after & Es & Ef & Ed & Eo & Eb & _ & Ec).
      exists calls, callInfo, before, own, after. repeat split; assumption.
  - intro Lc.
    assert (Sent : sentStateEvents (snd left) = []).
    { subst left. unfold GroupCall.leave. rewrite J, Lc.
      destruct (GroupCall.disconnect g) as [g' effs]. exact Ds. }
    split; [exact Sent |]. unfold sendsTerminated. rewrite Sent. reflexivity.
  - subst left. unfold GroupCall.leave. rewrite J.
    destruct (GroupCall.disconnect g) as [g' effs]. exact Dj.
  - intros g0 media stored0 now Can Empty Ring cycle.
    destruct (join_leave_cycle g0 media stored0 now Can Empty Ring) as (T & M & _).
    split; assumption.
Qed.

(** C6, witness: ("@b", "B1") leaves the call it joined alone, of intent
    Ring, the storage holding the member event it sent on joining. *)
Lemma leave_sends_member_event_and_terminates_ring_witness :
  sendsTerminated (snd (GroupCall.leave call_joining (Some join_payload))) = true
  <-> GroupCall.intent call_joining = Some GroupCall.Ring
      /\ JsMap.size (GroupCall._members call_joining) = 0.
Proof.
  assert (J : GroupCall.joinedData call_joining <> None) by discriminate.
  assert (F : GroupCall._state call_joining <> GroupCall.Fledgling) by discriminate.
  destruct (leave_sends_member_event_and_terminates_ring call_joining (Some join_payload) J F)
    as (Sends & _).
  destruct (Sends [GroupCall.mkCallInfo "conf" []] eq_refl) as (_ & T & _).
  exact T.
Defined.

(** C6, as stated, fails: a call of intent Ring that was joined alone and
    is left before the own member event has reached the storage sends no
    state event, neither the member event nor the terminated one. *)
Lemma leave_before_sync_sends_nothing :
  ~ (forall (g : GroupCall.GroupCall) (stored : option (list GroupCall.CallInfo)),
       GroupCall.hasJoined g = true ->
       (sendsTerminated (snd (GroupCall.leave g stored)) = true
        <-> GroupCall.intent g = Some GroupCall.Ring
            /\ JsMap.size (GroupCall._members g) = 0)).
Proof.
  intro H.
  destruct (H call_joining None eq_refl) as [_ T].
  assert (F : sendsTerminated (snd (GroupCall.leave call_joining None)) = true).
  { apply T. split; reflexivity. }
  vm_compute in F. discriminate F.
Qed.

(** ** GroupCall: the joined state and the local media *)

Lemma hasJoined_iff (g : GroupCall.GroupCall) :
  GroupCall.hasJoined g = true
  <-> GroupCall._state g = GroupCall.Joining \/ GroupCall._state g = GroupCall.Joined.
Proof.
  unfold GroupCall.hasJoined.
  destruct (GroupCall._state g); cbn; split; intro H;
    try reflexivity; try discriminate H; try (left; reflexivity); try (right; reflexivity);
    destruct H as [H | H]; discriminate H.
Qed.

Lemma join_install_mediaIffJoined (g : GroupCall.GroupCall) (media : LocalMedia) :
  mediaIffJoined (fst (GroupCall.join_install g media)).
Proof.
  unfold mediaIffJoined. cbn. split; [reflexivity | discriminate].
Qed.

Lemma disconnect_joined_mediaIffJoined (g : GroupCall.GroupCall) :
  GroupCall._state g = GroupCall.Joined -> mediaIffJoined (fst (GroupCall.disconnect g)).
Proof.
  intro St. destruct (disconnect_spec g) as (_ & Dj & _ & Ds).
  unfold mediaIffJoined, GroupCall.localMedia, GroupCall.hasJoined.
  rewrite Dj, Ds, St. cbn. split; [intro H; contradiction | discriminate].
Qed.

(** C7, where the code departs from it: [hasJoined] holds exactly in the
    states Joining and Joined, and a call in state Joining with its
    [joinedData] has its local media; but [disconnect], and so [leave],
    resets the state only when it is Joined. Run in state Joining they
    clear [joinedData] and leave the state Joining: [hasJoined] still holds
    and the local media is gone. *)
Theorem disconnect_while_joining_breaks_media_invariant
    (g : GroupCall.GroupCall) (stored : option (list GroupCall.CallInfo)) :
  GroupCall._state g = GroupCall.Joining ->
  GroupCall.joinedData g <> None ->
  mediaIffJoined g
  /\ (GroupCall.hasJoined (fst (GroupCall.disconnect g)) = true
      /\ GroupCall.localMedia (fst (GroupCall.disconnect g)) = None)
  /\ (GroupCall.hasJoined (fst (GroupCall.leave g stored)) = true
      /\ GroupCall.localMedia (fst (GroupCall.leave g stored)) = None)
  /\ ~ mediaIffJoined (fst (GroupCall.disconnect g))
  /\ ~ mediaIffJoined (fst (GroupCall.leave g stored)).
Proof.
  intros St J.
  destruct (disconnect_spec g) as (_ & Dj & _ & Ds).
  rewrite St in Ds. cbn in Ds.
  assert (D : GroupCall.hasJoined (fst (GroupCall.disconnect g)) = true
              /\ GroupCall.localMedia (fst (GroupCall.disconnect g)) = None).
  { unfold GroupCall.hasJoined, GroupCall.localMedia. rewrite Ds, Dj. split; reflexivity. }
  assert (L : fst (GroupCall.leave g stored) = fst (GroupCall.disconnect g)).
  { unfold GroupCall.leave. destruct (GroupCall.joinedData g); [| contradiction].
    destruct (GroupCall.disconnect g). reflexivity. }
  split; [| split; [exact D | split; [rewrite L; exact D | split]]].
  - unfold mediaIffJoined, GroupCall.localMedia, GroupCall.hasJoined. rewrite St.
    destruct (GroupCall.joinedData g); [| contradiction].
    cbn. split; [reflexivity | discriminate].
  - unfold mediaIffJoined. destruct D as [Dh Dm]. rewrite Dh, Dm.
    intros [_ H]. apply (H eq_refl). reflexivity.
  - rewrite L. unfold mediaIffJoined. destruct D as [Dh Dm]. rewrite Dh, Dm.
    intros [_ H]. apply (H eq_refl). reflexivity.
Qed.

(** C7, witness: ("@b", "B1") joins [call_created] and leaves it before its
    own membership has come back with the sync. *)
Lemma disconnect_while_joining_breaks_media_invariant_witness :
  GroupCall.hasJoined (fst (GroupCall.leave call_joining None)) = true
  /\ GroupCall.localMedia (fst (GroupCall.leave call_joining None)) = None.
Proof.
  apply (disconnect_while_joining_breaks_media_invariant call_joining None).
  - reflexivity.
  - discriminate.
Defined.

(** ** The local media *)


Lemma disposalsByGroupCall_app (a b : list GroupCall.Effect) :
  disposalsByGroupCall (a ++ b) = disposalsByGroupCall a ++ disposalsByGroupCall b.
Proof.
  induction a as [| e a IH]; simpl; [reflexivity |].
  destruct e; simpl; rewrite ?IH; reflexivity.
Qed.











(** ** Member: the retry budget *)

Lemma apply_retryCount (m : Member.Member) (op : MemberRun.Op) :
  Member.retryCount m <= Member.retryCount (fst (MemberRun.apply m op))
  /\ (MemberRun.isRetry (op, snd (MemberRun.apply m op)) = true ->
      Member.retryCount (fst (MemberRun.apply m op)) = Member.retryCount m + 1
      /\ Member.retryCount m + 1 <= 3).
Proof.
  destruct op as [media c | hangup | device | pc c | message device | media];
    unfold MemberRun.isRetry; cbn [fst snd MemberRun.apply].
  - pose proof (connect_keeps_identity m media c) as (_ & _ & _ & Er & _).
    rewrite Er. split; [lia | discriminate].
  - cbn. split; [lia | discriminate].
  - cbn. split; [lia | discriminate].
  - unfold Member.emitUpdate, Member.retryAfterEnded.
    destruct (state pc); cbn; try (split; [lia | discriminate]).
    destruct (hangupReason pc) as [r |]; cbn; [| split; [lia | discriminate]].
    destruct (negb _); cbn; [| split; [lia | discriminate]].
    destruct (Nat.leb_spec (Member.retryCount m + 1) 3) as [Le | Gt].
    + pose proof (connect_keeps_identity
                    (Member.set_retryCount (Member.set_peerCall m None)
                       (Member.retryCount m + 1))
                    (Member.localMedia m) c) as (_ & _ & _ & Er & _).
      cbn in Er.
      destruct (Member.connect _ _ c) as [m' effs]. cbn in *.
      rewrite Er. split; [lia |]. intros _. split; [reflexivity | exact Le].
    + cbn. split; [lia | discriminate].
  - pose proof (handleDeviceMessage_keeps_identity m message device) as (_ & _ & _ & Er & _).
    cbn in Er. rewrite Er. split; [lia | discriminate].
  - cbn. split; [lia | discriminate].
Qed.

(** Over any run of operations on a member, [emitUpdate] runs [connect]
    again at most [3 - retryCount] times in all, and the retry count never
    goes down: nothing resets it, not a successful reconnect, not a
    disconnect, not new call info. *)
Theorem member_retries_at_most_three (m : Member.Member) (ops : list MemberRun.Op) :
  MemberRun.retries (snd (MemberRun.run m ops)) <= 3 - Member.retryCount m
  /\ Member.retryCount m <= Member.retryCount (fst (MemberRun.run m ops)).
Proof.
  revert m. induction ops as [| op rest IH]; intro m; cbn [MemberRun.run].
  - cbn [fst snd MemberRun.retries filter length]. split; [apply Nat.le_0_l | apply Nat.le_refl].
  - destruct (apply_retryCount m op) as [Mono Retry].
    destruct (MemberRun.apply m op) as [m1 effs]. cbn [fst snd] in *.
    destruct (IH m1) as [Bound Mono1].
    destruct (MemberRun.run m1 rest) as [m2 trace]. cbn [fst snd] in *.
    unfold MemberRun.retries in *. cbn [filter].
    destruct (MemberRun.isRetry (op, effs)) eqn:R.
    + destruct (Retry eq_refl) as [E Le].
      change (length ((op, effs) :: filter MemberRun.isRetry trace))
        with (S (length (filter MemberRun.isRetry trace))).
      split; lia.
    + split; lia.
Qed.

(** ** Member: PeerCalls held and released *)

(** After [disconnect] the member holds neither a PeerCall nor media, and
    a second [disconnect] calls nothing but the log: no PeerCall and no
    media object is hung up, closed or disposed of twice. *)
Theorem member_disconnect_is_idempotent (m : Member.Member) (hangup hangup' : bool) :
  let m' := fst (Member.disconnect m hangup) in
  Member.peerCall m' = None
  /\ Member.localMedia m' = None
  /\ Member.disconnect m' hangup' = (m', [Member.Log_wrap "disconnect"]).
Proof. repeat split. Qed.

(** A member that holds a PeerCall hands every message of its own session
    to that PeerCall, an Invite with another call id too: it makes no
    second PeerCall and keeps the one it has. *)
Theorem handleDeviceMessage_forwards_to_held_call
    (m : Member.Member) (message : SignallingMessage) (device : string) (c : CallId) :
  Member.peerCall m = Some c ->
  dest_session_id message = Member.sessionId (Member.options m) ->
  Member.handleDeviceMessage m message device
  = (m, [Member.SyncLog_refDetached;
         Member.PeerCall_handleIncomingSignallingMessage c message device]).
Proof.
  intros Hp Hs. unfold Member.handleDeviceMessage.
  rewrite Hs, String.eqb_refl. cbn [negb].
  rewrite Hp. destruct (msg_type message); cbn; rewrite Hp; reflexivity.
Qed.

Lemma handleDeviceMessage_forwards_to_held_call_witness :
  Member.handleDeviceMessage carol_connected (mkMessage 9 Invite "c9" "SC" "SB") "C1"
  = (carol_connected,
     [Member.SyncLog_refDetached;
      Member.PeerCall_handleIncomingSignallingMessage (MadeId 0)
        (mkMessage 9 Invite "c9" "SC" "SB") "C1"]).
Proof.
  apply (handleDeviceMessage_forwards_to_held_call carol_connected
           (mkMessage 9 Invite "c9" "SC" "SB") "C1" (MadeId 0)); reflexivity.
Defined.

(** [connect] on a member that holds a PeerCall never hangs up, closes or
    disposes of it: the side that initiates puts the new PeerCall in its
    place, the other side keeps it. *)
Theorem connect_never_ends_held_call
    (m : Member.Member) (media : option LocalMedia) (newCallId held : CallId) :
  Member.peerCall m = Some held ->
  existsb (MemberRun.endsCall held) (snd (Member.connect m media newCallId)) = false
  /\ Member.peerCall (fst (Member.connect m media newCallId))
     = Some (if Member.shouldInitiateCall m then newCallId else held).
Proof.
  intro Hp. unfold Member.connect.
  replace (Member.shouldInitiateCall (Member.set_localMedia m media))
    with (Member.shouldInitiateCall m) by reflexivity.
  destruct (Member.shouldInitiateCall m); cbn; [| rewrite Hp]; split; reflexivity.
Qed.

Lemma connect_never_ends_held_call_witness :
  existsb (MemberRun.endsCall (MadeId 0))
    (snd (Member.connect carol_connected (Some 8) (MadeId 1))) = false
  /\ Member.peerCall (fst (Member.connect carol_connected (Some 8) (MadeId 1)))
     = Some (if Member.shouldInitiateCall carol_connected then MadeId 1 else MadeId 0).
Proof.
  apply (connect_never_ends_held_call carol_connected (Some 8) (MadeId 1) (MadeId 0)).
  reflexivity.
Defined.

(** ** GroupCall: what no operation writes, and what holds of every member *)

Lemma sameCall_refl (g : GroupCall.GroupCall) : sameCall g g.
Proof. repeat split. Qed.

Lemma sameCall_trans (g1 g2 g3 : GroupCall.GroupCall) :
  sameCall g1 g2 -> sameCall g2 g3 -> sameCall g1 g3.
Proof.
  intros (A1 & A2 & A3) (B1 & B2 & B3). repeat split; congruence.
Qed.

Lemma sameCall_memberOptions (g g' : GroupCall.GroupCall) :
  sameCall g g' -> GroupCall.memberOptions g' = GroupCall.memberOptions g.
Proof.
  intros (A1 & A2 & A3). unfold GroupCall.memberOptions. rewrite A1, A3. reflexivity.
Qed.

Lemma flushPending_sameCall (g : GroupCall.GroupCall) (member : Member.Member) :
  sameCall g (fst (fst (GroupCall.flushPendingIncomingDeviceMessages g member))).
Proof.
  unfold GroupCall.flushPendingIncomingDeviceMessages.
  destruct (JsMap.get _ _ _) as [pending |]; [| apply sameCall_refl].
  destruct (GroupCall.flushMessages member pending) as [[m' kept] effs].
  repeat split.
Qed.

Lemma addMember_sameCall (g : GroupCall.GroupCall) (key : GroupCall.MemberKey)
    (u : string) (device : CallDeviceMembership) :
  sameCall g (fst (fst (GroupCall.addMember g key u device))).
Proof.
  unfold GroupCall.addMember, GroupCall.members_add, GroupCall.connectToMember.
  destruct (JsMap.has _ _ _); cbn;
    destruct (GroupCall.joinedData g); cbn; try destruct (Member.connect _ _ _);
    repeat split.
Qed.

Lemma memberForDevice_sameCall (g : GroupCall.GroupCall) (key : GroupCall.MemberKey)
    (u : string) (device : CallDeviceMembership) :
  sameCall g (fst (fst (GroupCall.memberForDevice g key u device))).
Proof.
  unfold GroupCall.memberForDevice.
  destruct (GroupCall.getMember g key) as [member |]; [| apply addMember_sameCall].
  destruct (String.eqb _ _); [repeat split |].
  pose proof (addMember_sameCall (GroupCall.members_remove g key) key u device) as S.
  destruct (GroupCall.addMember _ key u device) as [[g1 m1] effs]. exact S.
Qed.

Lemma updateDeviceMembership_sameCall (g : GroupCall.GroupCall) (userId u : string)
    (device : CallDeviceMembership) (deviceIndex eventTimestamp : nat) :
  sameCall g (fst (GroupCall.updateDeviceMembership g userId u device deviceIndex eventTimestamp)).
Proof.
  unfold GroupCall.updateDeviceMembership.
  destruct (_ && _).
  - cbn. destruct (GroupCall.GroupCallState_eqb _ _); repeat split.
  - pose proof (memberForDevice_sameCall g
                  (GroupCall.getMemberKey userId (device_id device)) u device) as S1.
    destruct (GroupCall.memberForDevice _ _ _ _) as [[g2 member] effs].
    pose proof (flushPending_sameCall g2 member) as S2.
    destruct (GroupCall.flushPendingIncomingDeviceMessages g2 member) as [[g3 member'] fl].
    cbn [fst] in *. eapply sameCall_trans; [exact S1 |].
    eapply sameCall_trans; [exact S2 |]. repeat split.
Qed.

Lemma updateDevices_sameCall (userId u : string) (devices : list CallDeviceMembership)
    (eventTimestamp : nat) :
  forall g deviceIndex,
    sameCall g (fst (GroupCall.updateDevices g userId u devices deviceIndex eventTimestamp)).
Proof.
  induction devices as [| device rest IH]; intros g i; cbn [GroupCall.updateDevices].
  - apply sameCall_refl.
  - pose proof (updateDeviceMembership_sameCall g userId u device i eventTimestamp) as S1.
    destruct (GroupCall.updateDeviceMembership _ _ _ _ _ _) as [g1 effs1].
    pose proof (IH g1 (S i)) as S2.
    destruct (GroupCall.updateDevices _ _ _ _ _ _) as [g2 effs2].
    cbn [fst] in *. eapply sameCall_trans; eassumption.
Qed.

Lemma removeMemberDevice_sameCall (g : GroupCall.GroupCall) (userId deviceId : string) :
  sameCall g (fst (GroupCall.removeMemberDevice g userId deviceId)).
Proof.
  unfold GroupCall.removeMemberDevice.
  destruct (GroupCall.getMember _ _); repeat split.
Qed.

Lemma removeMemberDevices_sameCall (userId : string) (deviceIds : list string) :
  forall g, sameCall g (fst (GroupCall.removeMemberDevices g userId deviceIds)).
Proof.
  induction deviceIds as [| d rest IH]; intro g; cbn [GroupCall.removeMemberDevices].
  - apply sameCall_refl.
  - pose proof (removeMemberDevice_sameCall g userId d) as S1.
    destruct (GroupCall.removeMemberDevice g userId d) as [g1 effs1].
    pose proof (IH g1) as S2.
    destruct (GroupCall.removeMemberDevices g1 userId rest) as [g2 effs2].
    cbn [fst] in *. eapply sameCall_trans; eassumption.
Qed.

Lemma disconnect_sameCall (g : GroupCall.GroupCall) :
  sameCall g (fst (GroupCall.disconnect g)).
Proof.
  unfold GroupCall.disconnect.
  destruct (GroupCall.GroupCallState_eqb _ _); cbn; repeat split.
Qed.

Lemma updateMembership_sameCall (g : GroupCall.GroupCall) (userId u : string)
    (devices : list CallDeviceMembership) (eventTimestamp : nat) :
  sameCall g (fst (GroupCall.updateMembership g userId u devices eventTimestamp)).
Proof.
  unfold GroupCall.updateMembership.
  pose proof (updateDevices_sameCall userId u devices eventTimestamp g 0) as S1.
  destruct (GroupCall.updateDevices _ _ _ _ _ _) as [g1 effs1].
  match goal with
  | |- context [GroupCall.removeMemberDevices g1 userId ?l] =>
      pose proof (removeMemberDevices_sameCall userId l g1) as S2;
      destruct (GroupCall.removeMemberDevices g1 userId l) as [g2 effs2]
  end.
  cbn [fst] in *.
  destruct (_ && _).
  - pose proof (disconnect_sameCall g2) as S3. unfold GroupCall.removeOwnDevice.
    destruct (GroupCall.disconnect g2) as [g3 effs3]. cbn [fst] in *.
    eapply sameCall_trans; [exact S1 |]. eapply sameCall_trans; eassumption.
  - cbn [fst]. eapply sameCall_trans; eassumption.
Qed.

Lemma removeMembership_sameCall (g : GroupCall.GroupCall) (userId : string) :
  sameCall g (fst (GroupCall.removeMembership g userId)).
Proof.
  unfold GroupCall.removeMembership.
  match goal with
  | |- context [GroupCall.removeMemberDevices g userId ?l] =>
      pose proof (removeMemberDevices_sameCall userId l g) as S1;
      destruct (GroupCall.removeMemberDevices g userId l) as [g1 effs1]
  end.
  cbn [fst] in *.
  destruct (String.eqb _ _).
  - pose proof (disconnect_sameCall g1) as S2. unfold GroupCall.removeOwnDevice.
    destruct (GroupCall.disconnect g1) as [g2 effs2]. cbn [fst] in *.
    eapply sameCall_trans; eassumption.
  - exact S1.
Qed.

Lemma handleDeviceMessage_sameCall (g : GroupCall.GroupCall) (message : SignallingMessage)
    (userId deviceId : string) :
  sameCall g (fst (GroupCall.handleDeviceMessage g message userId deviceId)).
Proof.
  unfold GroupCall.handleDeviceMessage. cbv zeta.
  destruct (GroupCall.getMember _ _) as [member |]; [| repeat split].
  destruct (String.eqb _ _); [| repeat split].
  destruct (Member.handleDeviceMessage _ _ _). repeat split.
Qed.

Lemma connectToMembers_sameCall (members : list (GroupCall.MemberKey * Member.Member))
    (jd : GroupCall.JoinedData) :
  forall g, sameCall g (fst (GroupCall.connectToMembers g members jd)).
Proof.
  induction members as [| km rest IH]; intro g; cbn [GroupCall.connectToMembers].
  - apply sameCall_refl.
  - unfold GroupCall.connectToMember.
    destruct (Member.connect _ _ _) as [member' effs].
    match goal with
    | |- context [GroupCall.connectToMembers ?g1 rest jd] =>
        pose proof (IH g1) as S1; destruct (GroupCall.connectToMembers g1 rest jd)
    end.
    cbn [fst] in *. eapply sameCall_trans; [| exact S1]. repeat split.
Qed.

Lemma setMedia_sameCall (g : GroupCall.GroupCall) (media : LocalMedia) :
  sameCall g (fst (GroupCall.setMedia g media)).
Proof.
  unfold GroupCall.setMedia.
  destruct (GroupCall.hasJoined g); [| apply sameCall_refl].
  destruct (GroupCall.joinedData g); repeat split.
Qed.

Lemma step_sameCall (g g' : GroupCall.GroupCall) : GroupCall.Step g g' -> sameCall g g'.
Proof.
  intro St. destruct St.
  - unfold GroupCall.create_start. destruct (GroupCall.GroupCallState_eqb _ _); repeat split.
  - repeat split.
  - unfold GroupCall.updateCallEvent. cbn.
    destruct (GroupCall.GroupCallState_eqb _ _); repeat split.
  - repeat split.
  - unfold GroupCall.join_sendState.
    destruct (GroupCall._createJoinPayload _ _). repeat split.
  - unfold GroupCall.join_connect.
    pose proof (connectToMembers_sameCall (GroupCall._members g) jd g) as S1.
    destruct (GroupCall.connectToMembers _ _ _). exact S1.
  - apply setMedia_sameCall.
  - apply disconnect_sameCall.
  - apply updateMembership_sameCall.
  - apply removeMembership_sameCall.
  - apply handleDeviceMessage_sameCall.
  - repeat split.
Qed.

Section MembersAll.
Variable P : Member.Member -> Prop.
Variable o : Member.Options.
Hypothesis P_new : forall u device, P (Member.new u device o).
Hypothesis P_connect : forall m media c, P m -> P (fst (Member.connect m media c)).
Hypothesis P_disconnect : forall m hangup, P m -> P (fst (Member.disconnect m hangup)).
Hypothesis P_updateCallInfo : forall m device, P m -> P (Member.updateCallInfo m device).
Hypothesis P_emitUpdate : forall m pc c, P m -> P (fst (Member.emitUpdate m pc c)).
Hypothesis P_handleDeviceMessage :
  forall m message device, P m -> P (fst (Member.handleDeviceMessage m message device)).
Hypothesis P_setMedia : forall m media, P m -> P (fst (fst (Member.setMedia_start m media))).

Local Abbreviation all l := (Forall (fun km : GroupCall.MemberKey * Member.Member => P (snd km)) l).
Local Abbreviation allOf g :=
  (all (GroupCall._members g) /\ GroupCall.memberOptions g = o).

Lemma all_get (l : list (GroupCall.MemberKey * Member.Member)) (k : GroupCall.MemberKey)
    (m : Member.Member) :
  all l -> JsMap.get GroupCall.MemberKey_eqb l k = Some m -> P m.
Proof.
  induction 1 as [| [k' v] rest Hv _ IH]; simpl; [discriminate |].
  destruct (GroupCall.MemberKey_eqb k k'); [| exact IH].
  intro E. injection E as <-. exact Hv.
Qed.

Lemma all_set (l : list (GroupCall.MemberKey * Member.Member)) (k : GroupCall.MemberKey)
    (v : Member.Member) :
  all l -> P v -> all (JsMap.set GroupCall.MemberKey_eqb l k v).
Proof.
  intros Hl Hv. induction Hl as [| [k' v'] rest Hv' Hrest IH]; simpl.
  - constructor; [exact Hv | constructor].
  - destruct (GroupCall.MemberKey_eqb k k'); constructor; assumption.
Qed.

Lemma all_delete (l : list (GroupCall.MemberKey * Member.Member)) (k : GroupCall.MemberKey) :
  all l -> all (JsMap.delete GroupCall.MemberKey_eqb l k).
Proof.
  induction 1 as [| [k' v'] rest Hv' _ IH]; simpl; [constructor |].
  destruct (negb _); [constructor |]; assumption.
Qed.

Lemma all_map (f : Member.Member -> Member.Member)
    (l : list (GroupCall.MemberKey * Member.Member)) :
  (forall m, P m -> P (f m)) -> all l -> all (map (fun km => (fst km, f (snd km))) l).
Proof.
  intros Hf. induction 1 as [| [k' v'] rest Hv' _ IH]; simpl; constructor; cbn; auto.
Qed.

Lemma flushMessages_all (pending : list SignallingMessage) :
  forall member, P member -> P (fst (fst (GroupCall.flushMessages member pending))).
Proof.
  induction pending as [| message rest IH]; intros member Hm; cbn [GroupCall.flushMessages].
  - exact Hm.
  - destruct (String.eqb _ _).
    + pose proof (P_handleDeviceMessage member message (Member.deviceId member) Hm) as H1.
      destruct (Member.handleDeviceMessage _ _ _) as [member1 effs]. cbn [fst] in H1.
      pose proof (IH member1 H1) as H2.
      destruct (GroupCall.flushMessages member1 rest) as [[member2 kept] effs']. exact H2.
    + pose proof (IH member Hm) as H2.
      destruct (GroupCall.flushMessages member rest) as [[member2 kept] effs']. exact H2.
Qed.

Lemma flushPending_all (g : GroupCall.GroupCall) (member : Member.Member) :
  P member ->
  P (snd (fst (GroupCall.flushPendingIncomingDeviceMessages g member)))
  /\ GroupCall._members (fst (fst (GroupCall.flushPendingIncomingDeviceMessages g member)))
     = GroupCall._members g.
Proof.
  intro Hm. unfold GroupCall.flushPendingIncomingDeviceMessages.
  destruct (JsMap.get _ _ _) as [pending |]; [| split; [exact Hm | reflexivity]].
  pose proof (flushMessages_all pending member Hm) as H1.
  destruct (GroupCall.flushMessages member pending) as [[m' kept] effs].
  split; [exact H1 | reflexivity].
Qed.

Lemma addMember_all (g : GroupCall.GroupCall) (key : GroupCall.MemberKey)
    (u : string) (device : CallDeviceMembership) :
  allOf g ->
  all (GroupCall._members (fst (fst (GroupCall.addMember g key u device))))
  /\ P (snd (fst (GroupCall.addMember g key u device))).
Proof.
  intros [Hall Ho]. unfold GroupCall.addMember. rewrite Ho.
  assert (all (GroupCall._members (GroupCall.members_add g key (Member.new u device o))))
    as H1.
  { unfold GroupCall.members_add. destruct (JsMap.has _ _ _); [exact Hall |].
    cbn. apply Forall_app. split; [exact Hall |].
    constructor; [apply P_new | constructor]. }
  replace (GroupCall.joinedData (GroupCall.members_add g key (Member.new u device o)))
    with (GroupCall.joinedData g)
    by (unfold GroupCall.members_add; destruct (JsMap.has _ _ _); reflexivity).
  destruct (GroupCall.joinedData g) as [jd |]; [| split; [exact H1 | apply P_new]].
  unfold GroupCall.connectToMember.
  pose proof (P_connect (Member.new u device o) (Some (GroupCall.jd_localMedia jd))
                (MadeId (GroupCall.connects
                           (GroupCall.members_add g key (Member.new u device o))))
                (P_new u device)) as H2.
  destruct (Member.connect _ _ _) as [member' effs]. cbn [fst snd] in *.
  split; [| exact H2]. apply all_set; assumption.
Qed.

Lemma memberForDevice_all (g : GroupCall.GroupCall) (key : GroupCall.MemberKey)
    (u : string) (device : CallDeviceMembership) :
  allOf g ->
  all (GroupCall._members (fst (fst (GroupCall.memberForDevice g key u device))))
  /\ P (snd (fst (GroupCall.memberForDevice g key u device))).
Proof.
  intros [Hall Ho]. unfold GroupCall.memberForDevice.
  destruct (GroupCall.getMember g key) as [member |] eqn:G;
    [| apply addMember_all; split; assumption].
  pose proof (all_get _ _ _ Hall G) as Hm.
  destruct (String.eqb _ _).
  - cbn [fst snd]. split; [apply all_set; auto | auto].
  - pose proof (addMember_all (GroupCall.members_remove g key) key u device) as H1.
    destruct (GroupCall.addMember _ key u device) as [[g1 m1] effs]. cbn [fst snd] in *.
    apply H1. split; [apply all_delete; exact Hall | exact Ho].
Qed.

Lemma updateDeviceMembership_all (g : GroupCall.GroupCall) (userId u : string)
    (device : CallDeviceMembership) (deviceIndex eventTimestamp : nat) :
  allOf g ->
  allOf (fst (GroupCall.updateDeviceMembership g userId u device deviceIndex eventTimestamp)).
Proof.
  intros [Hall Ho]. split;
    [| rewrite (sameCall_memberOptions _ _ (updateDeviceMembership_sameCall _ _ _ _ _ _));
       exact Ho].
  unfold GroupCall.updateDeviceMembership.
  destruct (_ && _).
  - cbn. destruct (GroupCall.GroupCallState_eqb _ _); exact Hall.
  - pose proof (memberForDevice_all g (GroupCall.getMemberKey userId (device_id device))
                  u device (conj Hall Ho)) as [H1 H2].
    destruct (GroupCall.memberForDevice _ _ _ _) as [[g2 member] effs]. cbn [fst snd] in *.
    pose proof (flushPending_all g2 member H2) as [H3 H4].
    destruct (GroupCall.flushPendingIncomingDeviceMessages g2 member) as [[g3 member'] fl].
    cbn [fst snd] in *. apply all_set; [rewrite H4; exact H1 | exact H3].
Qed.

Lemma updateDevices_all (userId u : string) (devices : list CallDeviceMembership)
    (eventTimestamp : nat) :
  forall g deviceIndex,
    allOf g ->
    allOf (fst (GroupCall.updateDevices g userId u devices deviceIndex eventTimestamp)).
Proof.
  induction devices as [| device rest IH]; intros g i Hg; cbn [GroupCall.updateDevices].
  - exact Hg.
  - pose proof (updateDeviceMembership_all g userId u device i eventTimestamp Hg) as H1.
    destruct (GroupCall.updateDeviceMembership _ _ _ _ _ _) as [g1 effs1].
    pose proof (IH g1 (S i) H1) as H2.
    destruct (GroupCall.updateDevices _ _ _ _ _ _) as [g2 effs2]. exact H2.
Qed.

Lemma removeMemberDevices_all (userId : string) (deviceIds : list string) :
  forall g, allOf g -> allOf (fst (GroupCall.removeMemberDevices g userId deviceIds)).
Proof.
  induction deviceIds as [| d rest IH]; intros g Hg; cbn [GroupCall.removeMemberDevices].
  - exact Hg.
  - assert (allOf (fst (GroupCall.removeMemberDevice g userId d))) as H1.
    { destruct Hg as [Hall Ho]. unfold GroupCall.removeMemberDevice.
      destruct (GroupCall.getMember _ _); cbn; split; auto using all_delete. }
    destruct (GroupCall.removeMemberDevice g userId d) as [g1 effs1].
    pose proof (IH g1 H1) as H2.
    destruct (GroupCall.removeMemberDevices g1 userId rest) as [g2 effs2]. exact H2.
Qed.

Lemma disconnect_all (g : GroupCall.GroupCall) :
  allOf g -> allOf (fst (GroupCall.disconnect g)).
Proof.
  intros [Hall Ho]. unfold GroupCall.disconnect.
  destruct (GroupCall.GroupCallState_eqb _ _); cbn; split; auto.
  apply (all_map (fun m => fst (Member.disconnect m true))); [| exact Hall].
  intros m Hm. exact (P_disconnect m true Hm).
Qed.

Lemma connectToMembers_all (members : list (GroupCall.MemberKey * Member.Member))
    (jd : GroupCall.JoinedData) :
  all members ->
  forall g, allOf g -> allOf (fst (GroupCall.connectToMembers g members jd)).
Proof.
  induction 1 as [| km rest Hkm _ IH]; intros g Hg; cbn [GroupCall.connectToMembers].
  - exact Hg.
  - unfold GroupCall.connectToMember.
    pose proof (P_connect (snd km) (Some (GroupCall.jd_localMedia jd))
                  (MadeId (GroupCall.connects g)) Hkm) as H1.
    destruct (Member.connect _ _ _) as [member' effs]. cbn [fst] in H1.
    match goal with
    | |- context [GroupCall.connectToMembers ?g1 rest jd] =>
        pose proof (IH g1) as H2; destruct (GroupCall.connectToMembers g1 rest jd)
    end.
    apply H2. destruct Hg as [Hall Ho]. split; [apply all_set; assumption | exact Ho].
Qed.

Lemma step_all (g g' : GroupCall.GroupCall) :
  GroupCall.Step g g' -> allOf g -> allOf g'.
Proof.
  intros St Hg.
  split; [| rewrite (sameCall_memberOptions _ _ (step_sameCall _ _ St)); apply Hg].
  destruct St.
  - unfold GroupCall.create_start. destruct (GroupCall.GroupCallState_eqb _ _); apply Hg.
  - apply Hg.
  - unfold GroupCall.updateCallEvent. cbn.
    destruct (GroupCall.GroupCallState_eqb _ _); apply Hg.
  - apply Hg.
  - unfold GroupCall.join_sendState.
    destruct (GroupCall._createJoinPayload _ _). apply Hg.
  - unfold GroupCall.join_connect.
    pose proof (connectToMembers_all (GroupCall._members g) jd (proj1 Hg) g Hg) as H1.
    destruct (GroupCall.connectToMembers _ _ _). apply H1.
  - unfold GroupCall.setMedia.
    destruct (GroupCall.hasJoined g); [| apply Hg].
    destruct (GroupCall.joinedData g); [| apply Hg].
    cbn. apply (all_map (fun m => fst (fst (Member.setMedia_start m media)))); [| apply Hg].
    intros m Hm. exact (P_setMedia m media Hm).
  - apply disconnect_all, Hg.
  - unfold GroupCall.updateMembership.
    pose proof (updateDevices_all userId userId devices eventTimestamp g 0 Hg) as H1.
    destruct (GroupCall.updateDevices _ _ _ _ _ _) as [g1 effs1].
    match goal with
    | |- context [GroupCall.removeMemberDevices g1 userId ?l] =>
        pose proof (removeMemberDevices_all userId l g1 H1) as H2;
        destruct (GroupCall.removeMemberDevices g1 userId l) as [g2 effs2]
    end.
    cbn [fst] in *.
    destruct (_ && _); [| apply H2].
    pose proof (disconnect_all g2 H2) as H3. unfold GroupCall.removeOwnDevice.
    destruct (GroupCall.disconnect g2). apply H3.
  - unfold GroupCall.removeMembership.
    match goal with
    | |- context [GroupCall.removeMemberDevices g userId ?l] =>
        pose proof (removeMemberDevices_all userId l g Hg) as H1;
        destruct (GroupCall.removeMemberDevices g userId l) as [g1 effs1]
    end.
    cbn [fst] in *.
    destruct (String.eqb _ _); [| apply H1].
    pose proof (disconnect_all g1 H1) as H2. unfold GroupCall.removeOwnDevice.
    destruct (GroupCall.disconnect g1). apply H2.
  - unfold GroupCall.handleDeviceMessage. cbv zeta.
    destruct (GroupCall.getMember _ _) as [member |] eqn:G; [| apply Hg].
    destruct (String.eqb _ _); [| apply Hg].
    pose proof (P_handleDeviceMessage member message (Member.deviceId member)
                  (all_get _ _ _ (proj1 Hg) G)) as H1.
    destruct (Member.handleDeviceMessage _ _ _). cbn [fst] in *.
    apply all_set; [apply Hg | exact H1].
  - cbn. apply all_set; [apply Hg |].
    apply P_emitUpdate. eapply all_get; [apply Hg | eassumption].
Qed.

End MembersAll.

Lemma emitUpdate_keeps_options (m : Member.Member) (pc : PeerCall) (c : CallId) :
  Member.options (fst (Member.emitUpdate m pc c)) = Member.options m.
Proof.
  unfold Member.emitUpdate, Member.retryAfterEnded.
  destruct (state pc); try reflexivity.
  destruct (hangupReason pc) as [r |]; [| reflexivity].
  destruct (negb _); [| reflexivity].
  destruct (Nat.leb _ 3); [| reflexivity].
  set (counted := Member.set_retryCount _ _).
  pose proof (connect_keeps_identity counted (Member.localMedia counted) c) as (_ & _ & Eo & _).
  destruct (Member.connect counted (Member.localMedia counted) c) as [m' effs].
  exact Eo.
Qed.

Lemma reachable_membersOfCall (g : GroupCall.GroupCall) :
  GroupCall.Reachable g -> membersOfCall g.
Proof.
  induction 1 as [| g g' _ IH St]; [constructor |].
  unfold membersOfCall in *.
  assert (Forall (fun km => Member.options (snd km) = GroupCall.memberOptions g)
            (GroupCall._members g')
          /\ GroupCall.memberOptions g' = GroupCall.memberOptions g) as [Hall Ho].
  { apply (step_all (fun m => Member.options m = GroupCall.memberOptions g)
             (GroupCall.memberOptions g)) with (g := g); try assumption; try reflexivity.
    - intros m media c E. rewrite <- E. apply connect_keeps_identity.
    - intros m hangup E. exact E.
    - intros m device E. exact E.
    - intros m pc c E. rewrite <- E. apply emitUpdate_keeps_options.
    - intros m message device E. rewrite <- E. apply handleDeviceMessage_keeps_identity.
    - intros m media E. exact E.
    - split; [exact IH | reflexivity]. }
  rewrite Ho. exact Hall.
Qed.

Lemma membersOfCall_get (g : GroupCall.GroupCall) (key : GroupCall.MemberKey)
    (member : Member.Member) :
  membersOfCall g -> GroupCall.getMember g key = Some member ->
  Member.options member = GroupCall.memberOptions g.
Proof.
  unfold membersOfCall, GroupCall.getMember.
  induction 1 as [| [k v] rest Hv _ IH]; simpl; [discriminate |].
  destruct (GroupCall.MemberKey_eqb key k); [| exact IH].
  intro E. injection E as <-. exact Hv.
Qed.

Lemma call_joining_reachable : GroupCall.Reachable call_joining.
Proof.
  replace call_joining
    with (fst (GroupCall.join_connect
                 (fst (GroupCall.join_sendState
                         (fst (GroupCall.join_install call_created 7)) None 50))
                 (GroupCall.mkJoinedData 7)))
    by reflexivity.
  eapply GroupCall.Reachable_step; [| apply GroupCall.Step_join_connect].
  eapply GroupCall.Reachable_step; [| apply GroupCall.Step_join_sendState].
  eapply GroupCall.Reachable_step; [| apply GroupCall.Step_join_install].
  apply GroupCall.Reachable_new.
Qed.

Lemma call_with_alice_reachable : GroupCall.Reachable call_with_alice.
Proof.
  replace call_with_alice
    with (fst (GroupCall.updateMembership call_joining "@a" "@a" [mkDevice "A1" "S1"] 60))
    by reflexivity.
  eapply GroupCall.Reachable_step;
    [apply call_joining_reachable | apply GroupCall.Step_updateMembership].
Qed.

(** ** Signalling between two ends *)

(** A message a member sends is accepted at the other end when each end
    knows the other's current session: the call there hands it to the
    member it holds for the sending device, without buffering, and that
    member does not ignore it; it reaches the PeerCall when the member
    holds one or the message is an Invite. The sending side stamps the own
    device and session and the session it knows of the receiver; the
    receiving side tests exactly these. *)
Theorem stamped_message_is_accepted_by_peer
    (sender : Member.Member) (message : SignallingMessage)
    (g : GroupCall.GroupCall) (receiver : Member.Member) :
  GroupCall.Reachable g ->
  let request := Signalling.sendSignallingMessage sender message in
  let fromUser := Member.ownUserId (Member.options sender) in
  let fromDevice := Signalling.content_device_id (Signalling.group_fields request) in
  session_id (Member.callDeviceMembership sender) = GroupCall.sessionId (GroupCall.options g) ->
  GroupCall.getMember g (GroupCall.getMemberKey fromUser fromDevice) = Some receiver ->
  GroupCall.member_sessionId receiver = Member.sessionId (Member.options sender) ->
  exists inner,
    snd (GroupCall.handleDeviceMessage g (Signalling.content request) fromUser fromDevice)
    = [GroupCall.OnMember (GroupCall.getMemberKey fromUser fromDevice)
         (GroupCall.Call_handleDeviceMessage (Signalling.content request)) inner]
    /\ (forall s t, ~ In (Member.Log_wrongSessionId s t) inner)
    /\ (msg_type message = Invite \/ Member.peerCall receiver <> None ->
        exists c,
          In (Member.PeerCall_handleIncomingSignallingMessage c
                (Signalling.content request) fromDevice) inner).
Proof.
  intros R request fromUser fromDevice Hdest Hget Hsess.
  pose proof (reachable_invariants g R) as [Keyed _].
  pose proof (reachable_membersOfCall g R) as Own.
  pose proof (membersKeyed_get g _ receiver Keyed Hget) as Hkey.
  pose proof (membersOfCall_get g _ receiver Own Hget) as Ho.
  assert (Member.deviceId receiver = fromDevice) as Hdev.
  { unfold GroupCall.keyOf, GroupCall.getMemberKey in Hkey. congruence. }
  rewrite (handleDeviceMessage_known g (Signalling.content request) fromUser fromDevice
             receiver Hget) by (symmetry; exact Hsess).
  cbn [snd]. rewrite Hkey, Hdev.
  eexists. split; [reflexivity |].
  unfold Member.handleDeviceMessage.
  replace (dest_session_id (Signalling.content request))
    with (Member.sessionId (Member.options receiver))
    by (rewrite Ho; cbn; symmetry; exact Hdest).
  rewrite String.eqb_refl. cbn [negb].
  replace (msg_type (Signalling.content request)) with (msg_type message) by reflexivity.
  destruct (Member.peerCall receiver) as [c |] eqn:Hp.
  - split.
    + intros s t. destruct (msg_type message); cbn; rewrite Hp; cbn;
        intros [F | [F | []]]; discriminate.
    + intros _. exists c.
      destruct (msg_type message); cbn; rewrite Hp; cbn; right; left; reflexivity.
  - split.
    + intros s t. destruct (msg_type message); cbn; try rewrite Hp; cbn;
        intuition discriminate.
    + intros [Hi | Hn]; [| contradiction]. rewrite Hi. cbn.
      eexists. right. right. left. reflexivity.
Qed.

Lemma stamped_message_is_accepted_by_peer_witness :
  exists inner,
    snd (GroupCall.handleDeviceMessage call_with_alice
           (Signalling.content (Signalling.sendSignallingMessage bob_seen_from_alice
                                  answer_c0)) "@a" "A1")
    = [GroupCall.OnMember (GroupCall.getMemberKey "@a" "A1")
         (GroupCall.Call_handleDeviceMessage
            (Signalling.content (Signalling.sendSignallingMessage bob_seen_from_alice
                                   answer_c0))) inner]
    /\ (forall s t, ~ In (Member.Log_wrongSessionId s t) inner)
    /\ (msg_type answer_c0 = Invite \/ Member.peerCall alice_S1 <> None ->
        exists c,
          In (Member.PeerCall_handleIncomingSignallingMessage c
                (Signalling.content (Signalling.sendSignallingMessage bob_seen_from_alice
                                       answer_c0)) "A1") inner).
Proof.
  apply (stamped_message_is_accepted_by_peer bob_seen_from_alice answer_c0
           call_with_alice alice_S1 call_with_alice_reachable); reflexivity.
Defined.

(** ** Messages buffered before the membership *)

Lemma handleDeviceMessage_cases (m : Member.Member) (message : SignallingMessage)
    (device : string) :
  Member.handleDeviceMessage m message device
  = if negb (String.eqb (dest_session_id message) (Member.sessionId (Member.options m)))
    then (m, [Member.SyncLog_refDetached;
              Member.Log_wrongSessionId (dest_session_id message) (msg_type message)])
    else match Member.peerCall m with
         | Some c =>
             (m, [Member.SyncLog_refDetached;
                  Member.PeerCall_handleIncomingSignallingMessage c message device])
         | None =>
             match msg_type message with
             | Invite =>
                 (Member.set_peerCall m (Some (WireId (call_id message))),
                  [Member.SyncLog_refDetached;
                   Member.PeerCall_new (WireId (call_id message));
                   Member.PeerCall_handleIncomingSignallingMessage
                     (WireId (call_id message)) message device])
             | _ => (m, [Member.SyncLog_refDetached])
             end
         end.
Proof.
  unfold Member.handleDeviceMessage.
  destruct (negb _); [reflexivity |].
  destruct (Member.peerCall m) as [c |] eqn:Hp;
    destruct (msg_type message); cbn; rewrite ?Hp; reflexivity.
Qed.

Lemma forwarded_app (a b : list GroupCall.Effect) :
  forwarded (a ++ b) = forwarded a ++ forwarded b.
Proof.
  induction a as [| e rest IH]; [reflexivity |].
  destruct e; cbn [forwarded app]; rewrite IH; try reflexivity.
  apply app_assoc.
Qed.

Lemma flushMessages_forwarded (pending : list SignallingMessage) :
  forall member,
    forwarded (snd (GroupCall.flushMessages member pending))
    = let taken :=
        filter (takenBy (GroupCall.member_sessionId member)
                  (Member.sessionId (Member.options member))) pending in
      match Member.peerCall member with
      | Some _ => taken
      | None => fromFirstInvite taken
      end.
Proof.
  induction pending as [| message rest IH]; intro member; cbn [GroupCall.flushMessages].
  - cbn. destruct (Member.peerCall member); reflexivity.
  - cbv zeta. cbn [filter].
    set (s := GroupCall.member_sessionId member) in *.
    set (o := Member.sessionId (Member.options member)) in *.
    replace (takenBy s o message)
      with (String.eqb (sender_session_id message) s
            && String.eqb (dest_session_id message) o) by reflexivity.
    destruct (String.eqb (sender_session_id message) s); cbn [andb].
    + rewrite handleDeviceMessage_cases. fold o.
      destruct (String.eqb (dest_session_id message) o); cbn [negb].
      * destruct (Member.peerCall member) as [c |] eqn:Hp.
        -- specialize (IH member). rewrite Hp in IH.
           destruct (GroupCall.flushMessages member rest) as [[m2 kept] effs'].
           cbn [snd forwarded memberForwarded app] in *. rewrite IH. reflexivity.
        -- destruct (msg_type message) eqn:Ht;
             try (specialize (IH member); rewrite Hp in IH;
                  destruct (GroupCall.flushMessages member rest) as [[m2 kept] effs'];
                  cbn [snd forwarded memberForwarded app fromFirstInvite] in *;
                  rewrite Ht; exact IH).
           specialize (IH (Member.set_peerCall member (Some (WireId (call_id message))))).
           destruct (GroupCall.flushMessages _ rest) as [[m2 kept] effs'].
           cbn [snd forwarded memberForwarded app fromFirstInvite] in *.
           rewrite Ht, IH. reflexivity.
      * specialize (IH member).
        destruct (GroupCall.flushMessages member rest) as [[m2 kept] effs'].
        cbn [snd forwarded memberForwarded app] in *. exact IH.
    + specialize (IH member).
      destruct (GroupCall.flushMessages member rest) as [[m2 kept] effs']. exact IH.
Qed.

Lemma flushPending_forwarded (g : GroupCall.GroupCall) (member : Member.Member) :
  forwarded (snd (GroupCall.flushPendingIncomingDeviceMessages g member))
  = let taken :=
      filter (takenBy (GroupCall.member_sessionId member)
                (Member.sessionId (Member.options member)))
        (GroupCall.buffered g (GroupCall.keyOf member)) in
    match Member.peerCall member with
    | Some _ => taken
    | None => fromFirstInvite taken
    end.
Proof.
  unfold GroupCall.flushPendingIncomingDeviceMessages, GroupCall.buffered.
  destruct (JsMap.get _ _ _) as [pending |].
  - pose proof (flushMessages_forwarded pending member) as F.
    destruct (GroupCall.flushMessages member pending) as [[m' kept] effs]. exact F.
  - cbn. destruct (Member.peerCall member); reflexivity.
Qed.

(** When the membership of a device that had no member arrives, the
    messages buffered for it in its session and addressed to the own
    session reach a PeerCall from the first Invite on; those before it are
    taken out of the buffer and lost. Only when the call is joined and this
    side initiates, so that [connect] has made the PeerCall before the
    flush, do all of them reach it. *)
Theorem early_messages_reach_call_from_first_invite
    (g : GroupCall.GroupCall) (userId : string) (device : CallDeviceMembership)
    (deviceIndex eventTimestamp : nat) :
  String.eqb userId (GroupCall.ownUserId (GroupCall.options g))
  && String.eqb (device_id device) (GroupCall.ownDeviceId (GroupCall.options g)) = false ->
  GroupCall.getMember g (GroupCall.getMemberKey userId (device_id device)) = None ->
  let taken :=
    filter (takenBy (session_id device) (GroupCall.sessionId (GroupCall.options g)))
      (GroupCall.buffered g (GroupCall.getMemberKey userId (device_id device))) in
  forwarded (snd (GroupCall.updateDeviceMembership g userId userId device
                    deviceIndex eventTimestamp))
  = if isJoinedData g
       && Member.shouldInitiateCall (Member.new userId device (GroupCall.memberOptions g))
    then taken
    else fromFirstInvite taken.
Proof.
  intros Hown Hget taken.
  unfold GroupCall.updateDeviceMembership. cbv zeta. rewrite Hown.
  unfold GroupCall.memberForDevice. rewrite Hget.
  unfold GroupCall.addMember, isJoinedData.
  set (made := Member.new userId device (GroupCall.memberOptions g)).
  set (key := GroupCall.getMemberKey userId (device_id device)) in *.
  assert (GroupCall.members_add g key made
          = GroupCall.set_members g (GroupCall._members g ++ [(key, made)])) as Ea.
  { unfold GroupCall.members_add, JsMap.has. unfold GroupCall.getMember in Hget.
    rewrite Hget. reflexivity. }
  rewrite Ea. cbn [GroupCall.joinedData GroupCall.set_members].
  destruct (GroupCall.joinedData g) as [jd |]; cbn [andb].
  - unfold GroupCall.connectToMember, Member.connect.
    replace (Member.shouldInitiateCall (Member.set_localMedia made _))
      with (Member.shouldInitiateCall made) by reflexivity.
    destruct (Member.shouldInitiateCall made).
    + match goal with
      | |- context [GroupCall.flushPendingIncomingDeviceMessages ?g2 ?m2] =>
          pose proof (flushPending_forwarded g2 m2) as F;
          destruct (GroupCall.flushPendingIncomingDeviceMessages g2 m2) as [[g3 m3] fl]
      end.
      cbn [snd]. rewrite forwarded_app. cbn [snd] in F. rewrite F. reflexivity.
    + match goal with
      | |- context [GroupCall.flushPendingIncomingDeviceMessages ?g2 ?m2] =>
          pose proof (flushPending_forwarded g2 m2) as F;
          destruct (GroupCall.flushPendingIncomingDeviceMessages g2 m2) as [[g3 m3] fl]
      end.
      cbn [snd]. rewrite forwarded_app. cbn [snd] in F. rewrite F. reflexivity.
  - match goal with
    | |- context [GroupCall.flushPendingIncomingDeviceMessages ?g2 ?m2] =>
        pose proof (flushPending_forwarded g2 m2) as F;
        destruct (GroupCall.flushPendingIncomingDeviceMessages g2 m2) as [[g3 m3] fl]
    end.
    cbn [snd]. rewrite forwarded_app. cbn [snd] in F. rewrite F. reflexivity.
Qed.

Lemma early_messages_reach_call_from_first_invite_witness :
  forwarded (snd (GroupCall.updateDeviceMembership call_with_early_messages "@a" "@a"
                    (mkDevice "A1" "SA") 0 10))
  = [invite_for_bob].
Proof.
  apply (early_messages_reach_call_from_first_invite call_with_early_messages "@a"
           (mkDevice "A1" "SA") 0 10); reflexivity.
Defined.

(** ** Which devices have a member *)

Lemma JsMap_get_In_keys {V : Type} (m : list (GroupCall.MemberKey * V))
    (k : GroupCall.MemberKey) :
  JsMap.get GroupCall.MemberKey_eqb m k <> None <-> In k (JsMap.keys m).
Proof.
  induction m as [| [k' v] rest IH]; simpl.
  - split; [intro N; contradiction N; reflexivity | intros []].
  - destruct (GroupCall.MemberKey_eqb k k') eqn:E.
    + apply MemberKey_eqb_eq in E. subst k'. split; [left; reflexivity | discriminate].
    + rewrite IH. split; [right; assumption |].
      intros [F | F]; [| exact F]. subst k'.
      rewrite (proj2 (MemberKey_eqb_eq k k) eq_refl) in E. discriminate.
Qed.

Lemma JsMap_get_map_values {V : Type} (f : V -> V) (m : list (GroupCall.MemberKey * V))
    (k : GroupCall.MemberKey) :
  JsMap.get GroupCall.MemberKey_eqb (map (fun kv => (fst kv, f (snd kv))) m) k
  = option_map f (JsMap.get GroupCall.MemberKey_eqb m k).
Proof.
  induction m as [| [k' v] rest IH]; simpl; [reflexivity |].
  destruct (GroupCall.MemberKey_eqb k k'); [reflexivity | exact IH].
Qed.

Lemma getDeviceIdsForUserId_In (g : GroupCall.GroupCall) (userId deviceId : string) :
  In deviceId (GroupCall.getDeviceIdsForUserId g userId)
  <-> GroupCall.getMember g (GroupCall.getMemberKey userId deviceId) <> None.
Proof.
  unfold GroupCall.getDeviceIdsForUserId, GroupCall.getMember.
  rewrite JsMap_get_In_keys, in_map_iff. split.
  - intros ([u d] & Ed & Hin). apply filter_In in Hin as [Hin Hu].
    unfold GroupCall.memberKeyIsForUser in Hu. apply String.eqb_eq in Hu.
    cbn in Ed, Hu. subst. exact Hin.
  - intro Hin. exists (userId, deviceId). split; [reflexivity |].
    apply filter_In. split; [exact Hin |].
    unfold GroupCall.memberKeyIsForUser. cbn. apply String.eqb_refl.
Qed.

Lemma hasDevice_In (deviceIds : list string) (deviceId : string) :
  GroupCall.hasDevice deviceIds deviceId = true <-> In deviceId deviceIds.
Proof.
  unfold GroupCall.hasDevice. rewrite existsb_exists. split.
  - intros (d & Hin & E). apply String.eqb_eq in E. subst. exact Hin.
  - intro Hin. exists deviceId. split; [exact Hin | apply String.eqb_refl].
Qed.

Lemma removeMemberDevice_members (g : GroupCall.GroupCall) (userId deviceId : string)
    (k : GroupCall.MemberKey) :
  GroupCall.getMember (fst (GroupCall.removeMemberDevice g userId deviceId)) k
  = if GroupCall.MemberKey_eqb k (GroupCall.getMemberKey userId deviceId)
    then None else GroupCall.getMember g k.
Proof.
  unfold GroupCall.removeMemberDevice.
  destruct (GroupCall.MemberKey_eqb k _) eqn:E.
  - apply MemberKey_eqb_eq in E. subst k.
    destruct (GroupCall.getMember g _) eqn:G; cbn [fst]; [| exact G].
    unfold GroupCall.getMember, GroupCall.members_remove. cbn.
    apply JsMap_get_delete_same.
  - destruct (GroupCall.getMember g (GroupCall.getMemberKey userId deviceId));
      cbn [fst]; [| reflexivity].
    unfold GroupCall.getMember, GroupCall.members_remove. cbn.
    apply (JsMap_get_delete_other _ MemberKey_eqb_eq).
    intro F. subst k. rewrite (proj2 (MemberKey_eqb_eq _ _) eq_refl) in E. discriminate.
Qed.

Lemma removeMemberDevices_members (userId : string) (deviceIds : list string)
    (k : GroupCall.MemberKey) :
  forall g,
    GroupCall.getMember (fst (GroupCall.removeMemberDevices g userId deviceIds)) k
    = if String.eqb (fst k) userId && GroupCall.hasDevice deviceIds (snd k)
      then None else GroupCall.getMember g k.
Proof.
  induction deviceIds as [| d rest IH]; intro g; cbn [GroupCall.removeMemberDevices].
  - unfold GroupCall.hasDevice. cbn. rewrite andb_false_r. reflexivity.
  - pose proof (removeMemberDevice_members g userId d k) as H1.
    destruct (GroupCall.removeMemberDevice g userId d) as [g1 effs1].
    specialize (IH g1).
    destruct (GroupCall.removeMemberDevices g1 userId rest) as [g2 effs2].
    cbn [fst] in *. rewrite IH, H1.
    unfold GroupCall.hasDevice, GroupCall.MemberKey_eqb, GroupCall.getMemberKey.
    cbn [existsb fst snd].
    destruct (String.eqb (fst k) userId); cbn [andb]; [| reflexivity].
    destruct (existsb _ rest); [rewrite orb_true_r; reflexivity |].
    rewrite orb_false_r. reflexivity.
Qed.

Lemma disconnect_members (g : GroupCall.GroupCall) (k : GroupCall.MemberKey) :
  GroupCall.getMember (fst (GroupCall.disconnect g)) k = None
  <-> GroupCall.getMember g k = None.
Proof.
  unfold GroupCall.disconnect, GroupCall.getMember.
  destruct (GroupCall.GroupCallState_eqb _ _); cbn; [| reflexivity].
  rewrite (JsMap_get_map_values (fun m => fst (Member.disconnect m true))).
  destruct (JsMap.get _ _ k); cbn; split; congruence.
Qed.

Lemma isOwnKey_iff (g : GroupCall.GroupCall) (userId deviceId : string) :
  String.eqb userId (GroupCall.ownUserId (GroupCall.options g))
  && String.eqb deviceId (GroupCall.ownDeviceId (GroupCall.options g)) = true
  <-> GroupCall.getMemberKey userId deviceId = ownKey g.
Proof.
  unfold ownKey, GroupCall.getMemberKey. rewrite andb_true_iff, !String.eqb_eq.
  split; [intros [-> ->]; reflexivity | intro E; injection E; auto].
Qed.

Lemma sameCall_ownKey (g g' : GroupCall.GroupCall) : sameCall g g' -> ownKey g' = ownKey g.
Proof. intros (_ & _ & Eo). unfold ownKey. rewrite Eo. reflexivity. Qed.

Lemma updateDeviceMembership_members (g : GroupCall.GroupCall) (userId : string)
    (device : CallDeviceMembership) (deviceIndex eventTimestamp : nat) :
  membersKeyed g ->
  let key := GroupCall.getMemberKey userId (device_id device) in
  let g' := fst (GroupCall.updateDeviceMembership g userId userId device
                   deviceIndex eventTimestamp) in
  membersKeyed g'
  /\ (forall k, k <> key -> GroupCall.getMember g' k = GroupCall.getMember g k)
  /\ (key <> ownKey g -> GroupCall.getMember g' key <> None)
  /\ (key = ownKey g -> GroupCall.getMember g' key = GroupCall.getMember g key).
Proof.
  intros Keyed key g'.
  destruct (String.eqb userId (GroupCall.ownUserId (GroupCall.options g))
            && String.eqb (device_id device) (GroupCall.ownDeviceId (GroupCall.options g)))
    eqn:Own.
  - assert (GroupCall._members g' = GroupCall._members g) as Em.
    { subst g'. unfold GroupCall.updateDeviceMembership. cbv zeta. rewrite Own.
      cbn. destruct (GroupCall.GroupCallState_eqb _ _); reflexivity. }
    apply isOwnKey_iff in Own. fold key in Own.
    split; [unfold membersKeyed; rewrite Em; exact Keyed |].
    split; [intros; unfold GroupCall.getMember; rewrite Em; reflexivity |].
    split; [intro N; contradiction |].
    intros _. unfold GroupCall.getMember. rewrite Em. reflexivity.
  - pose proof (updateDeviceMembership_flushes g userId device deviceIndex eventTimestamp
                  Keyed Own) as (_ & _ & _ & (member & Hm & _) & Hframe & Keyed').
    fold key in Hm, Hframe. fold g' in Hm, Hframe, Keyed'.
    repeat split; auto.
    + intros _. rewrite Hm. discriminate.
    + intro E. apply isOwnKey_iff in E. rewrite E in Own. discriminate.
Qed.

Lemma updateDevices_members (userId : string) (devices : list CallDeviceMembership)
    (eventTimestamp : nat) (k : GroupCall.MemberKey) :
  forall g deviceIndex,
    membersKeyed g ->
    let g' := fst (GroupCall.updateDevices g userId userId devices deviceIndex
                     eventTimestamp) in
    (fst k = userId -> In (snd k) (map device_id devices) -> k <> ownKey g ->
     GroupCall.getMember g' k <> None)
    /\ (~ (fst k = userId /\ In (snd k) (map device_id devices)) ->
        GroupCall.getMember g' k = GroupCall.getMember g k)
    /\ (GroupCall.getMember g k <> None -> GroupCall.getMember g' k <> None).
Proof.
  induction devices as [| device rest IH]; intros g i Keyed;
    cbn [GroupCall.updateDevices map].
  - cbn. repeat split; auto.
  - pose proof (updateDeviceMembership_members g userId device i eventTimestamp Keyed)
      as (Keyed1 & Hframe & Hmade & Hown).
    pose proof (updateDeviceMembership_sameCall g userId userId device i eventTimestamp)
      as Same.
    destruct (GroupCall.updateDeviceMembership g userId userId device i eventTimestamp)
      as [g1 effs1].
    specialize (IH g1 (S i) Keyed1).
    destruct (GroupCall.updateDevices g1 userId userId rest (S i) eventTimestamp)
      as [g2 effs2].
    cbn [fst] in *. destruct IH as (IHa & IHb & IHc).
    rewrite (sameCall_ownKey _ _ Same) in IHa.
    assert (GroupCall.getMember g k <> None -> GroupCall.getMember g1 k <> None) as Mono.
    { intro Hk.
      destruct (GroupCall.MemberKey_eqb k (GroupCall.getMemberKey userId (device_id device)))
        eqn:E.
      - apply MemberKey_eqb_eq in E. subst k.
        destruct (GroupCall.MemberKey_eqb
                    (GroupCall.getMemberKey userId (device_id device)) (ownKey g)) eqn:E'.
        + apply MemberKey_eqb_eq in E'. rewrite (Hown E'). exact Hk.
        + apply Hmade. intro F. rewrite F in E'.
          rewrite (proj2 (MemberKey_eqb_eq _ _) eq_refl) in E'. discriminate.
      - rewrite Hframe; [exact Hk |]. intro F. subst k.
        rewrite (proj2 (MemberKey_eqb_eq _ _) eq_refl) in E. discriminate. }
    repeat split.
    + intros Hu [Hd | Hin] Hn.
      * apply IHc. assert (k = GroupCall.getMemberKey userId (device_id device)) as ->.
        { destruct k as [u d]. cbn in *. subst. reflexivity. }
        apply Hmade. exact Hn.
      * apply IHa; assumption.
    + intro Hn. rewrite IHb.
      * apply Hframe. intro F. apply Hn. subst k. cbn. split; [reflexivity | left; reflexivity].
      * intros [Hu Hin]. apply Hn. split; [exact Hu | right; exact Hin].
    + intro Hk. apply IHc, Mono, Hk.
Qed.

(** [updateMembership] reconciles the members of a user with the devices
    the member event lists: afterwards a device of that user other than the
    own one has a member exactly when the event lists it, and the members
    of every other user are there exactly as before. *)
Theorem updateMembership_reconciles_devices
    (g : GroupCall.GroupCall) (userId : string) (devices : list CallDeviceMembership)
    (eventTimestamp : nat) (k : GroupCall.MemberKey) :
  GroupCall.Reachable g ->
  k <> ownKey g ->
  let g' := fst (GroupCall.updateMembership g userId userId devices eventTimestamp) in
  GroupCall.getMember g' k <> None
  <-> if String.eqb (fst k) userId
      then In (snd k) (map device_id devices)
      else GroupCall.getMember g k <> None.
Proof.
  intros R Hk g'. pose proof (reachable_invariants g R) as [Keyed _].
  subst g'. unfold GroupCall.updateMembership.
  pose proof (updateDevices_members userId devices eventTimestamp k g 0 Keyed)
    as (Ha & Hb & _).
  destruct (GroupCall.updateDevices g userId userId devices 0 eventTimestamp) as [g1 effs1].
  match goal with
  | |- context [GroupCall.removeMemberDevices g1 userId ?l] =>
      pose proof (removeMemberDevices_members userId l k g1) as Hr;
      pose proof (fun d => filter_In
                    (fun p => negb (GroupCall.hasDevice (map device_id devices) p)) d
                    (GroupCall.getDeviceIdsForUserId g userId)) as Hf;
      destruct (GroupCall.removeMemberDevices g1 userId l) as [g2 effs2]
  end.
  cbn [fst] in *.
  assert (GroupCall.getMember g2 k <> None
          <-> if String.eqb (fst k) userId
              then In (snd k) (map device_id devices)
              else GroupCall.getMember g k <> None) as Main.
  { rewrite Hr. destruct (String.eqb (fst k) userId) eqn:Eu; cbn [andb].
    - apply String.eqb_eq in Eu.
      destruct (GroupCall.hasDevice (map device_id devices) (snd k)) eqn:Hnew.
      + apply hasDevice_In in Hnew.
        match goal with
        | |- context [GroupCall.hasDevice ?l (snd k)] =>
            destruct (GroupCall.hasDevice l (snd k)) eqn:Hrem
        end.
        * apply hasDevice_In, Hf in Hrem. destruct Hrem as [_ Hrem].
          apply negb_true_iff in Hrem.
          rewrite (proj2 (hasDevice_In _ _) Hnew) in Hrem. discriminate.
        * split; [intros _; exact Hnew | intros _; apply Ha; assumption].
      + assert (~ In (snd k) (map device_id devices)) as Hnot.
        { intro F. apply hasDevice_In in F. rewrite F in Hnew. discriminate. }
        match goal with
        | |- context [GroupCall.hasDevice ?l (snd k)] =>
            destruct (GroupCall.hasDevice l (snd k)) eqn:Hrem
        end.
        * split; [intro F; contradiction F; reflexivity | intro F; contradiction].
        * rewrite Hb by (intros [_ F]; contradiction).
          split; [| intro F; contradiction].
          intro Hhas. exfalso.
          assert (GroupCall.hasDevice
                    (filter (fun p => negb (GroupCall.hasDevice (map device_id devices) p))
                       (GroupCall.getDeviceIdsForUserId g userId)) (snd k) = true) as T.
          { apply hasDevice_In, Hf. split.
            - apply getDeviceIdsForUserId_In. destruct k as [u d]. cbn in *. subst u.
              exact Hhas.
            - rewrite Hnew. reflexivity. }
          rewrite T in Hrem. discriminate.
    - rewrite Hb; [reflexivity |].
      intros [F _]. rewrite F, String.eqb_refl in Eu. discriminate. }
  clear Hr.
  destruct (String.eqb userId (GroupCall.ownUserId (GroupCall.options g2)) && negb _);
    cbn [fst]; [| exact Main].
  unfold GroupCall.removeOwnDevice. rewrite <- Main.
  pose proof (disconnect_members g2 k) as Hd.
  destruct (GroupCall.disconnect g2) as [g3 effs3]. cbn [fst] in *.
  split; intros N F; apply N; apply Hd; exact F.
Qed.

Lemma updateMembership_reconciles_devices_witness :
  GroupCall.getMember
    (fst (GroupCall.updateMembership call_with_alice "@a" "@a"
            [mkDevice "A2" "S2"; mkDevice "A3" "S3"] 70)) ("@a", "A1") <> None
  <-> In "A1" (map device_id [mkDevice "A2" "S2"; mkDevice "A3" "S3"]).
Proof.
  apply (updateMembership_reconciles_devices call_with_alice "@a"
           [mkDevice "A2" "S2"; mkDevice "A3" "S3"] 70 ("@a", "A1")
           call_with_alice_reachable).
  discriminate.
Defined.

(** [removeMembership] leaves no member of the user, whatever devices it
    had, and the members of every other user as they were. *)
Theorem removeMembership_removes_every_device
    (g : GroupCall.GroupCall) (userId : string) (k : GroupCall.MemberKey) :
  GroupCall.getMember (fst (GroupCall.removeMembership g userId)) k <> None
  <-> fst k <> userId /\ GroupCall.getMember g k <> None.
Proof.
  unfold GroupCall.removeMembership.
  pose proof (removeMemberDevices_members userId
                (GroupCall.getDeviceIdsForUserId g userId) k g) as Hr.
  destruct (GroupCall.removeMemberDevices g userId _) as [g1 effs1]. cbn [fst] in Hr.
  assert (GroupCall.getMember g1 k <> None
          <-> fst k <> userId /\ GroupCall.getMember g k <> None) as Main.
  { rewrite Hr. destruct (String.eqb (fst k) userId) eqn:Eu; cbn [andb].
    - apply String.eqb_eq in Eu.
      destruct (GroupCall.hasDevice _ (snd k)) eqn:Hd.
      + split; [intro F; contradiction F; reflexivity | intros [F _]; contradiction].
      + split; [| intros [F _]; contradiction].
        intro Hhas. exfalso.
        assert (GroupCall.hasDevice (GroupCall.getDeviceIdsForUserId g userId) (snd k) = true)
          as T.
        { apply hasDevice_In, getDeviceIdsForUserId_In.
          destruct k as [u d]. cbn in *. subst u. exact Hhas. }
        rewrite T in Hd. discriminate.
    - split; [intro H; split; [| exact H] | intros [_ H]; exact H].
      intro F. rewrite F, String.eqb_refl in Eu. discriminate. }
  destruct (String.eqb userId _); cbn [fst]; [| exact Main].
  unfold GroupCall.removeOwnDevice. rewrite <- Main.
  pose proof (disconnect_members g1 k) as Hd.
  destruct (GroupCall.disconnect g1) as [g2 effs2]. cbn [fst] in *.
  split; intros N F; apply N; apply Hd; exact F.
Qed.

(** ** A member event that comes again *)

Lemma JsMap_set_unchanged {V : Type} (m : list (GroupCall.MemberKey * V))
    (k : GroupCall.MemberKey) (v : V) :
  JsMap.get GroupCall.MemberKey_eqb m k = Some v ->
  JsMap.set GroupCall.MemberKey_eqb m k v = m.
Proof.
  induction m as [| [k' v'] rest IH]; simpl; [discriminate |].
  destruct (GroupCall.MemberKey_eqb k k').
  - intro E. injection E as ->. reflexivity.
  - intro E. rewrite (IH E). reflexivity.
Qed.

Lemma storeMember_unchanged (g : GroupCall.GroupCall) (k : GroupCall.MemberKey)
    (m : Member.Member) :
  GroupCall.getMember g k = Some m -> GroupCall.storeMember g k m = g.
Proof.
  intro G. unfold GroupCall.storeMember. unfold GroupCall.getMember in G.
  rewrite (JsMap_set_unchanged _ _ _ G). destruct g. reflexivity.
Qed.

Lemma flushMessages_of_other_sessions (pending : list SignallingMessage)
    (member : Member.Member) :
  Forall (fun x => forSession (GroupCall.member_sessionId member) x = false) pending ->
  GroupCall.flushMessages member pending = (member, pending, []).
Proof.
  induction 1 as [| message rest Hm _ IH]; cbn [GroupCall.flushMessages]; [reflexivity |].
  unfold forSession in Hm. rewrite Hm, IH. reflexivity.
Qed.

Lemma flushPending_leaves_no_empty_set (g : GroupCall.GroupCall) (member : Member.Member) :
  JsMap.get GroupCall.MemberKey_eqb
    (GroupCall.bufferedDeviceMessages
       (fst (fst (GroupCall.flushPendingIncomingDeviceMessages g member))))
    (GroupCall.keyOf member) <> Some [].
Proof.
  unfold GroupCall.flushPendingIncomingDeviceMessages.
  destruct (JsMap.get GroupCall.MemberKey_eqb (GroupCall.bufferedDeviceMessages g)
              (GroupCall.keyOf member)) as [pending |] eqn:G;
    [| cbn [fst]; rewrite G; discriminate].
  destruct (GroupCall.flushMessages member pending) as [[m' kept] effs].
  cbn [fst GroupCall.bufferedDeviceMessages GroupCall.set_buffered].
  destruct kept as [| x kept].
  - rewrite JsMap_get_delete_same. discriminate.
  - rewrite (JsMap_get_set_same _ MemberKey_eqb_eq). discriminate.
Qed.

Lemma updateDeviceMembership_result (g : GroupCall.GroupCall) (userId : string)
    (device : CallDeviceMembership) (deviceIndex eventTimestamp : nat) :
  membersKeyed g ->
  String.eqb userId (GroupCall.ownUserId (GroupCall.options g))
  && String.eqb (device_id device) (GroupCall.ownDeviceId (GroupCall.options g)) = false ->
  let key := GroupCall.getMemberKey userId (device_id device) in
  let g1 := fst (GroupCall.updateDeviceMembership g userId userId device
                   deviceIndex eventTimestamp) in
  exists member,
    GroupCall.getMember g1 key = Some member
    /\ GroupCall.keyOf member = key
    /\ Member.callDeviceMembership member = device
    /\ JsMap.get GroupCall.MemberKey_eqb (GroupCall.bufferedDeviceMessages g1) key
       <> Some []
    /\ Forall (fun x => forSession (session_id device) x = false) (GroupCall.buffered g1 key).
Proof.
  intros Keyed Own key g1.
  pose proof (updateDeviceMembership_flushes g userId device deviceIndex eventTimestamp
                Keyed Own) as (_ & Hb & _ & (member & Hm & Hk & Hs) & _ & _).
  fold key in Hb, Hm, Hk. fold g1 in Hb, Hm.
  exists member. split; [exact Hm |]. split; [exact Hk |].
  split; [| split].
  - unfold GroupCall.keyOf, GroupCall.getMemberKey, Member.deviceId, key in Hk.
    unfold GroupCall.member_sessionId in Hs.
    destruct (Member.callDeviceMembership member) as [d s], device as [d' s'].
    cbn [device_id session_id] in Hk, Hs. injection Hk as _ Hk'. subst. reflexivity.
  - subst g1. unfold GroupCall.updateDeviceMembership. cbv zeta. rewrite Own. fold key.
    destruct (GroupCall.memberForDevice g key userId device) as [[g2 member0] effs] eqn:M.
    destruct (memberForDevice_spec _ _ _ _ _ _ Keyed M) as (Hk0 & _).
    fold key in Hk0.
    pose proof (flushPending_leaves_no_empty_set g2 member0) as Hne.
    destruct (GroupCall.flushPendingIncomingDeviceMessages g2 member0)
      as [[g3 member'] flushed].
    rewrite Hk0 in Hne. exact Hne.
  - rewrite Hb. apply Forall_forall. intros x Hx. apply filter_In in Hx as [_ Hx].
    apply negb_true_iff in Hx. exact Hx.
Qed.

(** A member event that lists a device again, in the same session, right
    after it was handled changes nothing: the call is the same, the member
    is told its call info and is neither connected again nor handed any
    buffered message. *)
Theorem updateDeviceMembership_again_changes_nothing
    (g : GroupCall.GroupCall) (userId : string) (device : CallDeviceMembership)
    (deviceIndex eventTimestamp deviceIndex' eventTimestamp' : nat) :
  GroupCall.Reachable g ->
  String.eqb userId (GroupCall.ownUserId (GroupCall.options g))
  && String.eqb (device_id device) (GroupCall.ownDeviceId (GroupCall.options g)) = false ->
  let g1 := fst (GroupCall.updateDeviceMembership g userId userId device
                   deviceIndex eventTimestamp) in
  GroupCall.updateDeviceMembership g1 userId userId device deviceIndex' eventTimestamp'
  = (g1, [GroupCall.OnMember (GroupCall.getMemberKey userId (device_id device))
            (GroupCall.Call_updateCallInfo device) []]).
Proof.
  intros R Own g1. pose proof (reachable_invariants g R) as [Keyed _].
  pose proof (updateDeviceMembership_result g userId device deviceIndex eventTimestamp
                Keyed Own) as (member & Hm & Hk & Hd & Hne & Hall).
  pose proof (updateDeviceMembership_sameCall g userId userId device deviceIndex
                eventTimestamp) as (_ & _ & Eo).
  fold g1 in Hm, Hne, Hall, Eo.
  set (key := GroupCall.getMemberKey userId (device_id device)) in *.
  unfold GroupCall.updateDeviceMembership. cbv zeta. rewrite Eo, Own. fold key.
  unfold GroupCall.memberForDevice. rewrite Hm.
  unfold GroupCall.member_sessionId at 1. rewrite Hd, String.eqb_refl.
  assert (Member.updateCallInfo member device = member) as Eu.
  { unfold Member.updateCallInfo. rewrite <- Hd. destruct member. reflexivity. }
  rewrite Eu, (storeMember_unchanged g1 key member Hm), Hk.
  assert (GroupCall.flushPendingIncomingDeviceMessages g1 member = (g1, member, [])) as Ef.
  { unfold GroupCall.flushPendingIncomingDeviceMessages. rewrite Hk.
    unfold GroupCall.buffered in Hall.
    destruct (JsMap.get GroupCall.MemberKey_eqb (GroupCall.bufferedDeviceMessages g1) key)
      as [pending |] eqn:G; [| reflexivity].
    rewrite (flushMessages_of_other_sessions pending member)
      by (unfold GroupCall.member_sessionId; rewrite Hd; exact Hall).
    destruct pending as [| x pending]; [contradiction Hne; reflexivity |].
    rewrite (JsMap_set_unchanged _ _ _ G). destruct g1; reflexivity. }
  rewrite Ef, (storeMember_unchanged g1 key member Hm). reflexivity.
Qed.

Lemma updateDeviceMembership_again_changes_nothing_witness :
  GroupCall.updateDeviceMembership call_with_alice "@a" "@a" (mkDevice "A1" "S1") 0 61
  = (call_with_alice,
     [GroupCall.OnMember (GroupCall.getMemberKey "@a" "A1")
        (GroupCall.Call_updateCallInfo (mkDevice "A1" "S1")) []]).
Proof.
  apply (updateDeviceMembership_again_changes_nothing call_joining "@a"
           (mkDevice "A1" "S1") 0 60 0 61 call_joining_reachable).
  reflexivity.
Defined.

(** ** The lifecycle *)

Lemma sameStage_refl (g : GroupCall.GroupCall) : sameStage g g.
Proof. split; reflexivity. Qed.

Lemma sameStage_trans (g1 g2 g3 : GroupCall.GroupCall) :
  sameStage g1 g2 -> sameStage g2 g3 -> sameStage g1 g3.
Proof. intros [A1 A2] [B1 B2]. split; congruence. Qed.

Lemma flushPending_sameStage (g : GroupCall.GroupCall) (member : Member.Member) :
  sameStage g (fst (fst (GroupCall.flushPendingIncomingDeviceMessages g member))).
Proof.
  unfold GroupCall.flushPendingIncomingDeviceMessages.
  destruct (JsMap.get _ _ _) as [pending |]; [| apply sameStage_refl].
  destruct (GroupCall.flushMessages member pending) as [[m' kept] effs].
  split; reflexivity.
Qed.

Lemma addMember_sameStage (g : GroupCall.GroupCall) (key : GroupCall.MemberKey)
    (u : string) (device : CallDeviceMembership) :
  sameStage g (fst (fst (GroupCall.addMember g key u device))).
Proof.
  unfold GroupCall.addMember, GroupCall.members_add, GroupCall.connectToMember.
  destruct (JsMap.has _ _ _); cbn;
    destruct (GroupCall.joinedData g); cbn; try destruct (Member.connect _ _ _);
    split; reflexivity.
Qed.

Lemma memberForDevice_sameStage (g : GroupCall.GroupCall) (key : GroupCall.MemberKey)
    (u : string) (device : CallDeviceMembership) :
  sameStage g (fst (fst (GroupCall.memberForDevice g key u device))).
Proof.
  unfold GroupCall.memberForDevice.
  destruct (GroupCall.getMember g key) as [member |]; [| apply addMember_sameStage].
  destruct (String.eqb _ _); [split; reflexivity |].
  pose proof (addMember_sameStage (GroupCall.members_remove g key) key u device) as S.
  destruct (GroupCall.addMember _ key u device) as [[g1 m1] effs]. exact S.
Qed.

Lemma updateDeviceMembership_stage (g : GroupCall.GroupCall) (userId u : string)
    (device : CallDeviceMembership) (deviceIndex eventTimestamp : nat) :
  let g' := fst (GroupCall.updateDeviceMembership g userId u device
                   deviceIndex eventTimestamp) in
  GroupCall.joinedData g' = GroupCall.joinedData g
  /\ (GroupCall._state g' = GroupCall._state g
      \/ GroupCall._state g = GroupCall.Joining /\ GroupCall._state g' = GroupCall.Joined).
Proof.
  unfold GroupCall.updateDeviceMembership. cbv zeta.
  destruct (_ && _).
  - cbn. destruct (GroupCall._state g) eqn:E; cbn; rewrite ?E; split; auto.
  - pose proof (memberForDevice_sameStage g
                  (GroupCall.getMemberKey userId (device_id device)) u device) as S1.
    destruct (GroupCall.memberForDevice _ _ _ _) as [[g2 member] effs].
    pose proof (flushPending_sameStage g2 member) as S2.
    destruct (GroupCall.flushPendingIncomingDeviceMessages g2 member) as [[g3 member'] fl].
    cbn [fst] in *. destruct (sameStage_trans _ _ _ S1 S2) as [A B].
    cbn. split; [exact B | left; exact A].
Qed.

Lemma updateDevices_stage (userId u : string) (devices : list CallDeviceMembership)
    (eventTimestamp : nat) :
  forall g deviceIndex,
    let g' := fst (GroupCall.updateDevices g userId u devices deviceIndex eventTimestamp) in
    GroupCall.joinedData g' = GroupCall.joinedData g
    /\ (GroupCall._state g' = GroupCall._state g
        \/ GroupCall._state g = GroupCall.Joining /\ GroupCall._state g' = GroupCall.Joined).
Proof.
  induction devices as [| device rest IH]; intros g i; cbn [GroupCall.updateDevices].
  - cbn. auto.
  - pose proof (updateDeviceMembership_stage g userId u device i eventTimestamp) as [J1 S1].
    destruct (GroupCall.updateDeviceMembership _ _ _ _ _ _) as [g1 effs1].
    pose proof (IH g1 (S i)) as [J2 S2].
    destruct (GroupCall.updateDevices _ _ _ _ _ _) as [g2 effs2].
    cbn [fst] in *. split; [congruence |].
    destruct S1 as [S1 | [S1 S1']], S2 as [S2 | [S2 S2']]; try (left; congruence);
      try (right; split; congruence).
Qed.

Lemma removeMemberDevices_sameStage (userId : string) (deviceIds : list string) :
  forall g, sameStage g (fst (GroupCall.removeMemberDevices g userId deviceIds)).
Proof.
  induction deviceIds as [| d rest IH]; intro g; cbn [GroupCall.removeMemberDevices].
  - apply sameStage_refl.
  - assert (sameStage g (fst (GroupCall.removeMemberDevice g userId d))) as S1.
    { unfold GroupCall.removeMemberDevice. destruct (GroupCall.getMember _ _);
        split; reflexivity. }
    destruct (GroupCall.removeMemberDevice g userId d) as [g1 effs1].
    pose proof (IH g1) as S2.
    destruct (GroupCall.removeMemberDevices g1 userId rest) as [g2 effs2].
    cbn [fst] in *. eapply sameStage_trans; eassumption.
Qed.

Lemma connectToMembers_sameStage (members : list (GroupCall.MemberKey * Member.Member))
    (jd : GroupCall.JoinedData) :
  forall g, sameStage g (fst (GroupCall.connectToMembers g members jd)).
Proof.
  induction members as [| km rest IH]; intro g; cbn [GroupCall.connectToMembers].
  - apply sameStage_refl.
  - unfold GroupCall.connectToMember.
    destruct (Member.connect _ _ _) as [member' effs].
    match goal with
    | |- context [GroupCall.connectToMembers ?g1 rest jd] =>
        pose proof (IH g1) as S1; destruct (GroupCall.connectToMembers g1 rest jd)
    end.
    cbn [fst] in *. eapply sameStage_trans; [| exact S1]. split; reflexivity.
Qed.

Lemma step_state (g g' : GroupCall.GroupCall) :
  GroupCall.Step g g' ->
  (GroupCall._state g' = GroupCall.Fledgling -> GroupCall._state g = GroupCall.Fledgling)
  /\ (GroupCall._state g' = GroupCall.Creating ->
      GroupCall._state g = GroupCall.Fledgling \/ GroupCall._state g = GroupCall.Creating)
  /\ (GroupCall._state g' = GroupCall.Joined ->
      GroupCall._state g = GroupCall.Joining \/ GroupCall._state g = GroupCall.Joined).
Proof.
  assert (forall s s' : GroupCall.GroupCallState,
             s' = s \/ s = GroupCall.Joining /\ s' = GroupCall.Joined
             \/ s = GroupCall.Joined /\ s' = GroupCall.Created
             \/ s = GroupCall.Joining /\ s' = GroupCall.Created ->
             (s' = GroupCall.Fledgling -> s = GroupCall.Fledgling)
             /\ (s' = GroupCall.Creating -> s = GroupCall.Fledgling \/ s = GroupCall.Creating)
             /\ (s' = GroupCall.Joined -> s = GroupCall.Joining \/ s = GroupCall.Joined))
    as Sync.
  { intros s s' [E | [[E E'] | [[E E'] | [E E']]]]; subst;
      repeat split; intro F; try discriminate; auto. }
  assert (forall g0,
             let s := GroupCall._state g0 in
             let s' := GroupCall._state (fst (GroupCall.disconnect g0)) in
             s' = s \/ s = GroupCall.Joined /\ s' = GroupCall.Created) as Disc.
  { intro g0. cbv zeta. destruct (disconnect_spec g0) as (_ & _ & _ & E). rewrite E.
    destruct (GroupCall._state g0); cbn; auto. }
  intro St. destruct St.
  - unfold GroupCall.create_start.
    destruct (GroupCall._state g) eqn:E; cbn; rewrite ?E;
      repeat split; intro F; try discriminate; auto.
  - cbn. repeat split; intro F; discriminate.
  - unfold GroupCall.updateCallEvent. cbn.
    destruct (GroupCall._state g) eqn:E; cbn; rewrite ?E;
      repeat split; intro F; try discriminate; auto.
  - cbn. repeat split; intro F; discriminate.
  - unfold GroupCall.join_sendState. destruct (GroupCall._createJoinPayload _ _).
    cbn. apply Sync. left. reflexivity.
  - unfold GroupCall.join_connect.
    pose proof (connectToMembers_sameStage (GroupCall._members g) jd g) as [S1 _].
    destruct (GroupCall.connectToMembers _ _ _). cbn [fst] in *. apply Sync. left. exact S1.
  - apply Sync. left. unfold GroupCall.setMedia.
    destruct (GroupCall.hasJoined g); [| reflexivity].
    destruct (GroupCall.joinedData g); reflexivity.
  - apply Sync. destruct (Disc g) as [E | E]; auto.
  - apply Sync. unfold GroupCall.updateMembership.
    pose proof (updateDevices_stage userId userId devices eventTimestamp g 0) as [_ S1].
    destruct (GroupCall.updateDevices _ _ _ _ _ _) as [g1 effs1].
    match goal with
    | |- context [GroupCall.removeMemberDevices g1 userId ?l] =>
        pose proof (removeMemberDevices_sameStage userId l g1) as [S2 _];
        destruct (GroupCall.removeMemberDevices g1 userId l) as [g2 effs2]
    end.
    cbn [fst] in *.
    destruct (String.eqb userId (GroupCall.ownUserId (GroupCall.options g2)) && negb _).
    + unfold GroupCall.removeOwnDevice. pose proof (Disc g2) as S3.
      destruct (GroupCall.disconnect g2) as [g3 effs3]. cbn [fst] in *.
      rewrite S2 in S3.
      destruct S1 as [S1 | [S1 S1']], S3 as [S3 | [S3 S3']]; rewrite ?S1 in *; auto;
        try (rewrite S1' in *; auto); try congruence.
    + cbn [fst]. rewrite S2. destruct S1 as [S1 | S1]; auto.
  - apply Sync. unfold GroupCall.removeMembership.
    match goal with
    | |- context [GroupCall.removeMemberDevices g userId ?l] =>
        pose proof (removeMemberDevices_sameStage userId l g) as [S1 _];
        destruct (GroupCall.removeMemberDevices g userId l) as [g1 effs1]
    end.
    cbn [fst] in *.
    destruct (String.eqb _ _).
    + unfold GroupCall.removeOwnDevice. pose proof (Disc g1) as S2.
      destruct (GroupCall.disconnect g1) as [g2 effs2]. cbn [fst] in *.
      rewrite S1 in S2. destruct S2 as [S2 | S2]; auto.
    + cbn [fst]. left. exact S1.
  - apply Sync. left. unfold GroupCall.handleDeviceMessage. cbv zeta.
    destruct (GroupCall.getMember _ _) as [member |]; [| reflexivity].
    destruct (String.eqb _ _); [| reflexivity].
    destruct (Member.handleDeviceMessage _ _ _). reflexivity.
  - apply Sync. left. reflexivity.
Qed.

(** Whatever runs in between, a call is Fledgling only if it was Fledgling
    from the start, and Creating only if it started Fledgling or Creating:
    a call that was announced by someone else is never in either state, and
    no operation brings a call back to them. *)
Theorem call_never_returns_to_fledgling (g g' : GroupCall.GroupCall) :
  Steps g g' ->
  (GroupCall._state g' = GroupCall.Fledgling -> GroupCall._state g = GroupCall.Fledgling)
  /\ (GroupCall._state g' = GroupCall.Creating ->
      GroupCall._state g = GroupCall.Fledgling \/ GroupCall._state g = GroupCall.Creating).
Proof.
  induction 1 as [| g g1 g2 _ [IHf IHc] St].
  - split; auto.
  - destruct (step_state g1 g2 St) as (Hf & Hc & _). split.
    + intro E. auto.
    + intro E. destruct (Hc E) as [F | F]; auto.
Qed.

Lemma call_never_returns_to_fledgling_witness :
  (GroupCall._state (fst (GroupCall.create_start call_fledgling "m.voice"))
   = GroupCall.Fledgling -> GroupCall._state call_fledgling = GroupCall.Fledgling)
  /\ (GroupCall._state (fst (GroupCall.create_start call_fledgling "m.voice"))
      = GroupCall.Creating ->
      GroupCall._state call_fledgling = GroupCall.Fledgling
      \/ GroupCall._state call_fledgling = GroupCall.Creating).
Proof.
  apply (call_never_returns_to_fledgling call_fledgling
           (fst (GroupCall.create_start call_fledgling "m.voice"))).
  eapply Steps_step; [apply Steps_refl | apply GroupCall.Step_create_start].
Defined.

Lemma join_stage (g : GroupCall.GroupCall) (media : LocalMedia)
    (stored : option (list GroupCall.CallInfo)) (now : nat) :
  GroupCall.join_canStart g = true ->
  GroupCall._state (fst (GroupCall.join g media stored now)) = GroupCall.Joining
  /\ GroupCall.joinedData (fst (GroupCall.join g media stored now))
     = Some (GroupCall.mkJoinedData media).
Proof.
  intro Hs. unfold GroupCall.join. rewrite Hs.
  unfold GroupCall.join_install, GroupCall.join_sendState, GroupCall.join_connect.
  destruct (GroupCall._createJoinPayload _ _) as [content index].
  match goal with
  | |- context [GroupCall.connectToMembers ?g2 ?ms ?jd] =>
      pose proof (connectToMembers_sameStage ms jd g2) as [S1 S2];
      destruct (GroupCall.connectToMembers g2 ms jd) as [g3 effs3]
  end.
  cbn [fst] in *. split; [rewrite S1 | rewrite S2]; reflexivity.
Qed.

(** ** The own member event *)

Lemma findCall_onFoundCall_other (id id' : string)
    (f : list CallDeviceMembership -> list CallDeviceMembership)
    (calls : list GroupCall.CallInfo) :
  id' <> id ->
  GroupCall.findCall id' (GroupCall.onFoundCall id f calls) = GroupCall.findCall id' calls.
Proof.
  intro N. unfold GroupCall.findCall.
  induction calls as [| c rest IH]; cbn [GroupCall.onFoundCall find]; [reflexivity |].
  destruct (String.eqb (GroupCall.m_call_id c) id) eqn:E; cbn [find GroupCall.m_call_id].
  - destruct (String.eqb (GroupCall.m_call_id c) id') eqn:E'; [| reflexivity].
    apply String.eqb_eq in E, E'. congruence.
  - rewrite IH. reflexivity.
Qed.

Lemma findCall_app_other (id id' : string) (calls : list GroupCall.CallInfo)
    (devices : list CallDeviceMembership) :
  id' <> id ->
  GroupCall.findCall id' (calls ++ [GroupCall.mkCallInfo id devices])
  = GroupCall.findCall id' calls.
Proof.
  intro N. unfold GroupCall.findCall.
  induction calls as [| c rest IH]; cbn [app find GroupCall.m_call_id].
  - destruct (String.eqb id id') eqn:E; [| reflexivity].
    apply String.eqb_eq in E. congruence.
  - rewrite IH. reflexivity.
Qed.

Lemma findCall_id (id : string) (calls : list GroupCall.CallInfo) (c : GroupCall.CallInfo) :
  GroupCall.findCall id calls = Some c -> GroupCall.m_call_id c = id.
Proof.
  unfold GroupCall.findCall. intro F. apply find_some in F as [_ F].
  apply String.eqb_eq. exact F.
Qed.

Lemma createJoinPayload_then_leave
    (g : GroupCall.GroupCall) (stored : option (list GroupCall.CallInfo)) :
  let calls := match stored with Some calls => calls | None => [] end in
  let others :=
    filter (fun d => negb (GroupCall.isOwnDevice g d))
      match GroupCall.findCall (GroupCall.id g) calls with
      | Some callInfo => GroupCall.m_devices callInfo
      | None => []
      end in
  let payload := fst (GroupCall._createJoinPayload g stored) in
  GroupCall.findCall (GroupCall.id g) payload
  = Some (GroupCall.mkCallInfo (GroupCall.id g) (others ++ [GroupCall.ownDeviceEntry g]))
  /\ snd (GroupCall._createJoinPayload g stored) = S (length others)
  /\ GroupCall.findIndex (GroupCall.isOwnDevice g) (others ++ [GroupCall.ownDeviceEntry g])
     = Some (length others)
  /\ (forall id', id' <> GroupCall.id g ->
        GroupCall.findCall id' payload = GroupCall.findCall id' calls)
  /\ exists content,
       GroupCall._leaveCallMemberContent g (Some payload) = Some content
       /\ GroupCall.findCall (GroupCall.id g) content
          = Some (GroupCall.mkCallInfo (GroupCall.id g) others)
       /\ (forall id', id' <> GroupCall.id g ->
             GroupCall.findCall id' content = GroupCall.findCall id' calls).
Proof.
  intros calls others payload.
  set (f := fun devices : list CallDeviceMembership =>
              filter (fun d => negb (GroupCall.isOwnDevice g d)) devices
              ++ [GroupCall.ownDeviceEntry g]).
  set (calls1 := match GroupCall.findCall (GroupCall.id g) calls with
                 | Some _ => calls
                 | None => calls ++ [GroupCall.mkCallInfo (GroupCall.id g) []]
                 end).
  assert (payload = GroupCall.onFoundCall (GroupCall.id g) f calls1) as Ep by reflexivity.
  assert (exists c1, GroupCall.findCall (GroupCall.id g) calls1 = Some c1
                     /\ GroupCall.m_call_id c1 = GroupCall.id g
                     /\ f (GroupCall.m_devices c1)
                        = others ++ [GroupCall.ownDeviceEntry g]) as (c1 & F1 & I1 & D1).
  { subst calls1 others.
    destruct (GroupCall.findCall (GroupCall.id g) calls) as [c |] eqn:F.
    - exists c. split; [exact F |]. split; [apply (findCall_id _ _ _ F) | reflexivity].
    - exists (GroupCall.mkCallInfo (GroupCall.id g) []).
      split; [apply findCall_app_new; exact F |]. split; reflexivity. }
  assert (forall id', id' <> GroupCall.id g ->
                      GroupCall.findCall id' payload = GroupCall.findCall id' calls) as Ho.
  { intros id' N. rewrite Ep, (findCall_onFoundCall_other _ _ _ _ N). subst calls1.
    destruct (GroupCall.findCall (GroupCall.id g) calls); [reflexivity |].
    apply findCall_app_other. exact N. }
  assert (GroupCall.findCall (GroupCall.id g) payload
          = Some (GroupCall.mkCallInfo (GroupCall.id g)
                    (others ++ [GroupCall.ownDeviceEntry g]))) as Fp.
  { rewrite Ep, (findCall_onFoundCall _ _ _ _ F1), I1, D1. reflexivity. }
  assert (GroupCall.findIndex (GroupCall.isOwnDevice g)
            (others ++ [GroupCall.ownDeviceEntry g]) = Some (length others)) as Fi.
  { subst others. apply findIndex_after_filter.
    unfold GroupCall.isOwnDevice, GroupCall.ownDeviceEntry. cbn. apply String.eqb_refl. }
  split; [exact Fp |].
  split.
  { unfold GroupCall._createJoinPayload. cbv zeta. fold calls. fold calls1. fold f.
    rewrite <- Ep. cbn [snd]. rewrite Fp. cbn [GroupCall.m_devices].
    rewrite length_app. cbn. lia. }
  split; [exact Fi |].
  split; [exact Ho |].
  unfold GroupCall._leaveCallMemberContent. rewrite Fp. cbn [GroupCall.m_devices].
  rewrite Fi. eexists. split; [reflexivity |]. split.
  - rewrite (findCall_onFoundCall _ _ _ _ Fp). cbn [GroupCall.m_call_id GroupCall.m_devices].
    rewrite splice1_last. reflexivity.
  - intros id' N. rewrite (findCall_onFoundCall_other _ _ _ _ N). apply Ho, N.
Qed.

(** The member event [join] sends lists, under the call, the devices the
    stored event listed there other than the own one, then the own device
    in the own session; the device index it stores is the number of devices
    listed, one more than the position of the own device. What the stored
    event says of other calls stays. [_leaveCallMemberContent] on that
    content finds the own device and gives the same content without it. *)
Theorem join_payload_lists_own_device_last
    (g : GroupCall.GroupCall) (stored : option (list GroupCall.CallInfo)) :
  let calls := match stored with Some calls => calls | None => [] end in
  let others :=
    filter (fun d => negb (GroupCall.isOwnDevice g d))
      match GroupCall.findCall (GroupCall.id g) calls with
      | Some callInfo => GroupCall.m_devices callInfo
      | None => []
      end in
  let payload := fst (GroupCall._createJoinPayload g stored) in
  GroupCall.findCall (GroupCall.id g) payload
  = Some (GroupCall.mkCallInfo (GroupCall.id g) (others ++ [GroupCall.ownDeviceEntry g]))
  /\ snd (GroupCall._createJoinPayload g stored) = S (length others)
  /\ GroupCall.findIndex (GroupCall.isOwnDevice g) (others ++ [GroupCall.ownDeviceEntry g])
     = Some (length others)
  /\ (forall id', id' <> GroupCall.id g ->
        GroupCall.findCall id' payload = GroupCall.findCall id' calls)
  /\ exists content,
       GroupCall._leaveCallMemberContent g (Some payload) = Some content
       /\ GroupCall.findCall (GroupCall.id g) content
          = Some (GroupCall.mkCallInfo (GroupCall.id g) others)
       /\ (forall id', id' <> GroupCall.id g ->
             GroupCall.findCall id' content = GroupCall.findCall id' calls).
Proof. exact (createJoinPayload_then_leave g stored). Qed.


(** ** The member key as a string *)

Lemma string_app_assoc (a b c : string) : ((a ++ b) ++ c = a ++ b ++ c)%string.
Proof. induction a as [| x a IH]; cbn; [reflexivity | rewrite IH; reflexivity]. Qed.

Lemma string_length_app (a b : string) :
  String.length (a ++ b) = String.length a + String.length b.
Proof. induction a as [| x a IH]; cbn; [reflexivity | rewrite IH; reflexivity]. Qed.

Lemma parseChars_quoteChar (c : ascii) (rest : string) :
  JSON.parseChars (JSON.quoteChar c ++ rest) = JSON.consResult c (JSON.parseChars rest).
Proof.
  destruct c as [[] [] [] [] [] [] [] []]; reflexivity.
Qed.

Lemma parseChars_quoteChars (s rest : string) :
  JSON.parseChars (JSON.quoteChars s ++ String JSON.quote rest) = Some (s, rest).
Proof.
  induction s as [| c s IH]; [reflexivity |].
  cbn [JSON.quoteChars]. rewrite string_app_assoc, parseChars_quoteChar, IH. reflexivity.
Qed.

Lemma stringify_app (s rest : string) :
  (JSON.stringify s ++ rest
   = String JSON.quote (JSON.quoteChars s ++ String JSON.quote rest))%string.
Proof. unfold JSON.stringify. cbn. rewrite string_app_assoc. reflexivity. Qed.

Lemma stringify_injective_prefix (a b ra rb : string) :
  (JSON.stringify a ++ ra = JSON.stringify b ++ rb)%string -> a = b /\ ra = rb.
Proof.
  rewrite !stringify_app. intro E. injection E as E.
  apply (f_equal JSON.parseChars) in E. rewrite !parseChars_quoteChars in E.
  injection E as -> ->. split; reflexivity.
Qed.

Lemma stringify_injective (a b : string) : JSON.stringify a = JSON.stringify b -> a = b.
Proof.
  unfold JSON.stringify. intro E. injection E as E.
  apply (f_equal JSON.parseChars) in E. rewrite !parseChars_quoteChars in E.
  injection E as ->. reflexivity.
Qed.

Lemma prefix_app (p r : string) : String.prefix p (p ++ r) = true.
Proof.
  induction p as [| c p IH]; cbn; [destruct r; reflexivity |].
  destruct (ascii_dec c c) as [_ | N]; [exact IH | contradiction N; reflexivity].
Qed.

Lemma prefix_true (p s : string) :
  String.prefix p s = true -> exists r, s = (p ++ r)%string.
Proof.
  revert s. induction p as [| c p IH]; intros s H.
  - exists s. reflexivity.
  - destruct s as [| c' s]; cbn in H; [discriminate |].
    destruct (ascii_dec c c') as [<- | _]; [| discriminate].
    destruct (IH s H) as [r ->]. exists r. reflexivity.
Qed.

Lemma parseElements_key (userId deviceId : string) (fuel : nat) :
  JSON.parseElements (S (S fuel))
    (MemberKeyString.getMemberKey userId deviceId ++ "]")
  = Some [userId; deviceId].
Proof.
  unfold MemberKeyString.getMemberKey.
  rewrite string_app_assoc, stringify_app.
  cbn [JSON.parseElements JSON.skipWhitespace].
  change (JSON.isWhitespace JSON.quote) with false. cbv iota.
  change (Nat.eqb (nat_of_ascii JSON.quote) 34) with true. cbv iota.
  rewrite parseChars_quoteChars.
  rewrite string_app_assoc, stringify_app.
  cbn [append JSON.skipWhitespace].
  change (JSON.isWhitespace ",") with false. cbv iota.
  change (Nat.eqb (nat_of_ascii ",") 44) with true. cbv iota.
  cbn [JSON.parseElements JSON.skipWhitespace].
  change (JSON.isWhitespace JSON.quote) with false. cbv iota.
  change (Nat.eqb (nat_of_ascii JSON.quote) 34) with true. cbv iota.
  rewrite parseChars_quoteChars. reflexivity.
Qed.

(** The string key stands for the pair: the device read back from the key
    of (userId, deviceId) is deviceId, the key is for a user exactly when
    that user is userId, and two keys are equal only for the same pair,
    whatever characters, quotes, commas and backslashes included, the ids
    are made of. *)
Theorem member_key_string_encodes_the_pair (userId deviceId userId' deviceId' : string) :
  MemberKeyString.getDeviceFromMemberKey (MemberKeyString.getMemberKey userId deviceId)
  = Some (GroupCall.getDeviceFromMemberKey (GroupCall.getMemberKey userId deviceId))
  /\ MemberKeyString.memberKeyIsForUser (MemberKeyString.getMemberKey userId deviceId) userId'
     = GroupCall.memberKeyIsForUser (GroupCall.getMemberKey userId deviceId) userId'
  /\ (MemberKeyString.getMemberKey userId deviceId
      = MemberKeyString.getMemberKey userId' deviceId'
      <-> GroupCall.getMemberKey userId deviceId = GroupCall.getMemberKey userId' deviceId').
Proof.
  split; [| split].
  - unfold MemberKeyString.getDeviceFromMemberKey, JSON.parseStringArray.
    cbn [append JSON.skipWhitespace].
    change (JSON.isWhitespace "[") with false. cbv iota.
    change (Nat.eqb (nat_of_ascii "[") 91) with true. cbv iota.
    set (text := (MemberKeyString.getMemberKey userId deviceId ++ "]")%string).
    assert (exists rest, text = String JSON.quote rest) as [rest Et].
    { subst text. unfold MemberKeyString.getMemberKey.
      rewrite string_app_assoc, stringify_app. eexists. reflexivity. }
    assert (exists fuel, String.length text = S (S fuel)) as [fuel Ef].
    { subst text. unfold MemberKeyString.getMemberKey.
      rewrite string_app_assoc, stringify_app. cbn [String.length].
      rewrite string_length_app. cbn [String.length]. eexists.
      rewrite Nat.add_succ_r. reflexivity. }
    rewrite Ef. rewrite Et at 1. cbn [JSON.skipWhitespace].
    change (JSON.isWhitespace JSON.quote) with false. cbv iota.
    change (Nat.eqb (nat_of_ascii JSON.quote) 93) with false. cbv iota.
    subst text. rewrite parseElements_key. reflexivity.
  - unfold MemberKeyString.memberKeyIsForUser, MemberKeyString.getMemberKey,
      GroupCall.memberKeyIsForUser, GroupCall.getMemberKey. cbn [fst].
    destruct (String.eqb userId userId') eqn:E.
    + apply String.eqb_eq in E. subst userId'. rewrite <- string_app_assoc.
      apply prefix_app.
    + destruct (String.prefix _ _) eqn:P; [| reflexivity].
      apply prefix_true in P as [r P]. rewrite string_app_assoc in P.
      apply stringify_injective_prefix in P as [-> _].
      rewrite String.eqb_refl in E. discriminate.
  - unfold MemberKeyString.getMemberKey, GroupCall.getMemberKey. split.
    + intro E. apply stringify_injective_prefix in E as [-> E].
      assert (JSON.stringify deviceId = JSON.stringify deviceId') as E'
          by (cbn [append] in E; congruence).
      apply stringify_injective in E'. subst deviceId'. reflexivity.
    + intro E. injection E as -> ->. reflexivity.
Qed.

Lemma removeMemberDevices_ownEntry (userId : string) (deviceIds : list string) :
  forall g,
    GroupCall._deviceIndex (fst (GroupCall.removeMemberDevices g userId deviceIds))
    = GroupCall._deviceIndex g.
Proof.
  induction deviceIds as [| d rest IH]; intro g; cbn [GroupCall.removeMemberDevices];
    [reflexivity |].
  assert (GroupCall._deviceIndex (fst (GroupCall.removeMemberDevice g userId d))
          = GroupCall._deviceIndex g) as E1.
  { unfold GroupCall.removeMemberDevice. destruct (GroupCall.getMember _ _); reflexivity. }
  destruct (GroupCall.removeMemberDevice g userId d) as [g1 effs1].
  specialize (IH g1).
  destruct (GroupCall.removeMemberDevices g1 userId rest) as [g2 effs2].
  cbn [fst] in *. congruence.
Qed.

Lemma updateDevices_own_last (userId : string) (others : list CallDeviceMembership)
    (own : CallDeviceMembership) (eventTimestamp : nat) :
  forall g deviceIndex,
    userId = GroupCall.ownUserId (GroupCall.options g) ->
    device_id own = GroupCall.ownDeviceId (GroupCall.options g) ->
    GroupCall._deviceIndex
      (fst (GroupCall.updateDevices g userId userId (others ++ [own]) deviceIndex
              eventTimestamp))
    = Some (deviceIndex + length others).
Proof.
  induction others as [| d rest IH]; intros g i Hu Hd; cbn [app GroupCall.updateDevices].
  - unfold GroupCall.updateDeviceMembership. cbv zeta.
    rewrite Hu, Hd, !String.eqb_refl. cbn [andb].
    destruct (GroupCall.GroupCallState_eqb _ _); cbn; rewrite Nat.add_0_r; reflexivity.
  - pose proof (updateDeviceMembership_sameCall g userId userId d i eventTimestamp)
      as (_ & _ & Eo).
    destruct (GroupCall.updateDeviceMembership g userId userId d i eventTimestamp)
      as [g1 effs1]. cbn [fst] in Eo.
    specialize (IH g1 (S i)). rewrite Eo in IH. specialize (IH Hu Hd).
    destruct (GroupCall.updateDevices g1 _ _ _ _ _) as [g2 effs2]. cbn [fst length] in *.
    rewrite IH. f_equal. lia.
Qed.

(** The device index [join] stores with the member event it sends is the
    number of devices the event lists for the call. When that event comes
    back from sync, [updateMembership] stores the position of the own
    device instead, which is one less. *)
Theorem own_device_index_after_join_and_after_sync
    (g g1 : GroupCall.GroupCall) (stored : option (list GroupCall.CallInfo))
    (now eventTimestamp : nat) :
  let others :=
    filter (fun d => negb (GroupCall.isOwnDevice g d))
      match GroupCall.findCall (GroupCall.id g)
              match stored with Some calls => calls | None => [] end with
      | Some callInfo => GroupCall.m_devices callInfo
      | None => []
      end in
  sameCall g g1 ->
  GroupCall._deviceIndex (fst (GroupCall.join_sendState g stored now))
  = Some (S (length others))
  /\ GroupCall.findCall (GroupCall.id g) (fst (GroupCall._createJoinPayload g stored))
     = Some (GroupCall.mkCallInfo (GroupCall.id g) (others ++ [GroupCall.ownDeviceEntry g]))
  /\ GroupCall._deviceIndex
       (fst (GroupCall.updateMembership g1
               (GroupCall.ownUserId (GroupCall.options g))
               (GroupCall.ownUserId (GroupCall.options g))
               (others ++ [GroupCall.ownDeviceEntry g]) eventTimestamp))
     = Some (length others).
Proof.
  intros others (_ & _ & Eo).
  pose proof (createJoinPayload_then_leave g stored) as (Fp & Ei & _).
  fold others in Fp, Ei.
  split; [| split; [exact Fp |]].
  - unfold GroupCall.join_sendState.
    destruct (GroupCall._createJoinPayload g stored) as [content index].
    cbn [snd] in Ei. subst index. reflexivity.
  - unfold GroupCall.updateMembership.
    pose proof (updateDevices_own_last (GroupCall.ownUserId (GroupCall.options g)) others
                  (GroupCall.ownDeviceEntry g) eventTimestamp g1 0) as E1.
    pose proof (updateDevices_sameCall (GroupCall.ownUserId (GroupCall.options g))
                  (GroupCall.ownUserId (GroupCall.options g))
                  (others ++ [GroupCall.ownDeviceEntry g]) eventTimestamp g1 0)
      as (_ & _ & Eo1).
    rewrite Eo in E1. specialize (E1 eq_refl eq_refl).
    destruct (GroupCall.updateDevices g1 _ _ _ _ _) as [g2 effs2]. cbn [fst] in *.
    match goal with
    | |- context [GroupCall.removeMemberDevices g2 ?u ?l] =>
        pose proof (removeMemberDevices_ownEntry u l g2) as E2;
        pose proof (removeMemberDevices_sameCall u l g2) as (_ & _ & Eo2);
        destruct (GroupCall.removeMemberDevices g2 u l) as [g3 effs3]
    end.
    cbn [fst] in *.
    assert (GroupCall.hasDevice (map device_id (others ++ [GroupCall.ownDeviceEntry g]))
              (GroupCall.ownDeviceId (GroupCall.options g3)) = true) as Hown.
    { apply hasDevice_In. rewrite Eo2, Eo1, Eo, map_app. apply in_or_app. right.
      left. reflexivity. }
    rewrite Hown. cbn [negb]. rewrite andb_false_r. cbn [fst].
    rewrite E2, E1. reflexivity.
Qed.

Lemma own_device_index_after_join_and_after_sync_witness :
  GroupCall._deviceIndex (fst (GroupCall.join_sendState call_created None 50)) = Some 1
  /\ GroupCall.findCall "conf" (fst (GroupCall._createJoinPayload call_created None))
     = Some (GroupCall.mkCallInfo "conf" [mkDevice "B1" "SB"])
  /\ GroupCall._deviceIndex
       (fst (GroupCall.updateMembership call_with_alice "@b" "@b" [mkDevice "B1" "SB"] 70))
     = Some 0.
Proof.
  apply (own_device_index_after_join_and_after_sync call_created call_with_alice None 50 70).
  repeat split.
Defined.

(** Whatever has run on a call, every message a member of it sends goes to
    the user and device the member is bound under, names the call as
    [conf_id], the own device as [device_id] and [party_id], the own
    session as [sender_session_id] and the session the member has of the
    other device as [dest_session_id]. *)
Theorem outgoing_messages_carry_call_identity
    (g : GroupCall.GroupCall) (key : GroupCall.MemberKey) (member : Member.Member)
    (message : SignallingMessage) :
  GroupCall.Reachable g ->
  GroupCall.getMember g key = Some member ->
  let request := Signalling.sendSignallingMessage member message in
  (Signalling.to_userId request, Signalling.to_deviceId request) = key
  /\ Signalling.group_fields request
     = Signalling.mkGroupFields (GroupCall.id g)
         (GroupCall.ownDeviceId (GroupCall.options g))
         (GroupCall.ownDeviceId (GroupCall.options g))
  /\ sender_session_id (Signalling.content request)
     = GroupCall.sessionId (GroupCall.options g)
  /\ dest_session_id (Signalling.content request) = GroupCall.member_sessionId member
  /\ Signalling.request_type request = msg_type message
  /\ call_id (Signalling.content request) = call_id message.
Proof.
  intros R Hget request.
  pose proof (reachable_invariants g R) as [Keyed _].
  pose proof (reachable_membersOfCall g R) as Own.
  pose proof (membersKeyed_get g key member Keyed Hget) as Hkey.
  pose proof (membersOfCall_get g key member Own Hget) as Ho.
  subst request. unfold Signalling.sendSignallingMessage. cbn. rewrite Ho. cbn.
  repeat split. exact Hkey.
Qed.

Lemma outgoing_messages_carry_call_identity_witness :
  (Signalling.to_userId (Signalling.sendSignallingMessage alice_S1 answer_c0),
   Signalling.to_deviceId (Signalling.sendSignallingMessage alice_S1 answer_c0))
  = ("@a", "A1")
  /\ Signalling.group_fields (Signalling.sendSignallingMessage alice_S1 answer_c0)
     = Signalling.mkGroupFields "conf" "B1" "B1"
  /\ sender_session_id
       (Signalling.content (Signalling.sendSignallingMessage alice_S1 answer_c0))
     = "SB"
  /\ dest_session_id
       (Signalling.content (Signalling.sendSignallingMessage alice_S1 answer_c0))
     = "S1"
  /\ Signalling.request_type (Signalling.sendSignallingMessage alice_S1 answer_c0)
     = Answer
  /\ call_id (Signalling.content (Signalling.sendSignallingMessage alice_S1 answer_c0))
     = "c0".
Proof.
  apply (outgoing_messages_carry_call_identity call_with_alice ("@a", "A1") alice_S1
           answer_c0 call_with_alice_reachable).
  reflexivity.
Defined.

(** ** The own device *)

Lemma storeMember_other (g : GroupCall.GroupCall) (key k : GroupCall.MemberKey)
    (m : Member.Member) :
  k <> key -> GroupCall.getMember (GroupCall.storeMember g key m) k = GroupCall.getMember g k.
Proof.
  intro N. unfold GroupCall.getMember, GroupCall.storeMember. cbn.
  apply (JsMap_get_set_other _ MemberKey_eqb_eq). exact N.
Qed.

Lemma connectToMembers_other (members : list (GroupCall.MemberKey * Member.Member))
    (jd : GroupCall.JoinedData) (k : GroupCall.MemberKey) :
  ~ In k (JsMap.keys members) ->
  forall g,
    GroupCall.getMember (fst (GroupCall.connectToMembers g members jd)) k
    = GroupCall.getMember g k.
Proof.
  induction members as [| km rest IH]; intros Hn g; cbn [GroupCall.connectToMembers];
    [reflexivity |].
  unfold GroupCall.connectToMember.
  destruct (Member.connect _ _ _) as [member' effs].
  match goal with
  | |- context [GroupCall.connectToMembers ?g1 rest jd] =>
      pose proof (IH (fun F => Hn (or_intror F)) g1) as E1;
      destruct (GroupCall.connectToMembers g1 rest jd)
  end.
  cbn [fst] in *. rewrite E1. rewrite storeMember_other; [reflexivity |].
  intro F. apply Hn. left. symmetry. exact F.
Qed.

Lemma updateDevices_own (userId : string) (devices : list CallDeviceMembership)
    (eventTimestamp : nat) :
  forall g deviceIndex,
    membersKeyed g ->
    GroupCall.getMember
      (fst (GroupCall.updateDevices g userId userId devices deviceIndex eventTimestamp))
      (ownKey g)
    = GroupCall.getMember g (ownKey g).
Proof.
  induction devices as [| device rest IH]; intros g i Keyed; cbn [GroupCall.updateDevices];
    [reflexivity |].
  pose proof (updateDeviceMembership_members g userId device i eventTimestamp Keyed)
    as (Keyed1 & Hframe & _ & Hown).
  pose proof (updateDeviceMembership_sameCall g userId userId device i eventTimestamp)
    as Same.
  destruct (GroupCall.updateDeviceMembership g userId userId device i eventTimestamp)
    as [g1 effs1].
  specialize (IH g1 (S i) Keyed1).
  destruct (GroupCall.updateDevices g1 userId userId rest (S i) eventTimestamp)
    as [g2 effs2].
  cbn [fst] in *. rewrite (sameCall_ownKey _ _ Same) in IH. rewrite IH.
  destruct (GroupCall.MemberKey_eqb (ownKey g)
              (GroupCall.getMemberKey userId (device_id device))) eqn:E.
  - apply MemberKey_eqb_eq in E. rewrite E. apply Hown. symmetry. exact E.
  - apply Hframe. intro F. rewrite F in E.
    rewrite (proj2 (MemberKey_eqb_eq _ _) eq_refl) in E. discriminate.
Qed.

Lemma step_own_device (g g' : GroupCall.GroupCall) :
  GroupCall.Step g g' ->
  membersKeyed g ->
  GroupCall.getMember g (ownKey g) = None ->
  GroupCall.getMember g' (ownKey g) = None.
Proof.
  intros St Keyed Hn.
  assert (forall key member, GroupCall.getMember g key = Some member -> ownKey g <> key)
    as Other.
  { intros key member G F. rewrite <- F, Hn in G. discriminate. }
  destruct St.
  - unfold GroupCall.create_start. destruct (GroupCall.GroupCallState_eqb _ _); exact Hn.
  - exact Hn.
  - unfold GroupCall.updateCallEvent. cbn.
    destruct (GroupCall.GroupCallState_eqb _ _); exact Hn.
  - exact Hn.
  - unfold GroupCall.join_sendState. destruct (GroupCall._createJoinPayload _ _). exact Hn.
  - unfold GroupCall.join_connect.
    assert (~ In (ownKey g) (JsMap.keys (GroupCall._members g))) as Hk.
    { intro F. apply JsMap_get_In_keys in F. apply F. exact Hn. }
    pose proof (connectToMembers_other (GroupCall._members g) jd (ownKey g) Hk g) as E.
    destruct (GroupCall.connectToMembers _ _ _). cbn [fst] in *.
    rewrite E. exact Hn.
  - unfold GroupCall.setMedia.
    destruct (GroupCall.hasJoined g); [| exact Hn].
    destruct (GroupCall.joinedData g); [| exact Hn].
    unfold GroupCall.getMember in *. cbn.
    rewrite (JsMap_get_map_values (fun m => fst (fst (Member.setMedia_start m media)))), Hn.
    reflexivity.
  - apply disconnect_members. exact Hn.
  - unfold GroupCall.updateMembership.
    pose proof (updateDevices_own userId devices eventTimestamp g 0 Keyed) as E1.
    destruct (GroupCall.updateDevices _ _ _ _ _ _) as [g1 effs1].
    match goal with
    | |- context [GroupCall.removeMemberDevices g1 userId ?l] =>
        pose proof (removeMemberDevices_members userId l (ownKey g) g1) as E2;
        destruct (GroupCall.removeMemberDevices g1 userId l) as [g2 effs2]
    end.
    cbn [fst] in *. rewrite E1, Hn in E2.
    assert (GroupCall.getMember g2 (ownKey g) = None) as H2
        by (rewrite E2; destruct (_ && _); reflexivity).
    destruct (String.eqb userId (GroupCall.ownUserId (GroupCall.options g2)) && negb _);
      cbn [fst]; [| exact H2].
    unfold GroupCall.removeOwnDevice. apply disconnect_members in H2.
    destruct (GroupCall.disconnect g2). exact H2.
  - unfold GroupCall.removeMembership.
    match goal with
    | |- context [GroupCall.removeMemberDevices g userId ?l] =>
        pose proof (removeMemberDevices_members userId l (ownKey g) g) as E1;
        destruct (GroupCall.removeMemberDevices g userId l) as [g1 effs1]
    end.
    cbn [fst] in *. rewrite Hn in E1.
    assert (GroupCall.getMember g1 (ownKey g) = None) as H1
        by (rewrite E1; destruct (_ && _); reflexivity).
    clear E1.
    destruct (String.eqb userId (GroupCall.ownUserId (GroupCall.options g1)));
      cbn [fst]; [| exact H1].
    unfold GroupCall.removeOwnDevice. apply disconnect_members in H1.
    destruct (GroupCall.disconnect g1). exact H1.
  - unfold GroupCall.handleDeviceMessage. cbv zeta.
    destruct (GroupCall.getMember g (GroupCall.getMemberKey userId deviceId))
      as [member |] eqn:G; [| exact Hn].
    destruct (String.eqb _ _); [| exact Hn].
    destruct (Member.handleDeviceMessage _ _ _). cbn [fst].
    rewrite storeMember_other; [exact Hn | exact (Other _ _ G)].
  - rewrite storeMember_other; [exact Hn | eapply Other; eassumption].
Qed.

(** Whatever has run on a call, it holds no member for the own device: the
    own entry of a member event only moves the call from Joining to Joined,
    and nothing else binds that key. So no PeerCall is ever made towards
    the own device, and a message that names the own device as its sender
    is buffered and never handed to a member. *)
Theorem own_device_never_has_a_member
    (g : GroupCall.GroupCall) (message : SignallingMessage) :
  GroupCall.Reachable g ->
  GroupCall.getMember g (ownKey g) = None
  /\ deliveries (ownKey g)
       (snd (GroupCall.handleDeviceMessage g message
               (GroupCall.ownUserId (GroupCall.options g))
               (GroupCall.ownDeviceId (GroupCall.options g)))) = [].
Proof.
  intro R.
  assert (GroupCall.getMember g (ownKey g) = None) as Hn.
  { induction R as [| g g' R IH St]; [reflexivity |].
    rewrite (sameCall_ownKey _ _ (step_sameCall _ _ St)).
    apply (step_own_device g g' St); [apply reachable_invariants; exact R | exact IH]. }
  split; [exact Hn |].
  unfold GroupCall.handleDeviceMessage. cbv zeta. fold (ownKey g). rewrite Hn. reflexivity.
Qed.

Lemma own_device_never_has_a_member_witness :
  GroupCall.getMember call_with_alice (ownKey call_with_alice) = None
  /\ deliveries (ownKey call_with_alice)
       (snd (GroupCall.handleDeviceMessage call_with_alice invite_for_bob
               (GroupCall.ownUserId (GroupCall.options call_with_alice))
               (GroupCall.ownDeviceId (GroupCall.options call_with_alice)))) = [].
Proof.
  apply (own_device_never_has_a_member call_with_alice invite_for_bob
           call_with_alice_reachable).
Defined.

(** ** Member: an update of a PeerCall that is not the one held *)

Lemma endsCall_dispose_other (held c : CallId) :
  c <> held -> MemberRun.endsCall held (Member.PeerCall_dispose c) = false.
Proof.
  intro N. destruct held as [n | s], c as [n' | s']; cbn; try reflexivity.
  - apply Nat.eqb_neq. congruence.
  - apply String.eqb_neq. congruence.
Qed.

(** [emitUpdate] does not look at which PeerCall has ended. When a PeerCall
    other than the one the member holds reports Ended, the member disposes
    of the one that reported, forgets the one it holds without hanging up,
    closing or disposing of it, and goes on to the retry as if the held one
    had ended. *)
Theorem emitUpdate_forgets_held_call_when_another_ends
    (m : Member.Member) (pc : PeerCall) (newCallId held : CallId) :
  state pc = Ended ->
  Member.peerCall m = Some held ->
  callId pc <> held ->
  newCallId <> held ->
  let after := Member.emitUpdate m pc newCallId in
  In (Member.PeerCall_dispose (callId pc)) (snd after)
  /\ existsb (MemberRun.endsCall held) (snd after) = false
  /\ Member.peerCall (fst after) <> Some held.
Proof.
  intros Hs Hp Hc Hn. cbv zeta.
  unfold Member.emitUpdate, Member.retryAfterEnded. rewrite Hs.
  assert (forall m1 : Member.Member,
             Member.peerCall m1 = None ->
             let r := Member.connect m1 (Member.localMedia m1) newCallId in
             existsb (MemberRun.endsCall held) (snd r) = false
             /\ Member.peerCall (fst r) <> Some held) as Hconnect.
  { intros m1 H1. unfold Member.connect.
    destruct (Member.shouldInitiateCall _); cbn; split; try reflexivity.
    - intro F. injection F as F. contradiction.
    - rewrite H1. discriminate. }
  pose proof (endsCall_dispose_other held (callId pc) Hc) as Hd.
  destruct (hangupReason pc) as [r |].
  - destruct (negb _).
    + cbn [Member.retryCount Member.set_retryCount Member.set_peerCall].
      destruct (Nat.leb _ 3).
      * match goal with
        | |- context [Member.connect ?m1 ?media newCallId] =>
            destruct (Hconnect m1 eq_refl) as [E1 E2];
            change media with (Member.localMedia m1);
            destruct (Member.connect m1 (Member.localMedia m1) newCallId) as [m' effs]
        end.
        cbn [fst snd] in *. split; [left; reflexivity |]. split; [| exact E2].
        cbn [app existsb]. rewrite Hd, existsb_app, E1. reflexivity.
      * cbn [fst snd app existsb]. rewrite Hd.
        split; [left; reflexivity |]. split; [reflexivity | discriminate].
    + cbn [fst snd app existsb]. rewrite Hd.
      split; [left; reflexivity |]. split; [reflexivity | discriminate].
  - cbn [fst snd app existsb]. rewrite Hd.
    split; [left; reflexivity |]. split; [reflexivity | discriminate].
Qed.

Lemma emitUpdate_forgets_held_call_when_another_ends_witness :
  In (Member.PeerCall_dispose (callId ended_ice_failed))
    (snd (Member.emitUpdate carol_reconnected ended_ice_failed (MadeId 2)))
  /\ existsb (MemberRun.endsCall (MadeId 1))
       (snd (Member.emitUpdate carol_reconnected ended_ice_failed (MadeId 2))) = false
  /\ Member.peerCall (fst (Member.emitUpdate carol_reconnected ended_ice_failed (MadeId 2)))
     <> Some (MadeId 1).
Proof.
  apply (emitUpdate_forgets_held_call_when_another_ends carol_reconnected ended_ice_failed
           (MadeId 2) (MadeId 1)); [reflexivity | reflexivity | discriminate | discriminate].
Defined.

(** ** Runs, piece by piece *)




(** ** No key is bound twice *)
















(** ** What becomes of a buffered message *)
































(** ** GroupCall: routing of to-device messages, and what becomes of a
    buffered one *)



(** ** GroupCall: a change of session in a call left while joining *)

Lemma call_left_while_joining_reachable : GroupCall.Reachable call_left_while_joining.
Proof.
  replace call_left_while_joining with (fst (GroupCall.disconnect call_with_alice))
    by reflexivity.
  eapply GroupCall.Reachable_step;
    [apply call_with_alice_reachable | apply GroupCall.Step_disconnect].
Qed.

(** C5, where the code departs from it: the member of the old session is
    disconnected and removed before the member of the new session is made
    and added, and the new member has a retry count of 0; but whether it is
    connected is decided by [joinedData] alone. In a call for which
    [hasJoined] holds and [joinedData] is gone, the state [disconnect]
    leaves when it runs while the call is Joining, nothing is connected:
    after the four calls that replace the member come only the buffered
    messages. *)
Theorem updateDeviceMembership_connects_nobody_without_joinedData
    (g : GroupCall.GroupCall) (userId : string)
    (device : CallDeviceMembership) (deviceIndex eventTimestamp : nat)
    (old : Member.Member) :
  GroupCall.hasJoined g = true ->
  GroupCall.joinedData g = None ->
  String.eqb userId (GroupCall.ownUserId (GroupCall.options g))
  && String.eqb (device_id device) (GroupCall.ownDeviceId (GroupCall.options g)) = false ->
  GroupCall.getMember g (GroupCall.getMemberKey userId (device_id device)) = Some old ->
  GroupCall.member_sessionId old <> session_id device ->
  let key := GroupCall.getMemberKey userId (device_id device) in
  let updated :=
    GroupCall.updateDeviceMembership g userId userId device deviceIndex eventTimestamp in
  let made := Member.new userId device (GroupCall.memberOptions g) in
  (exists flushed,
     snd updated
     = [GroupCall.OnMember (GroupCall.keyOf old) (GroupCall.Call_disconnect false)
          (snd (Member.disconnect old false));
        GroupCall.Members_remove key;
        GroupCall.OnMember (GroupCall.keyOf made) (GroupCall.Call_new device) [];
        GroupCall.Members_add key]
       ++ flushed
     /\ forall k, connects_member k flushed = false)
  /\ (forall k, connects_member k (snd updated) = false)
  /\ (exists member,
        GroupCall.getMember (fst updated) key = Some member
        /\ GroupCall.member_sessionId member = session_id device
        /\ Member.retryCount member = 0)
  /\ GroupCall.hasJoined (fst updated) = true.
Proof.
  intros Hj Hd Own G Changed key updated made.
  destruct (updateDeviceMembership_replaces_member_of_old_session
              g userId userId device deviceIndex eventTimestamp old Own G Changed)
    as ((flushed & E & Fn) & _ & _ & Hm).
  fold key updated made in E, Hm. rewrite Hd in E. cbn [app] in E.
  split; [exists flushed; split; [exact E | exact Fn] |].
  split; [| split; [exact Hm |]].
  - intro k. rewrite E. cbn [app]. unfold connects_member in *. cbn [existsb].
    apply Fn.
  - destruct (updateDeviceMembership_stage g userId userId device deviceIndex
                eventTimestamp) as [_ [S | [_ S]]]; fold updated in S;
      unfold GroupCall.hasJoined in *; rewrite S; [exact Hj | reflexivity].
Qed.

(** C5, witness: ("@b", "B1") joins on media 7, the member event of
    ("@a", "A1") comes with session "S1", and [leave()] is called before
    the own member event is back: the call stays Joining, without joined
    data. The member event of ("@a", "A1") then comes with session "S2":
    [hasJoined] holds and the new member is not connected. *)
Lemma updateDeviceMembership_connects_nobody_without_joinedData_witness :
  GroupCall.hasJoined call_left_while_joining = true
  /\ (forall k,
        connects_member k
          (snd (GroupCall.updateDeviceMembership call_left_while_joining "@a" "@a"
                  (mkDevice "A1" "S2") 0 80)) = false)
  /\ exists member,
       GroupCall.getMember
         (fst (GroupCall.updateDeviceMembership call_left_while_joining "@a" "@a"
                 (mkDevice "A1" "S2") 0 80)) ("@a", "A1") = Some member
       /\ GroupCall.member_sessionId member = "S2"
       /\ Member.retryCount member = 0.
Proof.
  split; [reflexivity |].
  destruct (updateDeviceMembership_connects_nobody_without_joinedData
              call_left_while_joining "@a" (mkDevice "A1" "S2") 0 80 alice_S1)
    as (_ & None & Made & _);
    [reflexivity | reflexivity | reflexivity | reflexivity | discriminate |].
  split; [exact None | exact Made].
Defined.

(** ** GroupCall: how the state Joined is entered *)

Lemma GroupCallState_dec (s s' : GroupCall.GroupCallState) : {s = s'} + {s <> s'}.
Proof. decide equality. Qed.

Lemma updateDeviceMembership_enters (g : GroupCall.GroupCall) (userId u : string)
    (device : CallDeviceMembership) (deviceIndex eventTimestamp : nat) :
  GroupCall._state (fst (GroupCall.updateDeviceMembership g userId u device
                           deviceIndex eventTimestamp))
  <> GroupCall._state g ->
  userId = GroupCall.ownUserId (GroupCall.options g)
  /\ device_id device = GroupCall.ownDeviceId (GroupCall.options g).
Proof.
  unfold GroupCall.updateDeviceMembership. cbv zeta.
  destruct (String.eqb userId (GroupCall.ownUserId (GroupCall.options g))
            && String.eqb (device_id device) (GroupCall.ownDeviceId (GroupCall.options g)))
    eqn:Own.
  - intros _. apply andb_true_iff in Own as [A B].
    apply String.eqb_eq in A, B. split; assumption.
  - pose proof (memberForDevice_sameStage g
                  (GroupCall.getMemberKey userId (device_id device)) u device) as S1.
    destruct (GroupCall.memberForDevice _ _ _ _) as [[g2 member] effs].
    pose proof (flushPending_sameStage g2 member) as S2.
    destruct (GroupCall.flushPendingIncomingDeviceMessages g2 member) as [[g3 member'] fl].
    cbn [fst] in *. destruct (sameStage_trans _ _ _ S1 S2) as [A _].
    cbn. intro N. contradiction N.
Qed.

Lemma updateDevices_enters (userId u : string) (devices : list CallDeviceMembership)
    (eventTimestamp : nat) :
  forall g deviceIndex,
    GroupCall._state (fst (GroupCall.updateDevices g userId u devices
                             deviceIndex eventTimestamp))
    <> GroupCall._state g ->
    userId = GroupCall.ownUserId (GroupCall.options g)
    /\ In (GroupCall.ownDeviceId (GroupCall.options g)) (map device_id devices).
Proof.
  induction devices as [| device rest IH]; intros g i; cbn [GroupCall.updateDevices].
  - cbn. intro N. contradiction N. reflexivity.
  - pose proof (updateDeviceMembership_enters g userId u device i eventTimestamp) as E1.
    pose proof (updateDeviceMembership_sameCall g userId u device i eventTimestamp)
      as (_ & _ & O1).
    destruct (GroupCall.updateDeviceMembership _ _ _ _ _ _) as [g1 effs1].
    pose proof (IH g1 (S i)) as E2.
    destruct (GroupCall.updateDevices _ _ _ _ _ _) as [g2 effs2].
    cbn [fst map] in *. intro N.
    destruct (GroupCallState_dec (GroupCall._state g1) (GroupCall._state g)) as [Same | Diff].
    + rewrite <- Same in N. destruct (E2 N) as [A B]. rewrite O1 in A, B.
      split; [exact A | right; exact B].
    + destruct (E1 Diff) as [A B]. split; [exact A | left; exact B].
Qed.

Lemma updateDevices_stays_joined (userId u : string) (devices : list CallDeviceMembership)
    (eventTimestamp : nat) (g : GroupCall.GroupCall) (deviceIndex : nat) :
  GroupCall._state g = GroupCall.Joined ->
  GroupCall._state (fst (GroupCall.updateDevices g userId u devices
                           deviceIndex eventTimestamp)) = GroupCall.Joined.
Proof.
  intro J.
  destruct (updateDevices_stage userId u devices eventTimestamp g deviceIndex)
    as [_ [S | [S _]]]; congruence.
Qed.

Lemma updateDevices_joins (u : string) (devices : list CallDeviceMembership)
    (eventTimestamp : nat) :
  forall g deviceIndex,
    GroupCall._state g = GroupCall.Joining ->
    In (GroupCall.ownDeviceId (GroupCall.options g)) (map device_id devices) ->
    GroupCall._state
      (fst (GroupCall.updateDevices g (GroupCall.ownUserId (GroupCall.options g)) u devices
              deviceIndex eventTimestamp)) = GroupCall.Joined.
Proof.
  induction devices as [| device rest IH]; intros g i J Hin; [contradiction Hin |].
  cbn [GroupCall.updateDevices].
  pose proof (updateDeviceMembership_sameCall g (GroupCall.ownUserId (GroupCall.options g))
                u device i eventTimestamp) as (_ & _ & O1).
  pose proof (updateDeviceMembership_enters g (GroupCall.ownUserId (GroupCall.options g))
                u device i eventTimestamp) as E1.
  assert (device_id device = GroupCall.ownDeviceId (GroupCall.options g) ->
          GroupCall._state
            (fst (GroupCall.updateDeviceMembership g (GroupCall.ownUserId (GroupCall.options g))
                    u device i eventTimestamp)) = GroupCall.Joined) as Own.
  { intro D. unfold GroupCall.updateDeviceMembership. cbv zeta.
    rewrite D, !String.eqb_refl. cbn. rewrite J. reflexivity. }
  destruct (GroupCall.updateDeviceMembership _ _ _ _ _ _) as [g1 effs1].
  cbn [fst] in *.
  destruct (string_dec (device_id device) (GroupCall.ownDeviceId (GroupCall.options g)))
    as [D | D].
  - pose proof (updateDevices_stays_joined (GroupCall.ownUserId (GroupCall.options g))
                  u rest eventTimestamp g1 (S i) (Own D)) as S2.
    destruct (GroupCall.updateDevices _ _ _ _ _ _) as [g2 effs2]. exact S2.
  - assert (GroupCall._state g1 = GroupCall.Joining) as J1.
    { destruct (GroupCallState_dec (GroupCall._state g1) (GroupCall._state g)) as [S | N];
        [congruence | destruct (E1 N) as [_ B]; contradiction]. }
    assert (In (GroupCall.ownDeviceId (GroupCall.options g1)) (map device_id rest)) as Hin1.
    { rewrite O1. destruct Hin as [E | Hin]; [contradiction D | exact Hin]. }
    pose proof (IH g1 (S i) J1 Hin1) as S2. rewrite O1 in S2.
    destruct (GroupCall.updateDevices _ _ _ _ _ _) as [g2 effs2]. exact S2.
Qed.

Lemma disconnect_not_joined (g : GroupCall.GroupCall) :
  GroupCall._state (fst (GroupCall.disconnect g)) <> GroupCall.Joined.
Proof.
  destruct (disconnect_spec g) as (_ & _ & _ & E). rewrite E.
  destruct (GroupCall._state g); cbn; discriminate.
Qed.

Lemma updateMembership_enters_joined (g : GroupCall.GroupCall) (userId : string)
    (devices : list CallDeviceMembership) (eventTimestamp : nat) :
  GroupCall._state (fst (GroupCall.updateMembership g userId userId devices eventTimestamp))
  = GroupCall.Joined ->
  GroupCall._state g <> GroupCall.Joined ->
  GroupCall._state g = GroupCall.Joining
  /\ userId = GroupCall.ownUserId (GroupCall.options g)
  /\ In (GroupCall.ownDeviceId (GroupCall.options g)) (map device_id devices).
Proof.
  unfold GroupCall.updateMembership.
  pose proof (updateDevices_stage userId userId devices eventTimestamp g 0) as [_ S1].
  pose proof (updateDevices_enters userId userId devices eventTimestamp g 0) as E1.
  destruct (GroupCall.updateDevices _ _ _ _ _ _) as [g1 effs1].
  match goal with
  | |- context [GroupCall.removeMemberDevices g1 userId ?l] =>
      pose proof (removeMemberDevices_sameStage userId l g1) as [S2 _];
      destruct (GroupCall.removeMemberDevices g1 userId l) as [g2 effs2]
  end.
  cbn [fst] in *.
  destruct (String.eqb userId (GroupCall.ownUserId (GroupCall.options g2))
            && negb (GroupCall.hasDevice (map device_id devices)
                       (GroupCall.ownDeviceId (GroupCall.options g2)))).
  - unfold GroupCall.removeOwnDevice. pose proof (disconnect_not_joined g2) as N.
    destruct (GroupCall.disconnect g2) as [g3 effs3]. cbn [fst] in *.
    intros J _. contradiction.
  - cbn [fst]. intros J N. rewrite S2 in J.
    assert (GroupCall._state g1 <> GroupCall._state g) as Diff by congruence.
    destruct (E1 Diff) as [A B].
    split; [| split; assumption].
    destruct S1 as [S1 | [S1 _]]; [congruence | exact S1].
Qed.

Lemma updateMembership_joins (g : GroupCall.GroupCall)
    (devices : list CallDeviceMembership) (eventTimestamp : nat) :
  GroupCall._state g = GroupCall.Joining ->
  In (GroupCall.ownDeviceId (GroupCall.options g)) (map device_id devices) ->
  GroupCall._state
    (fst (GroupCall.updateMembership g (GroupCall.ownUserId (GroupCall.options g))
            (GroupCall.ownUserId (GroupCall.options g)) devices eventTimestamp))
  = GroupCall.Joined.
Proof.
  intros J Hin. unfold GroupCall.updateMembership.
  pose proof (updateDevices_joins (GroupCall.ownUserId (GroupCall.options g)) devices
                eventTimestamp g 0 J Hin) as S1.
  pose proof (updateDevices_sameCall (GroupCall.ownUserId (GroupCall.options g))
                (GroupCall.ownUserId (GroupCall.options g)) devices eventTimestamp g 0)
    as (_ & _ & O1).
  destruct (GroupCall.updateDevices _ _ _ _ _ _) as [g1 effs1].
  match goal with
  | |- context [GroupCall.removeMemberDevices g1 ?u ?l] =>
      pose proof (removeMemberDevices_sameStage u l g1) as [S2 _];
      pose proof (removeMemberDevices_sameCall u l g1) as (_ & _ & O2);
      destruct (GroupCall.removeMemberDevices g1 u l) as [g2 effs2]
  end.
  cbn [fst] in *.
  assert (GroupCall.hasDevice (map device_id devices)
            (GroupCall.ownDeviceId (GroupCall.options g2)) = true) as Has.
  { apply hasDevice_In. rewrite O2, O1. exact Hin. }
  rewrite Has. cbn [negb]. rewrite andb_false_r. cbn [fst]. congruence.
Qed.

Lemma apply_enters_joined (g : GroupCall.GroupCall) (op : GroupCallRun.Op) :
  GroupCall._state (fst (GroupCallRun.apply g op)) = GroupCall.Joined ->
  GroupCall._state g <> GroupCall.Joined ->
  exists userId devices eventTimestamp,
    op = GroupCallRun.UpdateMembership userId devices eventTimestamp.
Proof.
  destruct op; cbn [GroupCallRun.apply]; intros J N;
    try (exists userId, devices, eventTimestamp; reflexivity); exfalso.
  - unfold GroupCall.create_start in J.
    destruct (GroupCall.GroupCallState_eqb _ _); [discriminate J | contradiction].
  - discriminate J.
  - unfold GroupCall.updateCallEvent in J. cbn in J.
    destruct (GroupCall.GroupCallState_eqb _ _); [discriminate J | contradiction].
  - discriminate J.
  - unfold GroupCall.join_sendState in J.
    destruct (GroupCall._createJoinPayload _ _). contradiction.
  - unfold GroupCall.join_connect in J.
    pose proof (connectToMembers_sameStage (GroupCall._members g) joinedData g) as [S1 _].
    destruct (GroupCall.connectToMembers _ _ _). cbn [fst] in *. congruence.
  - assert (GroupCall._state (fst (GroupCall.setMedia g media)) = GroupCall._state g) as S.
    { unfold GroupCall.setMedia. destruct (GroupCall.hasJoined g); [| reflexivity].
      destruct (GroupCall.joinedData g); reflexivity. }
    congruence.
  - exact (disconnect_not_joined g J).
  - unfold GroupCall.removeMembership in J.
    match type of J with
    | context [GroupCall.removeMemberDevices g userId ?l] =>
        pose proof (removeMemberDevices_sameStage userId l g) as [S1 _];
        destruct (GroupCall.removeMemberDevices g userId l) as [g1 effs1]
    end.
    cbn [fst] in *.
    destruct (String.eqb _ _).
    + unfold GroupCall.removeOwnDevice in J. pose proof (disconnect_not_joined g1) as D.
      destruct (GroupCall.disconnect g1) as [g2 effs2]. cbn [fst] in *. contradiction.
    + cbn [fst] in J. congruence.
  - assert (GroupCall._state (fst (GroupCall.handleDeviceMessage g message userId deviceId))
            = GroupCall._state g) as S.
    { unfold GroupCall.handleDeviceMessage. cbv zeta.
      destruct (GroupCall.getMember _ _) as [member |]; [| reflexivity].
      destruct (String.eqb _ _); [| reflexivity].
      destruct (Member.handleDeviceMessage _ _ _). reflexivity. }
    congruence.
  - destruct (GroupCall.getMember g key); cbn [fst] in J; contradiction.
Qed.

(** X14. The state Joined is entered by the own member event and by nothing
    else. A piece of an operation that leaves the call Joined when it was
    not is [updateMembership] for the own user, with the own device among
    the devices of the event, run while the call is Joining; and every such
    member event makes a Joining call Joined. *)
Theorem joined_is_entered_by_own_member_event (g : GroupCall.GroupCall) :
  (forall op,
     GroupCall._state (fst (GroupCallRun.apply g op)) = GroupCall.Joined ->
     GroupCall._state g <> GroupCall.Joined ->
     GroupCall._state g = GroupCall.Joining
     /\ exists devices eventTimestamp,
          op = GroupCallRun.UpdateMembership (GroupCall.ownUserId (GroupCall.options g))
                 devices eventTimestamp
          /\ In (GroupCall.ownDeviceId (GroupCall.options g)) (map device_id devices))
  /\ (forall devices eventTimestamp,
        GroupCall._state g = GroupCall.Joining ->
        In (GroupCall.ownDeviceId (GroupCall.options g)) (map device_id devices) ->
        GroupCall._state
          (fst (GroupCallRun.apply g
                  (GroupCallRun.UpdateMembership (GroupCall.ownUserId (GroupCall.options g))
                     devices eventTimestamp))) = GroupCall.Joined).
Proof.
  split.
  - intros op J N.
    destruct (apply_enters_joined g op J N) as (userId & devices & eventTimestamp & ->).
    cbn [GroupCallRun.apply] in J.
    destruct (updateMembership_enters_joined g userId devices eventTimestamp J N)
      as (S & U & D).
    split; [exact S |]. exists devices, eventTimestamp. subst userId. split; [reflexivity | exact D].
  - intros devices eventTimestamp J Hin. cbn [GroupCallRun.apply].
    apply updateMembership_joins; assumption.
Qed.

(** X14, witness: the call of ("@b", "B1") is Joining with ("@a", "A1") as
    a member; the member event of "@b" that lists "B1" makes it Joined. *)
Lemma joined_is_entered_by_own_member_event_witness :
  GroupCall._state call_with_alice = GroupCall.Joining
  /\ GroupCall._state
       (fst (GroupCallRun.apply call_with_alice
               (GroupCallRun.UpdateMembership "@b" [mkDevice "B1" "SB"] 70)))
     = GroupCall.Joined.
Proof.
  destruct (joined_is_entered_by_own_member_event call_with_alice) as [Only Enters].
  destruct (Only (GroupCallRun.UpdateMembership "@b" [mkDevice "B1" "SB"] 70))
    as [S _]; [reflexivity | discriminate |].
  split; [exact S |].
  apply (Enters [mkDevice "B1" "SB"] 70); [reflexivity | left; reflexivity].
Defined.

(** ** GroupCall: [leave] on a Joined call *)

Lemma call_joined_without_data_reachable : GroupCall.Reachable call_joined_without_data.
Proof.
  eapply GroupCall.Reachable_step;
    [apply call_left_while_joining_reachable | apply GroupCall.Step_updateMembership].
Qed.

(** X16. [leave] on a call that is Joined. When the call has its joined
    data, [leave] puts it back to Created without joined data, so that
    [join] can start again; every member stays in the map and holds neither
    a PeerCall nor media afterwards. When it has none, which is the state
    of a call left while Joining once the own member event has come,
    [leave] returns at its guard: it sends nothing, the call stays Joined,
    and [join] returns at its guard as well. *)
Theorem leave_of_joined_call (g : GroupCall.GroupCall)
    (stored : option (list GroupCall.CallInfo)) :
  GroupCall._state g = GroupCall.Joined ->
  let g' := fst (GroupCall.leave g stored) in
  (GroupCall.joinedData g <> None ->
   GroupCall._state g' = GroupCall.Created
   /\ GroupCall.joinedData g' = None
   /\ GroupCall.join_canStart g' = true
   /\ JsMap.keys (GroupCall._members g') = JsMap.keys (GroupCall._members g)
   /\ Forall (fun km => Member.peerCall (snd km) = None /\ Member.localMedia (snd km) = None)
        (GroupCall._members g'))
  /\ (GroupCall.joinedData g = None ->
      GroupCall.leave g stored = (g, [])
      /\ forall media stored' now, GroupCall.join g media stored' now = (g, [])).
Proof.
  intros Hs. cbv zeta. split.
  - intro Hj. unfold GroupCall.leave.
    destruct (GroupCall.joinedData g) as [jd |] eqn:J; [| contradiction Hj; reflexivity].
    destruct (disconnect_spec g) as (_ & Dj & Dk & Ds).
    assert (GroupCall._members (fst (GroupCall.disconnect g))
            = map (fun km => (fst km, fst (Member.disconnect (snd km) true)))
                (GroupCall._members g)) as Dm.
    { unfold GroupCall.disconnect. rewrite Hs. reflexivity. }
    destruct (GroupCall.disconnect g) as [g' effs]. cbn [fst] in *.
    rewrite Hs in Ds. cbn in Ds.
    split; [exact Ds |]. split; [exact Dj |].
    split; [unfold GroupCall.join_canStart; rewrite Ds, Dj; reflexivity |].
    split; [exact Dk |].
    rewrite Dm. apply Forall_forall. intros km Hin.
    apply in_map_iff in Hin as (km0 & <- & _). split; reflexivity.
  - intro Hj. split.
    + unfold GroupCall.leave. rewrite Hj. reflexivity.
    + intros media stored' now. unfold GroupCall.join, GroupCall.join_canStart.
      rewrite Hs. reflexivity.
Qed.

(** X16, witness: the call of ("@b", "B1") left while Joining, after its
    own member event has come, is Joined without joined data: [leave]
    changes nothing and sends nothing. *)
Lemma leave_of_joined_call_witness :
  GroupCall._state call_joined_without_data = GroupCall.Joined
  /\ GroupCall.leave call_joined_without_data None = (call_joined_without_data, [])
  /\ GroupCall._state (fst (GroupCall.leave call_joined None)) = GroupCall.Created.
Proof.
  split; [reflexivity |]. split.
  - destruct (leave_of_joined_call call_joined_without_data None) as [_ Stuck];
      [reflexivity |].
    destruct Stuck as [L _]; [reflexivity | exact L].
  - destruct (leave_of_joined_call call_joined None) as [Left _]; [reflexivity |].
    destruct Left as [S _]; [discriminate | exact S].
Defined.

(** ** GroupCall: [join] called twice *)

Lemma connectToMembers_sends_nothing (members : list (GroupCall.MemberKey * Member.Member))
    (jd : GroupCall.JoinedData) :
  forall g,
    sentStateEvents (snd (GroupCall.connectToMembers g members jd)) = []
    /\ disposalsByGroupCall (snd (GroupCall.connectToMembers g members jd)) = [].
Proof.
  induction members as [| km rest IH]; intro g; cbn [GroupCall.connectToMembers].
  - split; reflexivity.
  - unfold GroupCall.connectToMember.
    destruct (Member.connect _ _ _) as [member' effs].
    match goal with
    | |- context [GroupCall.connectToMembers ?g1 rest jd] =>
        pose proof (IH g1) as [S1 D1]; destruct (GroupCall.connectToMembers g1 rest jd)
    end.
    cbn [fst snd app sentStateEvents disposalsByGroupCall] in *. split; assumption.
Qed.

Lemma join_sendState_spec (g : GroupCall.GroupCall) (stored : option (list GroupCall.CallInfo))
    (now : nat) :
  sameStage g (fst (GroupCall.join_sendState g stored now))
  /\ GroupCall.options (fst (GroupCall.join_sendState g stored now)) = GroupCall.options g
  /\ (exists content,
        sentStateEvents (snd (GroupCall.join_sendState g stored now))
        = [GroupCall.GroupCallMemberEvent (GroupCall.ownUserId (GroupCall.options g)) content])
  /\ disposalsByGroupCall (snd (GroupCall.join_sendState g stored now)) = [].
Proof.
  unfold GroupCall.join_sendState.
  destruct (GroupCall._createJoinPayload g stored) as [content index].
  cbn. repeat split. exists content. reflexivity.
Qed.

Lemma join_connect_spec (g : GroupCall.GroupCall) (jd : GroupCall.JoinedData) :
  sameStage g (fst (GroupCall.join_connect g jd))
  /\ GroupCall.options (fst (GroupCall.join_connect g jd)) = GroupCall.options g
  /\ sentStateEvents (snd (GroupCall.join_connect g jd)) = []
  /\ disposalsByGroupCall (snd (GroupCall.join_connect g jd)) = [].
Proof.
  unfold GroupCall.join_connect.
  pose proof (connectToMembers_sameStage (GroupCall._members g) jd g) as S1.
  pose proof (connectToMembers_sameCall (GroupCall._members g) jd g) as (_ & _ & O1).
  pose proof (connectToMembers_sends_nothing (GroupCall._members g) jd g) as [N1 N2].
  destruct (GroupCall.connectToMembers _ _ _) as [g1 effs].
  cbn [fst snd sentStateEvents disposalsByGroupCall] in *. repeat split; try assumption.
  - apply S1.
  - apply S1.
Qed.

(** X15. The guard of [join] holds off a second call only from the moment
    the first has set its joined data. On a call on which that piece of
    [join] has run, [join] does nothing, whatever media is passed. But a
    second [join] made on a call that can be joined before the TURN
    settings of the first have come passes the guard as the first did, and
    both go on: the second sets its joined data over that of the first,
    which the call disposes of at no point, the call is Joining on the media
    of the second, and two member events have been sent; when the call is
    disconnected later, the media of the second call is the only one it
    disposes of. *)
Theorem join_guard_holds_only_after_joinedData_is_set
    (g : GroupCall.GroupCall) (first second : LocalMedia)
    (stored stored' : option (list GroupCall.CallInfo)) (now now' : nat) :
  GroupCall.join (fst (GroupCall.join_install g first)) second stored' now'
  = (fst (GroupCall.join_install g first), [])
  /\ (GroupCall.join_canStart g = true ->
      let ran := GroupCallRun.run g (joinedTwice first second stored stored' now now') in
      GroupCall.joinedData (fst ran) = Some (GroupCall.mkJoinedData second)
      /\ GroupCall._state (fst ran) = GroupCall.Joining
      /\ (exists content content',
            sentStateEvents (snd ran)
            = [GroupCall.GroupCallMemberEvent (GroupCall.ownUserId (GroupCall.options g))
                 content;
               GroupCall.GroupCallMemberEvent (GroupCall.ownUserId (GroupCall.options g))
                 content'])
      /\ disposalsByGroupCall (snd ran) = []
      /\ disposalsByGroupCall (snd (GroupCall.disconnect (fst ran))) = [second]).
Proof.
  split; [reflexivity |].
  intros _. cbv zeta.
  remember (GroupCallRun.run g (joinedTwice first second stored stored' now now'))
    as ran eqn:R.
  unfold joinedTwice in R.
  cbn [GroupCallRun.run GroupCallRun.apply GroupCall.join_install] in R.
  set (g2 := GroupCall.set_state
               (GroupCall.set_joinedData
                  (GroupCall.set_state
                     (GroupCall.set_joinedData g (Some (GroupCall.mkJoinedData first)))
                     GroupCall.Joining)
                  (Some (GroupCall.mkJoinedData second)))
               GroupCall.Joining) in R.
  assert (GroupCall._state g2 = GroupCall.Joining
          /\ GroupCall.joinedData g2 = Some (GroupCall.mkJoinedData second)
          /\ GroupCall.options g2 = GroupCall.options g) as (S2 & J2 & O2)
      by (repeat split).
  clearbody g2.
  destruct (join_sendState_spec g2 stored now) as ([S3 J3] & O3 & (c1 & E3) & D3).
  destruct (GroupCall.join_sendState g2 stored now) as [g3 effs3].
  destruct (join_sendState_spec g3 stored' now') as ([S4 J4] & O4 & (c2 & E4) & D4).
  destruct (GroupCall.join_sendState g3 stored' now') as [g4 effs4].
  destruct (join_connect_spec g4 (GroupCall.mkJoinedData first)) as ([S5 J5] & O5 & E5 & D5).
  destruct (GroupCall.join_connect g4 (GroupCall.mkJoinedData first)) as [g5 effs5].
  destruct (join_connect_spec g5 (GroupCall.mkJoinedData second)) as ([S6 J6] & O6 & E6 & D6).
  destruct (GroupCall.join_connect g5 (GroupCall.mkJoinedData second)) as [g6 effs6].
  subst ran. cbn [fst snd] in *.
  split; [congruence |]. split; [congruence |].
  split; [| split].
  - exists c1, c2.
    cbn [app sentStateEvents]. rewrite !sentStateEvents_app, E3, E4, E5, E6.
    cbn [app sentStateEvents]. rewrite O3, O2. reflexivity.
  - cbn [app disposalsByGroupCall]. rewrite !disposalsByGroupCall_app, D3, D4, D5, D6.
    reflexivity.
  - unfold GroupCall.disconnect.
    assert (GroupCall._state g6 = GroupCall.Joining) as S by congruence.
    assert (GroupCall.joinedData g6 = Some (GroupCall.mkJoinedData second)) as J by congruence.
    rewrite S. cbn. rewrite J. reflexivity.
Qed.

(** X15, witness: [join] is called twice on the call announced to
    ("@b", "B1"), with the media 7 and then 8, before anything has come
    back. The call ends with the media 8, and has sent two member events. *)
Lemma join_guard_holds_only_after_joinedData_is_set_witness :
  GroupCall.joinedData
    (fst (GroupCallRun.run call_created (joinedTwice 7 8 None None 50 51)))
  = Some (GroupCall.mkJoinedData 8)
  /\ length (sentStateEvents
               (snd (GroupCallRun.run call_created (joinedTwice 7 8 None None 50 51)))) = 2.
Proof.
  destruct (join_guard_holds_only_after_joinedData_is_set call_created 7 8 None None 50 51)
    as [_ Twice].
  destruct Twice as (J & _ & (c & c' & E) & _); [reflexivity |].
  split; [exact J | rewrite E; reflexivity].
Defined.
